(** * github_backup: backup engine and retrieval state machine

    A shallow embedding of the parts of [backup_handler.py],
    [archival_handler.py], [api_handler.py] and [audit_logger.py] that the
    backup execution engine and the archive/retrieval state machine rest on,
    followed by the properties established about them.

    Conventions.
    - Python [str] is [string]; the text handled here is ASCII, bytes
      above 127 are left alone by [lower].
    - A Python [dict] used as a record of named fields is a
      [gmap string _]; a DynamoDB table is a [gmap] from its key.
    - Code that raises is embedded in a state-and-exception monad [M]:
      the state survives a raise, as the heap of the interpreter does.
    - Every call that leaves the process (S3, Glacier, DynamoDB, Secrets
      Manager, git, the GitHub API, the file system) is answered by an
      oracle field of the state, so that a property quantified over all
      states covers every answer the service can give.
    - A Python [float] (a time stamp, a size in MB) is a rational [Q]
      and its arithmetic is exact; a property that rests on which side
      of a bound a computed value falls is stated with a margin that
      covers the rounding of doubles. *)

From Stdlib Require Import ZArith QArith Qround Qabs Lia Lqa Bool List Ascii String.
From stdpp Require Import base option list gmap strings pretty.

Local Open Scope Z_scope.

(** ** Python string primitives *)

Module Py.

(** [c.lower()] on one ASCII character. *)
Definition lower_char (c : ascii) : ascii :=
  let n := N_of_ascii c in
  if ((65 <=? n) && (n <=? 90))%N then ascii_of_N (n + 32) else c.

(** [s.lower()] *)
Fixpoint lower (s : string) : string :=
  match s with
  | EmptyString => EmptyString
  | String c s' => String (lower_char c) (lower s')
  end.

(** [s.startswith(p)] *)
Fixpoint startswith (p s : string) : bool :=
  match p, s with
  | EmptyString, _ => true
  | String _ _, EmptyString => false
  | String a p', String b s' => if decide (a = b) then startswith p' s' else false
  end.

(** [p in s] for two strings: [p] occurs in [s] as a substring. *)
Fixpoint str_in (p s : string) : bool :=
  startswith p s ||
  match s with
  | EmptyString => false
  | String _ s' => str_in p s'
  end.

(** [len(s)] *)
Definition len (s : string) : Z := Z.of_nat (String.length s).

(** [s[n:]] for [0 <= n] *)
Fixpoint drop (n : nat) (s : string) : string :=
  match n, s with
  | O, _ => s
  | S _, EmptyString => EmptyString
  | S n', String _ s' => drop n' s'
  end.

(** [s.replace(old, new)] for a non-empty [old]: the occurrences of
    [old] are taken from the left and do not overlap.  [skip] counts
    the characters of a matched occurrence still to be passed over. *)
Fixpoint replace_from (old new : string) (skip : nat) (s : string) : string :=
  match s with
  | EmptyString => EmptyString
  | String c s' =>
      match skip with
      | S k => replace_from old new k s'
      | O =>
          if startswith old s
          then new +:+ replace_from old new (String.length old - 1) s'
          else String c (replace_from old new O s')
      end
  end.

Definition replace (old new s : string) : string := replace_from old new O s.

(** [s.split(sep)] for a non-empty [sep]; [cur] is the piece being
    read. *)
Fixpoint split_from (sep : string) (skip : nat) (cur : string) (s : string)
  : list string :=
  match s with
  | EmptyString => [cur]
  | String c s' =>
      match skip with
      | S k => split_from sep k cur s'
      | O =>
          if startswith sep s
          then cur :: split_from sep (String.length sep - 1) EmptyString s'
          else split_from sep O (cur +:+ String c EmptyString) s'
      end
  end.

Definition split (sep s : string) : list string :=
  split_from sep O EmptyString s.

(** [l[-1]] of a list that [split] returned (never empty). *)
Definition last_of (l : list string) : string := List.last l EmptyString.

(** [os.path.join(a, b)] on POSIX paths. *)
Definition path_join (a b : string) : string :=
  if startswith "/" b then b
  else if decide (a = EmptyString) then b
  else if startswith "/" (String.rev a) then a +:+ b
  else a +:+ "/" +:+ b.

(** [repr] of a list of strings free of quotes and backslashes, as
    [str()] of a subprocess error prints its command. *)
Definition repr_str (s : string) : string := "'" +:+ s +:+ "'".

Fixpoint repr_items (l : list string) : string :=
  match l with
  | [] => EmptyString
  | [x] => repr_str x
  | x :: l' => repr_str x +:+ ", " +:+ repr_items l'
  end.

Definition repr_list (l : list string) : string := "[" +:+ repr_items l +:+ "]".

(** [s[-1]], when [s] is not empty. *)
Fixpoint last_char (s : string) : option ascii :=
  match s with
  | EmptyString => None
  | String c EmptyString => Some c
  | String _ s' => last_char s'
  end.

(** [c.isdigit()] on an ASCII character. *)
Definition is_digit (c : ascii) : bool :=
  ((48 <=? N_of_ascii c) && (N_of_ascii c <=? 57))%N.

(** The double quote, as a string of one character. *)
Definition quote : string := String (ascii_of_N 34) EmptyString.

End Py.

(** ** Where a text can begin or end inside another *)

Module Overlap.

(** Some non-empty end of [a] is a beginning of [p], and not all of
    [p]: an occurrence of [p] can begin in [a] and go on after it. *)
Fixpoint meets (p a : string) : bool :=
  match a with
  | EmptyString => false
  | String _ a' =>
      (Py.startswith a p && (String.length a <? String.length p)%nat)
      || meets p a'
  end.

(** Some non-empty end of [p], not all of [p], is a beginning of
    [b]: an occurrence of [p] can begin before [b] and end in it. *)
Fixpoint touches (p b : string) : bool :=
  match p with
  | EmptyString => false
  | String _ p' =>
      (negb (bool_decide (p' = EmptyString)) && Py.startswith p' b)
      || touches p' b
  end.

End Overlap.

(** ** Exceptions and the state-and-exception monad *)

Inductive exn_kind : Type :=
  | ClientError (code : string)      (* botocore.exceptions.ClientError *)
  | CalledProcessError (stderr : string)
  | TimeoutExpired
  | KeyError
  | ValueError
  | TypeError
  | RuntimeError
  | OSError
  | PlainException.                  (* raise Exception(...) and the rest *)

(** An exception object: its class and [str(e)]. *)
Record exn : Type := Exn { exn_kind_of : exn_kind; exn_str : string }.

Inductive result (A : Type) : Type :=
  | Ok (a : A)
  | Raise (e : exn).
Arguments Ok {A} a.
Arguments Raise {A} e.

Definition M (St A : Type) : Type := St -> result A * St.

Definition ret {St A} (a : A) : M St A := fun s => (Ok a, s).

Definition raise {St A} (e : exn) : M St A := fun s => (Raise e, s).

Definition bind {St A B} (c : M St A) (k : A -> M St B) : M St B :=
  fun s =>
    match c s with
    | (Ok a, s') => k a s'
    | (Raise e, s') => (Raise e, s')
    end.

Definition gets {St A} (f : St -> A) : M St A := fun s => (Ok (f s), s).

Definition modify {St} (f : St -> St) : M St unit := fun s => (Ok tt, f s).

(** [try: body / except Exception as e: handler e] *)
Definition try_except {St A} (body : M St A) (handler : exn -> M St A) : M St A :=
  fun s =>
    match body s with
    | (Ok a, s') => (Ok a, s')
    | (Raise e, s') => handler e s'
    end.

(** [try: body / except <class> as e: handler e]: an exception the
    clause does not select goes on to the enclosing handler. *)
Definition try_except_only {St A} (sel : exn -> bool)
    (body : M St A) (handler : exn -> M St A) : M St A :=
  try_except body (fun e => if sel e then handler e else raise e).

(** [try: body / finally: fin] *)
Definition try_finally {St A} (body : M St A) (fin : M St unit) : M St A :=
  fun s =>
    match body s with
    | (r, s') =>
        match fin s' with
        | (Ok _, s'') => (r, s'')
        | (Raise e, s'') => (Raise e, s'')
        end
    end.

(** Turn the answer of an oracle into a computation. *)
Definition answer {St A} (r : result A) : M St A := fun s => (r, s).

Declare Scope py_scope.
Delimit Scope py_scope with py.
Notation "x <- c ;; k" := (bind c (fun x => k))
  (at level 100, c at next level, right associativity) : py_scope.
Notation "c ;; k" := (bind c (fun _ => k))
  (at level 100, right associativity) : py_scope.

Definition is_client_error (e : exn) : bool :=
  match exn_kind_of e with ClientError _ => true | _ => false end.

Definition is_called_process_error (e : exn) : bool :=
  match exn_kind_of e with CalledProcessError _ => true | _ => false end.

Definition is_timeout_expired (e : exn) : bool :=
  match exn_kind_of e with TimeoutExpired => true | _ => false end.

(** JSON scalars, as they arrive in an event or go out in a result. *)
Inductive JVal : Type :=
  | JNull
  | JBool (b : bool)
  | JInt (n : Z)
  | JStr (s : string).

Global Instance JVal_eq_dec : EqDecision JVal.
Proof. solve_decision. Defined.

(** Python truth value of a JSON scalar. *)
Definition truthy (v : JVal) : bool :=
  match v with
  | JNull => false
  | JBool b => b
  | JInt n => negb (n =? 0)
  | JStr s => negb (bool_decide (s = EmptyString))
  end.

(** ** Error taxonomy ([backup_handler.categorize_error]) *)

Module Taxonomy.

Definition categorize_error (error_msg : string) : string :=
  let error_lower := Py.lower error_msg in
  if Py.str_in "no space left" error_lower
     || Py.str_in "insufficient disk space" error_lower then
    "DISK_SPACE"
  else if Py.str_in "authentication failed" error_lower
          || Py.str_in "permission denied" error_lower then
    "AUTHENTICATION"
  else if Py.str_in "repository not found" error_lower
          || Py.str_in "not found" error_lower then
    "REPOSITORY_ACCESS"
  else if Py.str_in "timeout" error_lower
          || Py.str_in "timed out" error_lower then
    "TIMEOUT"
  else if Py.str_in "network" error_lower
          || Py.str_in "connection" error_lower
          || Py.str_in "dns" error_lower then
    "NETWORK"
  else if Py.str_in "libpcre2" error_lower
          || Py.str_in "shared libraries" error_lower then
    "LAMBDA_LAYER"
  else if Py.str_in "no such file or directory" error_lower
          && Py.str_in "git" error_lower then
    "GIT_MISSING"
  else if Py.str_in "memory" error_lower
          || Py.str_in "out of memory" error_lower then
    "MEMORY"
  else
    "UNKNOWN".

(** The substrings the classifier looks for on their own. *)
Definition single_patterns : list string :=
  [ "no space left"; "insufficient disk space";
    "authentication failed"; "permission denied";
    "repository not found"; "not found";
    "timeout"; "timed out";
    "network"; "connection"; "dns";
    "libpcre2"; "shared libraries";
    "memory"; "out of memory" ].

(** A message matches a known pattern when one of [single_patterns]
    occurs in it, or the pair the GIT_MISSING branch asks for does; all
    of it after lowering the message. *)
Definition matches_known_pattern (error_msg : string) : bool :=
  let error_lower := Py.lower error_msg in
  existsb (fun p => Py.str_in p error_lower) single_patterns
  || (Py.str_in "no such file or directory" error_lower
      && Py.str_in "git" error_lower).

(** Case-insensitive containment, as the claim words it. *)
Definition contains_ci (pat msg : string) : bool :=
  Py.str_in (Py.lower pat) (Py.lower msg).

End Taxonomy.

(** ** The backup engine ([backup_handler.py]) *)

Module Backup.

(** *** Time *)

(** A naive [datetime], as [datetime.now()] returns it. *)
Record datetime : Type := DateTime {
  year : Z; month : Z; day : Z; hour : Z; minute : Z; second : Z }.

(** One reading of the clock: the civil time and [.timestamp()]. *)
Record Instant : Type := { civil : datetime; epoch : Q }.

(** One decimal digit as a character. *)
Definition digit (d : Z) : ascii := ascii_of_N (48 + Z.to_N d).

(** Zero-padded fields of [strftime]: [%m %d %H %M] (two digits) and
    [%Y] (four digits, for the years 1000 to 9999). *)
Definition pad2 (n : Z) : string :=
  String (digit (n / 10 mod 10)) (String (digit (n mod 10)) EmptyString).

Definition pad4 (n : Z) : string := pad2 (n / 100) +:+ pad2 (n mod 100).

(** [dt.strftime('%Y-%m-%d')] *)
Definition strftime_Ymd (dt : datetime) : string :=
  pad4 (year dt) +:+ "-" +:+ pad2 (month dt) +:+ "-" +:+ pad2 (day dt).

(** [dt.strftime('%H-%M')] *)
Definition strftime_HM (dt : datetime) : string :=
  pad2 (hour dt) +:+ "-" +:+ pad2 (minute dt).

(** *** What the engine sees of the outside *)

(** An entry of a directory listing. [e_mtime] is the answer of
    [os.path.getmtime], [e_size] that of [os.path.getsize], [e_rmtree]
    what [shutil.rmtree] raises on it, if anything. *)
Record DirEntry : Type := {
  e_name : string;
  e_isdir : bool;
  e_mtime : result Q;
  e_size : Z;
  e_rmtree : option exn }.

(** [os.statvfs(path)]: the two fields the code reads. *)
Record Statvfs : Type := { f_bavail : Z; f_frsize : Z }.

(** The answer of Secrets Manager, after [json.loads] where it parses. *)
Inductive SecretAnswer : Type :=
  | SecretDenied (e : exn)                       (* get_secret_value raises *)
  | SecretNotJson (raw : string)                 (* SecretString is not JSON *)
  | SecretJsonStr (s : string)                   (* a JSON string *)
  | SecretJsonDict (d : list (string * string))  (* a JSON object *)
  | SecretJsonOther (shown : string).            (* any other JSON value *)

(** The answer of [subprocess.run]. *)
Inductive ProcAnswer : Type :=
  | Exited (returncode : Z) (stdout stderr : string)
  | TimedOut
  | NotStarted (e : exn).

Record S3Object : Type := {
  o_size : Z; o_storage_class : string; o_encryption : string }.

Record AuditEvent : Type := {
  a_repository : string;
  a_event_type : string;
  a_status : string;
  a_details : gmap string JVal;
  a_error : option string }.

Record HistoryItem : Type := {
  h_repository : string;
  h_backup_version : string;
  h_s3_key : string;
  h_size_bytes : JVal;
  h_storage_class : string }.

(** What the engine did to the outside, in order. *)
Inductive Effect : Type :=
  | EMakedirs (path : string)
  | EHttpGet (url : string)
  | EGit (argv : list string) (timeout : option Z)
  | ECompress (source_dir archive_path : string)
  | ERmtree (path : string)
  | EUpload (key : string).

Record World : Type := {
  environ : gmap string string;
  secret : string -> SecretAnswer;
  clock : nat -> Instant;              (* successive readings of the clock *)
  ticks : nat;
  statvfs : string -> nat -> result Statvfs;   (* successive measurements *)
  stat_calls : nat;
  tree : gmap string (list DirEntry);  (* directory path to its listing *)
  makedirs_err : option exn;
  github : string -> string -> result Z;  (* requests.get by URL and token:
                                             status code, or what it raises *)
  git : list string -> option Z -> ProcAnswer;
  tar : string -> result Z;            (* archive size, or what tarfile raises *)
  s3_put : string -> option exn;
  s3 : gmap string S3Object;
  events_put : option exn;             (* put_item on the events table *)
  history_put : option exn;            (* put_item on the history table *)
  audit : list AuditEvent;
  history : list HistoryItem;
  effects : list Effect }.

Definition set_ticks (n : nat) (w : World) : World :=
  {| environ := environ w; secret := secret w; clock := clock w; ticks := n;
     statvfs := statvfs w; stat_calls := stat_calls w; tree := tree w;
     makedirs_err := makedirs_err w; github := github w; git := git w;
     tar := tar w; s3_put := s3_put w; s3 := s3 w;
     events_put := events_put w; history_put := history_put w;
     audit := audit w; history := history w; effects := effects w |}.

Definition set_stat_calls (n : nat) (w : World) : World :=
  {| environ := environ w; secret := secret w; clock := clock w; ticks := ticks w;
     statvfs := statvfs w; stat_calls := n; tree := tree w;
     makedirs_err := makedirs_err w; github := github w; git := git w;
     tar := tar w; s3_put := s3_put w; s3 := s3 w;
     events_put := events_put w; history_put := history_put w;
     audit := audit w; history := history w; effects := effects w |}.

Definition set_tree (t : gmap string (list DirEntry)) (w : World) : World :=
  {| environ := environ w; secret := secret w; clock := clock w; ticks := ticks w;
     statvfs := statvfs w; stat_calls := stat_calls w; tree := t;
     makedirs_err := makedirs_err w; github := github w; git := git w;
     tar := tar w; s3_put := s3_put w; s3 := s3 w;
     events_put := events_put w; history_put := history_put w;
     audit := audit w; history := history w; effects := effects w |}.

Definition set_s3 (m : gmap string S3Object) (w : World) : World :=
  {| environ := environ w; secret := secret w; clock := clock w; ticks := ticks w;
     statvfs := statvfs w; stat_calls := stat_calls w; tree := tree w;
     makedirs_err := makedirs_err w; github := github w; git := git w;
     tar := tar w; s3_put := s3_put w; s3 := m;
     events_put := events_put w; history_put := history_put w;
     audit := audit w; history := history w; effects := effects w |}.

Definition set_audit (l : list AuditEvent) (w : World) : World :=
  {| environ := environ w; secret := secret w; clock := clock w; ticks := ticks w;
     statvfs := statvfs w; stat_calls := stat_calls w; tree := tree w;
     makedirs_err := makedirs_err w; github := github w; git := git w;
     tar := tar w; s3_put := s3_put w; s3 := s3 w;
     events_put := events_put w; history_put := history_put w;
     audit := l; history := history w; effects := effects w |}.

Definition set_history (l : list HistoryItem) (w : World) : World :=
  {| environ := environ w; secret := secret w; clock := clock w; ticks := ticks w;
     statvfs := statvfs w; stat_calls := stat_calls w; tree := tree w;
     makedirs_err := makedirs_err w; github := github w; git := git w;
     tar := tar w; s3_put := s3_put w; s3 := s3 w;
     events_put := events_put w; history_put := history_put w;
     audit := audit w; history := l; effects := effects w |}.

Definition set_effects (l : list Effect) (w : World) : World :=
  {| environ := environ w; secret := secret w; clock := clock w; ticks := ticks w;
     statvfs := statvfs w; stat_calls := stat_calls w; tree := tree w;
     makedirs_err := makedirs_err w; github := github w; git := git w;
     tar := tar w; s3_put := s3_put w; s3 := s3 w;
     events_put := events_put w; history_put := history_put w;
     audit := audit w; history := history w; effects := l |}.

Local Open Scope py_scope.

(** [datetime.now()] *)
Definition now : M World Instant :=
  fun w => (Ok (clock w (ticks w)), set_ticks (S (ticks w)) w).

Definition emit (e : Effect) : M World unit :=
  modify (fun w => set_effects (effects w ++ [e]) w).

(** [os.environ[k]] *)
Definition environ_get (k : string) : M World string :=
  fun w =>
    match environ w !! k with
    | Some v => (Ok v, w)
    | None => (Raise (Exn KeyError (Py.repr_str k)), w)
    end.

(** *** Resource guard *)

Definition Qltb (x y : Q) : bool := negb (Qle_bool y x).

(** Rounding to the nearest integer, ties to even: the rounding of
    the [.1f] format. *)
Definition round_half_even (q : Q) : Z :=
  let f := Qfloor q in
  match Qcompare (q - inject_Z f) (1 # 2) with
  | Lt => f
  | Gt => f + 1
  | Eq => if Z.even f then f else f + 1
  end.

(** [f"{q:.1f}"] *)
Definition fmt_1f (q : Q) : string :=
  let t := round_half_even (Qabs q * inject_Z 10) in
  (if Qltb q 0 then "-" else EmptyString)
    +:+ pretty (t / 10) +:+ "." +:+ pretty (t mod 10).

Definition os_statvfs (path : string) : M World Statvfs :=
  fun w => (statvfs w path (stat_calls w), set_stat_calls (S (stat_calls w)) w).

(** [stat.f_bavail * stat.f_frsize / (1024 * 1024)] *)
Definition available_mb (st : Statvfs) : Q :=
  (inject_Z (f_bavail st * f_frsize st) / inject_Z (1024 * 1024))%Q.

Definition os_path_exists (p : string) : M World bool :=
  gets (fun w => bool_decide (is_Some (tree w !! p))).

Definition os_listdir (p : string) : M World (list DirEntry) :=
  gets (fun w => default [] (tree w !! p)).

(** The directory tree once [name] under [parent] is removed. *)
Definition remove_entry (parent name : string)
    (t : gmap string (list DirEntry)) : gmap string (list DirEntry) :=
  delete (Py.path_join parent name)
    (alter (filter (fun e => e_name e <> name)) parent t).

(** The listing of a directory, empty when it does not exist. *)
Definition listing (p : string) (w : World) : list DirEntry :=
  default [] (tree w !! p).

(** What the loop of [cleanup_old_temp_directories] asks of an entry
    before it removes it: a directory, an underscore in its name, and
    a modification time more than one hour back. *)
Definition reclaimable (current_time : Q) (e : DirEntry) : Prop :=
  e_isdir e = true
  /\ Py.str_in "_" (e_name e) = true
  /\ exists mtime, e_mtime e = Ok mtime /\ (mtime + 3600 < current_time)%Q.

(** The names that were in the listing of [base] in [t] and are no
    longer there in [t'] all satisfy [P]. *)
Definition only_removed (P : string -> Prop) (base : string)
    (t t' : gmap string (list DirEntry)) : Prop :=
  forall name,
    name ∈ e_name <$> default [] (t !! base) ->
    name ∉ e_name <$> default [] (t' !! base) ->
    P name.

(** [shutil.rmtree] of an entry of the listing of [parent]. *)
Definition rmtree_entry (parent : string) (e : DirEntry) : M World unit :=
  emit (ERmtree (Py.path_join parent (e_name e))) ;;
  match e_rmtree e with
  | Some x => raise x
  | None => modify (fun w => set_tree (remove_entry parent (e_name e) (tree w)) w)
  end.

(** A [for] loop over a list, threading the variables it updates. *)
Fixpoint for_each {A S : Type} (l : list A) (acc : S)
    (body : S -> A -> M World S) : M World S :=
  match l with
  | [] => ret acc
  | x :: l' => acc' <- body acc x ;; for_each l' acc' body
  end.

(** The body of the loop of [cleanup_old_temp_directories]. *)
Definition cleanup_item (base_path : string) (current_time : Q)
    (cleanup_count : Z) (e : DirEntry) : M World Z :=
  let item := e_name e in
  let item_path := Py.path_join base_path item in
  if e_isdir e && Py.str_in "_" item && negb (bool_decide (item_path = base_path))
  then
    try_except
      (mtime <- answer (e_mtime e) ;;
       let age_hours := ((current_time - mtime) / inject_Z 3600)%Q in
       if Qltb 1 age_hours then
         rmtree_entry base_path e ;;
         ret (cleanup_count + 1)
       else ret cleanup_count)
      (fun cleanup_error => ret cleanup_count)
  else ret cleanup_count.

Definition cleanup_old_temp_directories (base_path : string) : M World unit :=
  try_except
    (ex <- os_path_exists base_path ;;
     if negb ex then ret tt
     else
       t <- now ;;
       let current_time := epoch t in
       items <- os_listdir base_path ;;
       _ <- for_each items 0 (cleanup_item base_path current_time) ;;
       ret tt)
    (fun e => ret tt).

Definition insufficient_disk_space (avail : Q) (required_mb : Z) : exn :=
  Exn RuntimeError
    ("Insufficient disk space: " +:+ fmt_1f avail +:+ " MB available, "
       +:+ pretty required_mb +:+ " MB required").

(** What [check_disk_space] runs inside its [try]. *)
Definition check_disk_space_body (path : string) (required_mb : Z) : M World unit :=
  st <- os_statvfs path ;;
  if Qltb (available_mb st) (inject_Z required_mb) then
    cleanup_old_temp_directories path ;;
    st <- os_statvfs path ;;
    if Qltb (available_mb st) (inject_Z required_mb)
    then raise (insufficient_disk_space (available_mb st) required_mb)
    else ret tt
  else ret tt.

(** [check_disk_space]: the whole body sits in
    [try: ... except Exception as e: logger.warning(...)]. *)
Definition check_disk_space (path : string) (required_mb : Z) : M World unit :=
  try_except (check_disk_space_body path required_mb) (fun e => ret tt).

(** *** Collaborators of the orchestrator *)

(** A repository as the scheduler or the manifest hands it over: a
    dict whose keys may be missing.  [name] and [clone_url] are
    strings when present. *)
Record Event : Type := {
  ev_name : option string;
  ev_clone_url : option string;
  ev_archived : option JVal;
  ev_size : option JVal;
  ev_updated_at : option JVal;
  ev_private : option JVal }.

(** The dict [backup_single_repository] works on; it has read [name]
    and [clone_url] before anything else. *)
Record RepoInfo : Type := {
  r_name : string;
  r_clone_url : string;
  r_archived : option JVal;
  r_size : option JVal;
  r_updated_at : option JVal;
  r_private : option JVal }.

(** [str(v)] *)
Definition py_str (v : JVal) : string :=
  match v with
  | JNull => "None"
  | JBool true => "True"
  | JBool false => "False"
  | JInt n => pretty n
  | JStr s => s
  end.

(** [int(q)]: truncation towards zero. *)
Definition py_int (q : Q) : Z := if Qltb q 0 then Qceiling q else Qfloor q.

Definition basename (p : string) : string := Py.last_of (Py.split "/" p).

Fixpoint lstrip_slash (s : string) : string :=
  match s with
  | String "/" s' => lstrip_slash s'
  | _ => s
  end.

(** [os.path.dirname(p)] *)
Definition dirname (p : string) : string :=
  let head := String.substring 0 (String.length p - String.length (basename p)) p in
  match lstrip_slash head with
  | EmptyString => head
  | _ => String.rev (lstrip_slash (String.rev head))
  end.

Definition add_entry (parent : string) (e : DirEntry)
    (t : gmap string (list DirEntry)) : gmap string (list DirEntry) :=
  <[parent := default [] (t !! parent) ++ [e]]> t.

Definition find_entry (p : string) (w : World) : option DirEntry :=
  List.find (fun e => bool_decide (e_name e = basename p))
    (default [] (tree w !! dirname p)).

Definition current_time (w : World) : Q := epoch (clock w (ticks w)).

(** [os.makedirs(path, exist_ok=True)] *)
Definition os_makedirs (path : string) : M World unit :=
  emit (EMakedirs path) ;;
  fun w =>
    match makedirs_err w with
    | Some e => (Raise e, w)
    | None =>
        match find_entry path w with
        | Some _ => (Ok tt, w)
        | None =>
            (Ok tt,
             set_tree
               (<[path := []]>
                  (add_entry (dirname path)
                     {| e_name := basename path; e_isdir := true;
                        e_mtime := Ok (current_time w); e_size := 0;
                        e_rmtree := None |} (tree w))) w)
        end
    end.

(** [shutil.rmtree(path)] *)
Definition shutil_rmtree (path : string) : M World unit :=
  fun w =>
    match find_entry path w with
    | Some e => rmtree_entry (dirname path) e w
    | None =>
        (Raise (Exn OSError
                  ("[Errno 2] No such file or directory: " +:+ Py.repr_str path)),
         set_effects (effects w ++ [ERmtree path]) w)
    end.

(** [os.path.getsize(path)] *)
Definition os_path_getsize (path : string) : M World Z :=
  fun w =>
    match find_entry path w with
    | Some e => (Ok (e_size e), w)
    | None =>
        (Raise (Exn OSError
                  ("[Errno 2] No such file or directory: " +:+ Py.repr_str path)), w)
    end.

(** [subprocess.run(argv, check=..., capture_output=True, text=True,
    timeout=...)]: the return code and the standard output. *)
Definition subprocess_run (argv : list string) (check : bool) (timeout : option Z)
  : M World (Z * string) :=
  emit (EGit argv timeout) ;;
  fun w =>
    match git w argv timeout with
    | Exited rc out err =>
        if check && negb (rc =? 0) then
          (Raise (Exn (CalledProcessError err)
                    ("Command '" +:+ Py.repr_list argv
                       +:+ "' returned non-zero exit status " +:+ pretty rc +:+ ".")),
           w)
        else (Ok (rc, out), w)
    | TimedOut =>
        (Raise (Exn TimeoutExpired
                  ("Command '" +:+ Py.repr_list argv +:+ "' timed out after "
                     +:+ pretty (default 0 timeout) +:+ " seconds")), w)
    | NotStarted e => (Raise e, w)
    end.

(** A successful clone leaves [repo_dir] on disk. *)
Definition git_clone (argv : list string) (repo_dir : string) (timeout : Z)
  : M World unit :=
  _ <- subprocess_run argv true (Some timeout) ;;
  modify (fun w =>
    set_tree (add_entry (dirname repo_dir)
                {| e_name := basename repo_dir; e_isdir := true;
                   e_mtime := Ok (current_time w); e_size := 0;
                   e_rmtree := None |} (tree w)) w).

(** [audit_logger.get_secret_value] is [backup_handler.get_secret_value]. *)
Definition get_secret_value (secret_arn : string) : M World string :=
  fun w =>
    match secret w secret_arn with
    | SecretDenied e => (Raise e, w)
    | SecretNotJson raw => (Ok raw, w)
    | SecretJsonStr s => (Ok s, w)
    | SecretJsonDict d =>
        match List.find (fun kv => bool_decide (kv.1 = "token")) d with
        | Some kv => (Ok kv.2, w)
        | None =>
            match List.find (fun kv => bool_decide (kv.1 = "github_token")) d with
            | Some kv => (Ok kv.2, w)
            | None =>
                match d with
                | kv :: _ => (Ok kv.2, w)
                | [] => (Raise (Exn PlainException "list index out of range"), w)
                end
            end
        end
    | SecretJsonOther shown =>
        (Raise (Exn ValueError ("Could not extract token from secret: " +:+ shown)), w)
    end.

(** [audit_logger.log_backup_event]: a [ClientError] of the table is
    logged and swallowed.  The event id it returns is used by no
    caller and is left out. *)
Definition log_backup_event (repository_name event_type status : string)
    (details : gmap string JVal) (error : option string) : M World unit :=
  fun w =>
    match events_put w with
    | None =>
        (Ok tt,
         set_audit
           (audit w ++
              [ {| a_repository := repository_name; a_event_type := event_type;
                   a_status := status; a_details := details;
                   a_error := match error with
                              | Some EmptyString => None
                              | _ => error
                              end |} ]) w)
    | Some e => if is_client_error e then (Ok tt, w) else (Raise e, w)
    end.

(** [audit_logger.log_repository_backup] *)
Definition log_repository_backup (repository_name backup_version s3_key : string)
    (size_bytes : JVal) (storage_class : string) : M World unit :=
  fun w =>
    match history_put w with
    | None =>
        (Ok tt,
         set_history
           (history w ++
              [ {| h_repository := repository_name;
                   h_backup_version := backup_version; h_s3_key := s3_key;
                   h_size_bytes := size_bytes;
                   h_storage_class := storage_class |} ]) w)
    | Some e => if is_client_error e then (Ok tt, w) else (Raise e, w)
    end.

(** The address [validate_repository_access] asks the API about,
    when the clone URL names a host, an owner and a repository. *)
Definition api_url_of (clone_url : string) : option string :=
  if Py.str_in "github.com/" clone_url then
    match Py.split "/"
            (Py.replace ".git" EmptyString
               (Py.last_of (Py.split "github.com/" clone_url))) with
    | owner :: repo :: _ =>
        Some ("https://api.github.com/repos/" +:+ owner +:+ "/" +:+ repo)
    | _ => None
    end
  else None.

(** [requests.get(api_url, headers={'Authorization': f'token {token}'},
    timeout=10).status_code] *)
Definition requests_get (api_url token : string) : M World Z :=
  emit (EHttpGet api_url) ;;
  fun w => (github w api_url token, w).

(** [validate_repository_access] *)
Definition validate_repository_access (repo_info : RepoInfo) (token : string)
  : M World bool :=
  try_except
    (match api_url_of (r_clone_url repo_info) with
     | Some api_url =>
         status_code <- requests_get api_url token ;;
         if status_code =? 200 then ret true
         else if status_code =? 404 then ret false
         else if status_code =? 403 then ret false
         else ret true
     | None => ret true
     end)
    (fun e => ret true).

(** *** Clone strategy ([download_repository]) *)

(** [isinstance(v, (int, float)) and v > 100000]; a [bool] is an [int]. *)
Definition is_large (v : JVal) : bool :=
  match v with
  | JInt n => 100000 <? n
  | _ => false
  end.

(** [v < 100000], which raises [TypeError] on a string or [None]. *)
Definition below_threshold (v : JVal) : M World bool :=
  match v with
  | JInt n => ret (n <? 100000)
  | JBool _ => ret true
  | JStr _ =>
      raise (Exn TypeError "'<' not supported between instances of 'str' and 'int'")
  | JNull =>
      raise (Exn TypeError "'<' not supported between instances of 'NoneType' and 'int'")
  end.

Definition shallow_timeout (repo_size_kb : JVal) : Z :=
  if is_large repo_size_kb then 600 else 300.

Definition unshallow_timeout (repo_size_kb : JVal) : Z :=
  if is_large repo_size_kb then 900 else 600.

Definition clone_error (name : string) (e : exn) : exn :=
  let error_msg :=
    match exn_kind_of e with
    | CalledProcessError (String c s) => String c s
    | _ => exn_str e
    end in
  let error_lower := Py.lower error_msg in
  if Py.str_in "authentication failed" error_lower then
    Exn RuntimeError
      ("Authentication failed for " +:+ name +:+ ": Check GitHub token permissions")
  else if Py.str_in "repository not found" error_lower then
    Exn RuntimeError
      ("Repository not found: " +:+ name +:+ " (may be private or deleted)")
  else if Py.str_in "no space left" error_lower then
    Exn RuntimeError ("No space left on device while cloning " +:+ name)
  else
    Exn RuntimeError ("Git clone failed for " +:+ name +:+ ": " +:+ error_msg).

Definition download_repository (repo_info : RepoInfo) (repo_dir token : string)
  : M World unit :=
  let clone_url := r_clone_url repo_info in
  let name := r_name repo_info in
  if negb (Py.startswith "https://github.com/" clone_url) then
    raise (Exn ValueError ("Unsupported clone URL format: " +:+ clone_url))
  else
    let authenticated_url :=
      Py.replace "https://github.com/" ("https://" +:+ token +:+ "@github.com/")
        clone_url in
    let repo_size_kb := default (JInt 0) (r_size repo_info) in
    try_except
      (try_except_only is_called_process_error
         (git_clone
            ["git"; "clone"; "--depth"; "1"; "--mirror"; authenticated_url; repo_dir]
            repo_dir (shallow_timeout repo_size_kb) ;;
          try_except
            (check_disk_space (dirname repo_dir) 100 ;;
             _ <- subprocess_run ["git"; "--git-dir"; repo_dir; "fetch"; "--unshallow"]
                    true (Some (unshallow_timeout repo_size_kb)) ;;
             ret tt)
            (fun unshallow_error => ret tt))
         (fun _ =>
            small <- below_threshold repo_size_kb ;;
            let full_timeout := if small then 900 else 1200 in
            git_clone ["git"; "clone"; "--mirror"; authenticated_url; repo_dir]
              repo_dir full_timeout) ;;
       git_check <- subprocess_run
                      ["git"; "--git-dir"; repo_dir; "rev-parse"; "--git-dir"]
                      false None ;;
       (if negb (git_check.1 =? 0) then
          raise (Exn RuntimeError
                   ("Cloned directory is not a valid Git repository: " +:+ repo_dir))
        else ret tt) ;;
       try_except_only is_called_process_error
         (_ <- subprocess_run ["git"; "--git-dir"; repo_dir; "rev-list"; "--all"; "--count"]
                 true None ;;
          _ <- subprocess_run ["git"; "--git-dir"; repo_dir; "branch"; "-a"] true None ;;
          _ <- subprocess_run ["git"; "--git-dir"; repo_dir; "tag"; "-l"] true None ;;
          ret tt)
         (fun _ => ret tt))
      (fun e =>
         if is_timeout_expired e then
           raise (Exn RuntimeError
                    ("Git clone timed out after 15 minutes for repository: " +:+ name))
         else if is_called_process_error e then raise (clone_error name e)
         else
           raise (Exn RuntimeError
                    ("Unexpected error cloning " +:+ name +:+ ": " +:+ exn_str e))).

(** *** Compressor and upload *)

(** [create_archive]: the archive appears next to [source_dir]; the
    statistics it logs change nothing. *)
Definition create_archive (source_dir archive_path : string) : M World unit :=
  emit (ECompress source_dir archive_path) ;;
  size <- (fun w => (tar w source_dir, w)) ;;
  modify (fun w =>
    set_tree (add_entry (dirname archive_path)
                {| e_name := basename archive_path; e_isdir := false;
                   e_mtime := Ok (current_time w); e_size := size;
                   e_rmtree := None |} (tree w)) w).

(** [upload_to_s3] *)
Definition upload_to_s3 (file_path bucket key : string) : M World unit :=
  size <- os_path_getsize file_path ;;
  emit (EUpload key) ;;
  fun w =>
    match s3_put w key with
    | Some e => (Raise e, w)
    | None =>
        (Ok tt,
         set_s3 (<[key := {| o_size := size; o_storage_class := "STANDARD_IA";
                             o_encryption := "AES256" |}]> (s3 w)) w)
    end.

(** *** Backup orchestrator *)

(** [f"/tmp/{repo_name}_{int(datetime.now().timestamp())}"], without
    the leading [/tmp/]. *)
Definition scratch_name (repo_name : string) (timestamp : Z) : string :=
  repo_name +:+ "_" +:+ pretty timestamp.

(** The naming convention of the orchestrator's scratch directories. *)
Definition is_scratch_name (item : string) : Prop :=
  exists repo_name timestamp, item = scratch_name repo_name timestamp.

(** [f"nightly/{repo_name}/{date_str}-{timestamp}.tar.gz"] *)
Definition s3_key_of (repo_name date_str timestamp : string) : string :=
  "nightly/" +:+ repo_name +:+ "/" +:+ date_str +:+ "-" +:+ timestamp +:+ ".tar.gz".

Definition size_shown (repo : RepoInfo) : string :=
  py_str (default (JStr "unknown") (r_size repo)).

(** The [except Exception as e] clause of [backup_single_repository]. *)
Definition backup_error (repo : RepoInfo) (e : exn) : exn :=
  let repo_name := r_name repo in
  let error_msg := exn_str e in
  let error_lower := Py.lower error_msg in
  if Py.str_in "no space left" error_lower
     || Py.str_in "insufficient disk space" error_lower then
    Exn PlainException
      ("Ephemeral storage exhausted while backing up " +:+ repo_name
         +:+ ". Repository size: " +:+ size_shown repo +:+ " KB")
  else if Py.str_in "authentication failed" error_lower then
    Exn PlainException
      ("GitHub authentication failed for " +:+ repo_name
         +:+ ". Check token permissions.")
  else if Py.str_in "repository not found" error_lower then
    Exn PlainException
      ("Repository " +:+ repo_name
         +:+ " not found. It may be private, deleted, or renamed.")
  else if Py.str_in "timed out" error_lower then
    Exn PlainException
      ("Timeout while backing up " +:+ repo_name
         +:+ ". Repository may be too large.")
  else
    Exn PlainException ("Failed to backup " +:+ repo_name +:+ ": " +:+ error_msg).

(** The gate in front of the clone: [if not
    validate_repository_access(repo, token): raise RuntimeError(...)]. *)
Definition not_accessible (repo : RepoInfo) : exn :=
  Exn RuntimeError
    ("Repository " +:+ r_name repo +:+ " is not accessible with current token").

Definition ensure_accessible (repo : RepoInfo) (token : string) : M World unit :=
  accessible <- validate_repository_access repo token ;;
  if negb accessible then raise (not_accessible repo) else ret tt.

Definition backup_single_repository (repo : RepoInfo)
    (bucket token date_str : string) : M World (gmap string JVal) :=
  let repo_name := r_name repo in
  t0 <- now ;;
  let temp_dir := "/tmp/" +:+ scratch_name repo_name (py_int (epoch t0)) in
  let repo_dir := Py.path_join temp_dir repo_name in
  let archive_path := Py.path_join temp_dir (repo_name +:+ ".tar.gz") in
  try_finally
    (try_except
       (os_makedirs temp_dir ;;
        check_disk_space "/tmp" 1000 ;;
        ensure_accessible repo token ;;
        download_repository repo repo_dir token ;;
        check_disk_space "/tmp" 500 ;;
        create_archive repo_dir archive_path ;;
        try_except (shutil_rmtree repo_dir) (fun cleanup_error => ret tt) ;;
        t1 <- now ;;
        let timestamp := strftime_HM (civil t1) in
        let s3_key := s3_key_of repo_name date_str timestamp in
        upload_to_s3 archive_path bucket s3_key ;;
        file_size <- os_path_getsize archive_path ;;
        ret ({[ "repository" := JStr repo_name; "success" := JBool true;
                "s3_key" := JStr s3_key; "size_bytes" := JInt file_size ]}
               : gmap string JVal))
       (fun e => raise (backup_error repo e)))
    (try_except
       (ex <- gets (fun w => bool_decide (is_Some (find_entry temp_dir w))) ;;
        if ex then shutil_rmtree temp_dir else ret tt)
       (fun cleanup_error => ret tt)).

(** The outcome of a skipped repository. *)
Definition skipped_outcome (repo_name : string) : gmap string JVal :=
  {[ "repository" := JStr repo_name; "success" := JBool false;
     "skipped" := JBool true; "reason" := JStr "archived" ]}.

Definition env_or_unknown (k : string) (w : World) : JVal :=
  JStr (default "unknown" (environ w !! k)).

(** [lambda_handler]: the backup of one repository. *)
Definition lambda_handler (event : Event) : M World (gmap string JVal) :=
  try_except
    (s3_bucket <- environ_get "S3_BUCKET_NAME" ;;
     github_token_secret_arn <- environ_get "GITHUB_TOKEN_SECRET_ARN" ;;
     github_token <- get_secret_value github_token_secret_arn ;;
     match ev_name event, ev_clone_url event with
     | Some name, Some clone_url =>
         let repo_info :=
           {| r_name := name; r_clone_url := clone_url;
              r_archived := Some (default (JBool false) (ev_archived event));
              r_size := Some (default (JStr "unknown") (ev_size event));
              r_updated_at := Some (default (JStr "unknown") (ev_updated_at event));
              r_private := Some (default (JBool false) (ev_private event)) |} in
         let archived := default (JBool false) (ev_archived event) in
         log_backup_event name "backup" "started"
           {[ "clone_url" := JStr clone_url; "archived" := archived;
              "size_kb" := default (JStr "unknown") (ev_size event);
              "private" := default (JBool false) (ev_private event);
              "updated_at" := default (JStr "unknown") (ev_updated_at event) ]}
           None ;;
         if truthy archived then
           log_backup_event name "backup" "skipped"
             {[ "reason" := JStr "archived" ]} None ;;
           ret (skipped_outcome name)
         else
           t <- now ;;
           let date_str := strftime_Ymd (civil t) in
           result <- backup_single_repository repo_info s3_bucket github_token date_str ;;
           (if truthy (default JNull (result !! "success")) then
              log_backup_event name "backup" "completed"
                {[ "s3_key" := default (JStr EmptyString) (result !! "s3_key");
                   "size_bytes" := default (JInt 0) (result !! "size_bytes") ]}
                None ;;
              t' <- now ;;
              let timestamp := strftime_HM (civil t') in
              log_repository_backup name
                ("nightly/" +:+ date_str +:+ "-" +:+ timestamp)
                (py_str (default (JStr EmptyString) (result !! "s3_key")))
                (default (JInt 0) (result !! "size_bytes")) "s3"
            else
              log_backup_event name "backup" "failed" ∅
                (Some (py_str (default (JStr "Unknown error") (result !! "error"))))) ;;
           ret result
     | _, _ =>
         raise (Exn ValueError "Repository name and clone_url must be provided in event")
     end)
    (fun e =>
       let error_msg := exn_str e in
       let repo_name := default "unknown" (ev_name event) in
       let error_category := Taxonomy.categorize_error error_msg in
       lambda_memory <- gets (env_or_unknown "AWS_LAMBDA_FUNCTION_MEMORY_SIZE") ;;
       log_backup_event repo_name "backup" "failed"
         {[ "error_category" := JStr error_category;
            "lambda_memory" := lambda_memory;
            "repository_size" := default (JStr "unknown") (ev_size event);
            "repository_private" := default (JBool false) (ev_private event) ]}
         (Some error_msg) ;;
       ret ({[ "repository" := JStr repo_name; "success" := JBool false;
               "error" := JStr error_msg;
               "error_category" := JStr error_category ]} : gmap string JVal)).

(** [repo['name']] *)
Definition require (k : string) (v : option string) : M World string :=
  match v with
  | Some s => ret s
  | None => raise (Exn KeyError (Py.repr_str k))
  end.

(** [backup_repositories]: the batch form of the same orchestration. *)
Definition backup_repositories (repositories : list Event) (bucket token : string)
  : M World (list (gmap string JVal)) :=
  t <- now ;;
  let date_str := strftime_Ymd (civil t) in
  for_each repositories []
    (fun results repo =>
       try_except
         (if truthy (default (JBool false) (ev_archived repo)) then
            name <- require "name" (ev_name repo) ;;
            ret (results ++ [skipped_outcome name])
          else
            name <- require "name" (ev_name repo) ;;
            clone_url <- require "clone_url" (ev_clone_url repo) ;;
            result <- backup_single_repository
                        {| r_name := name; r_clone_url := clone_url;
                           r_archived := ev_archived repo; r_size := ev_size repo;
                           r_updated_at := ev_updated_at repo;
                           r_private := ev_private repo |}
                        bucket token date_str ;;
            ret (results ++ [result]))
         (fun e =>
            name <- require "name" (ev_name repo) ;;
            ret (results ++
                   [ ({[ "repository" := JStr name; "success" := JBool false;
                         "error" := JStr (exn_str e) ]} : gmap string JVal) ]))).

(** *** Successive backups *)

(** The two readings of the clock that go into the key of a backup:
    [lambda_handler] takes the date when it starts on the repository,
    [backup_single_repository] the time of day when it uploads. *)
Record Run : Type := { handler_time : datetime; upload_time : datetime }.

Definition key_of_run (repo_name : string) (r : Run) : string :=
  s3_key_of repo_name (strftime_Ymd (handler_time r)) (strftime_HM (upload_time r)).

(** The civil times whose [%Y] has four digits. *)
Definition valid (dt : datetime) : Prop :=
  1000 <= year dt <= 9999 /\ 1 <= month dt <= 12 /\ 1 <= day dt <= 31
  /\ 0 <= hour dt <= 23 /\ 0 <= minute dt <= 59 /\ 0 <= second dt <= 59.

(** The place of a civil time in the order of time, in minutes and in
    seconds; both grow with time on [valid] civil times. *)
Definition minute_rank (dt : datetime) : Z :=
  (((year dt * 12 + (month dt - 1)) * 31 + (day dt - 1)) * 24 + hour dt) * 60
  + minute dt.

Definition second_rank (dt : datetime) : Z := minute_rank dt * 60 + second dt.

Definition same_day (a b : datetime) : Prop :=
  year a = year b /\ month a = month b /\ day a = day b.

(** [r2] is a backup that starts after [r1] has uploaded. *)
Definition successive (r1 r2 : Run) : Prop :=
  valid (handler_time r1) /\ valid (upload_time r1)
  /\ valid (handler_time r2) /\ valid (upload_time r2)
  /\ second_rank (handler_time r1) <= second_rank (upload_time r1)
  /\ second_rank (upload_time r1) < second_rank (handler_time r2)
  /\ second_rank (handler_time r2) <= second_rank (upload_time r2).

(** [a < b] on Python strings of ASCII text. *)
Definition str_lt (a b : string) : Prop := String.compare a b = Lt.

(** Lexicographic combination of two comparisons. *)
Definition lex (c d : comparison) : comparison :=
  match c with Eq => d | _ => c end.

(** A field of the outcome a handler returned. *)
Definition outcome_field (r : result (gmap string JVal)) (k : string)
  : option JVal :=
  match r with
  | Ok outcome => outcome !! k
  | Raise _ => None
  end.

(** *** What a skipped backup leaves alone *)

(** [w'] shows no clone, compression or upload beyond those of [w]:
    no call was made and neither the bucket nor the disk has changed. *)
Definition untouched (w w' : World) : Prop :=
  effects w' = effects w /\ s3 w' = s3 w /\ tree w' = tree w.

(** A computation that leaves them alone from every state. *)
Definition keeps {A : Type} (c : M World A) : Prop :=
  forall w, untouched w (snd (c w)).

(** *** Reading a run of the engine *)

(** What the engine reads of the outside and never writes. *)
Definition oracles (w : World) :=
  (environ w, secret w, clock w, statvfs w, makedirs_err w, github w, git w,
   tar w, s3_put w, events_put w, history_put w).

(** A property of the state that persists under a computation. *)
Definition preserves {A : Type} (I : World -> Prop) (c : M World A) : Prop :=
  forall w, I w -> I (snd (c w)).

(** The effects that move repository data: a git command, a
    compression, an upload. *)
Definition moves_data (x : Effect) : bool :=
  match x with
  | EGit _ _ | ECompress _ _ | EUpload _ => true
  | _ => false
  end.

(** From [w] to [w'] no repository data was moved: the bucket is as
    it was, and what was done on the way is something else than a git
    command, a compression or an upload. *)
Definition moves_nothing (w w' : World) : Prop :=
  oracles w' = oracles w /\ s3 w' = s3 w
  /\ exists l, effects w' = effects w ++ l
               /\ Forall (fun x => moves_data x = false) l.

(** No entry of the tree resists [shutil.rmtree]. *)
Definition removable_tree (w : World) : Prop :=
  forall p l e, tree w !! p = Some l -> e ∈ l -> e_rmtree e = None.

(** The scratch directory of a backup that reads the clock at [t0]. *)
Definition temp_dir_of (repo_name : string) (t0 : Instant) : string :=
  "/tmp/" +:+ scratch_name repo_name (py_int (epoch t0)).

(** The clone URL with the token in it, and the two clone commands
    of [download_repository]. *)
Definition authenticated_url (clone_url token : string) : string :=
  Py.replace "https://github.com/" ("https://" +:+ token +:+ "@github.com/")
    clone_url.

Definition shallow_clone (url repo_dir : string) : list string :=
  ["git"; "clone"; "--depth"; "1"; "--mirror"; url; repo_dir].

Definition full_clone (url repo_dir : string) : list string :=
  ["git"; "clone"; "--mirror"; url; repo_dir].

(** The object [upload_to_s3] writes for an archive of [size] bytes. *)
Definition uploaded (size : Z) : S3Object :=
  {| o_size := size; o_storage_class := "STANDARD_IA"; o_encryption := "AES256" |}.

(** The [except] clause of [backup_single_repository] tests these
    texts, in this order, before it falls back on the generic
    message. *)
Definition disk_space_text (error_msg : string) : bool :=
  Py.str_in "no space left" (Py.lower error_msg)
  || Py.str_in "insufficient disk space" (Py.lower error_msg).

(** The texts [categorize_error] looks for, the two of GIT_MISSING
    included. *)
Definition patterns : list string :=
  Taxonomy.single_patterns ++ [ "no such file or directory"; "git" ].

(** A text that holds none of them, in any case of letters. *)
Definition neutral (s : string) : bool :=
  forallb (fun p => negb (Py.str_in p (Py.lower s))) patterns.

(** An entry the pass is to take, with a margin: a directory with an
    underscore in its name whose modification time lies more than an
    hour and a microsecond back. *)
Definition long_stale (current_time : Q) (e : DirEntry) : Prop :=
  e_isdir e = true
  /\ Py.str_in "_" (e_name e) = true
  /\ exists mtime, e_mtime e = Ok mtime
                   /\ (mtime + 3600 + (1 # 1000000) <= current_time)%Q.

(** A rounding of the numbers from 1 on with the relative error of
    double precision, half a unit in the 53rd binary place. *)
Definition rounds_as_double (fl : Q -> Q) : Prop :=
  forall x : Q, (1 <= x)%Q -> (Qabs (fl x - x) <= x * (1 # 9007199254740992))%Q.

(** A state in which the clock is [c] and has been read [n] times
    or more. *)
Definition later (c : nat -> Instant) (n : nat) (x : World) : Prop :=
  clock x = c /\ (n <= ticks x)%nat.

(** The body of the loop of [backup_repositories]. *)
Definition batch_turn (bucket token date_str : string)
    (results : list (gmap string JVal)) (repo : Event)
  : M World (list (gmap string JVal)) :=
  try_except
    (if truthy (default (JBool false) (ev_archived repo)) then
       name <- require "name" (ev_name repo) ;;
       ret (results ++ [skipped_outcome name])
     else
       name <- require "name" (ev_name repo) ;;
       clone_url <- require "clone_url" (ev_clone_url repo) ;;
       result <- backup_single_repository
                   {| r_name := name; r_clone_url := clone_url;
                      r_archived := ev_archived repo; r_size := ev_size repo;
                      r_updated_at := ev_updated_at repo;
                      r_private := ev_private repo |}
                   bucket token date_str ;;
       ret (results ++ [result]))
    (fun e =>
       name <- require "name" (ev_name repo) ;;
       ret (results ++
              [ ({[ "repository" := JStr name; "success" := JBool false;
                    "error" := JStr (exn_str e) ]} : gmap string JVal) ])).

End Backup.

(** ** Cold migration ([archival_handler.archive_single_backup]) *)

Module Archival.

(** The metadata written next to an archived backup. *)
Record ArchiveRecord : Type := {
  original_key : string;
  archive_id : string;
  archived_date : Z;            (* the instant [isoformat()] renders *)
  original_size : JVal }.

(** The content of an object: a backup archive or a metadata file. *)
Inductive Body : Type :=
  | Blob (content : string)
  | Metadata (r : ArchiveRecord).

(** [backup_info], an element of the list [list_backups_to_archive]
    builds, or whatever the caller passes as ["backup"]. *)
Record BackupInfo : Type := {
  b_key : string;
  b_repository_name : option string;
  b_backup_filename : option string;
  b_size : option JVal;
  b_age_days : option JVal }.

(** The calls made to the two stores, in order. *)
Inductive Call : Type :=
  | Download (key : string)
  | UploadArchive (vault description : string)
  | PutObject (key : string)
  | DeleteObject (key : string).

Record Store : Type := {
  s3 : gmap string Body;               (* the bucket *)
  vault : gmap string Body;            (* the Glacier vault, by archive id *)
  download_err : string -> option exn;
  upload_ans : string -> result string;   (* by description: the archive id *)
  put_err : string -> option exn;
  delete_err : string -> option exn;
  clock : nat -> Z;
  ticks : nat;
  calls : list Call }.

Definition set_s3 (m : gmap string Body) (st : Store) : Store :=
  {| s3 := m; vault := vault st; download_err := download_err st;
     upload_ans := upload_ans st; put_err := put_err st;
     delete_err := delete_err st; clock := clock st; ticks := ticks st;
     calls := calls st |}.

Definition set_vault (m : gmap string Body) (st : Store) : Store :=
  {| s3 := s3 st; vault := m; download_err := download_err st;
     upload_ans := upload_ans st; put_err := put_err st;
     delete_err := delete_err st; clock := clock st; ticks := ticks st;
     calls := calls st |}.

Definition set_ticks (n : nat) (st : Store) : Store :=
  {| s3 := s3 st; vault := vault st; download_err := download_err st;
     upload_ans := upload_ans st; put_err := put_err st;
     delete_err := delete_err st; clock := clock st; ticks := n;
     calls := calls st |}.

Definition called (c : Call) (st : Store) : Store :=
  {| s3 := s3 st; vault := vault st; download_err := download_err st;
     upload_ans := upload_ans st; put_err := put_err st;
     delete_err := delete_err st; clock := clock st; ticks := ticks st;
     calls := calls st ++ [c] |}.

Local Open Scope py_scope.

Definition now : M Store Z :=
  fun st => (Ok (clock st (ticks st)), set_ticks (S (ticks st)) st).

(** [s3_client.download_fileobj(bucket, key, temp_file)] *)
Definition download_fileobj (key : string) : M Store Body :=
  fun st =>
    let st := called (Download key) st in
    match download_err st key with
    | Some e => (Raise e, st)
    | None =>
        match s3 st !! key with
        | Some b => (Ok b, st)
        | None =>
            (Raise (Exn (ClientError "404")
                      "An error occurred (404) when calling the HeadObject operation: Not Found"),
             st)
        end
    end.

(** [glacier_client.upload_archive(...)['archiveId']] *)
Definition upload_archive (vault_name description : string) (body : Body)
  : M Store string :=
  fun st =>
    let st := called (UploadArchive vault_name description) st in
    match upload_ans st description with
    | Raise e => (Raise e, st)
    | Ok id => (Ok id, set_vault (<[id := body]> (vault st)) st)
    end.

(** [s3_client.put_object(Bucket, Key, Body, ...)] *)
Definition put_object (key : string) (body : Body) : M Store unit :=
  fun st =>
    let st := called (PutObject key) st in
    match put_err st key with
    | Some e => (Raise e, st)
    | None => (Ok tt, set_s3 (<[key := body]> (s3 st)) st)
    end.

(** [s3_client.delete_object(Bucket, Key)] *)
Definition delete_object (key : string) : M Store unit :=
  fun st =>
    let st := called (DeleteObject key) st in
    match delete_err st key with
    | Some e => (Raise e, st)
    | None => (Ok tt, set_s3 (delete key (s3 st)) st)
    end.

Definition metadata_key_of (backup_key : string) : string :=
  "archived/" +:+ backup_key +:+ ".metadata.json".

(** [backup_info['size']] *)
Definition size_of (backup_info : BackupInfo) : M Store JVal :=
  match b_size backup_info with
  | Some v => ret v
  | None => raise (Exn KeyError "'size'")
  end.

Definition archived_outcome (backup_info : BackupInfo) (archive_id : string)
  : gmap string JVal :=
  {[ "repository" := JStr (default "unknown" (b_repository_name backup_info));
     "backup_key" := JStr (b_key backup_info);
     "backup_filename" := JStr (default EmptyString (b_backup_filename backup_info));
     "archive_id" := JStr archive_id;
     "size_bytes" := default (JInt 0) (b_size backup_info);
     "age_days" := default (JInt 0) (b_age_days backup_info);
     "success" := JBool true ]}.

Definition failed_outcome (backup_info : BackupInfo) (e : exn) : gmap string JVal :=
  {[ "repository" := JStr (default "unknown" (b_repository_name backup_info));
     "backup_key" := JStr (b_key backup_info);
     "backup_filename" := JStr (default EmptyString (b_backup_filename backup_info));
     "success" := JBool false;
     "error" := JStr (exn_str e) ]}.

(** [archive_single_backup]; the bucket of the call is the bucket
    [s3] stands for. *)
Definition archive_single_backup (bucket glacier_vault : string)
    (backup_info : BackupInfo) : M Store (gmap string JVal) :=
  let backup_key := b_key backup_info in
  try_except
    (temp_file <- download_fileobj backup_key ;;
     archive_id <- upload_archive glacier_vault
                     ("Archived backup: " +:+ backup_key) temp_file ;;
     t <- now ;;
     size <- size_of backup_info ;;
     let metadata :=
       {| original_key := backup_key; archive_id := archive_id;
          archived_date := t; original_size := size |} in
     put_object (metadata_key_of backup_key) (Metadata metadata) ;;
     delete_object backup_key ;;
     ret (archived_outcome backup_info archive_id))
    (fun e => ret (failed_outcome backup_info e)).

(** *** The same function, one store call at a time

    The process can stop between any two calls (the run time of the
    function is bounded from outside).  [step] runs the function up to
    and including its next call to a store; [run n] makes at most [n]
    steps, so that [run n] for a small [n] is the state a stop leaves
    behind. *)
Inductive Pc : Type :=
  | AtDownload
  | AtUpload (temp_file : Body)
  | AtPersist (archive_id : string)
  | AtDelete (archive_id : string)
  | Finished (outcome : gmap string JVal).

Definition step (glacier_vault : string) (backup_info : BackupInfo) (pc : Pc)
  : Store -> Pc * Store :=
  let backup_key := b_key backup_info in
  fun st =>
    match pc with
    | AtDownload =>
        match download_fileobj backup_key st with
        | (Ok temp_file, st') => (AtUpload temp_file, st')
        | (Raise e, st') => (Finished (failed_outcome backup_info e), st')
        end
    | AtUpload temp_file =>
        match upload_archive glacier_vault
                ("Archived backup: " +:+ backup_key) temp_file st with
        | (Ok archive_id, st') => (AtPersist archive_id, st')
        | (Raise e, st') => (Finished (failed_outcome backup_info e), st')
        end
    | AtPersist archive_id =>
        match (t <- now ;;
               size <- size_of backup_info ;;
               put_object (metadata_key_of backup_key)
                 (Metadata {| original_key := backup_key; archive_id := archive_id;
                              archived_date := t; original_size := size |})) st with
        | (Ok _, st') => (AtDelete archive_id, st')
        | (Raise e, st') => (Finished (failed_outcome backup_info e), st')
        end
    | AtDelete archive_id =>
        match delete_object backup_key st with
        | (Ok _, st') => (Finished (archived_outcome backup_info archive_id), st')
        | (Raise e, st') => (Finished (failed_outcome backup_info e), st')
        end
    | Finished o => (Finished o, st)
    end.

Fixpoint run (n : nat) (glacier_vault : string) (backup_info : BackupInfo)
    (pc : Pc) (st : Store) : Pc * Store :=
  match n with
  | O => (pc, st)
  | S n' =>
      let '(pc', st') := step glacier_vault backup_info pc st in
      run n' glacier_vault backup_info pc' st'
  end.

(** The four calls of a migration, in the order of the source. *)
Definition planned_calls (glacier_vault backup_key : string) : list Call :=
  [ Download backup_key;
    UploadArchive glacier_vault ("Archived backup: " +:+ backup_key);
    PutObject (metadata_key_of backup_key);
    DeleteObject backup_key ].

(** The archive record of the backup is in the bucket: it carries
    the key and the size of the backup and the identifier of an
    archive of the vault that holds [body]. *)
Definition recorded (body : Body) (backup_info : BackupInfo) (st : Store) : Prop :=
  exists r, s3 st !! metadata_key_of (b_key backup_info) = Some (Metadata r)
            /\ original_key r = b_key backup_info
            /\ b_size backup_info = Some (original_size r)
            /\ vault st !! archive_id r = Some body.

(** At least one copy of the backup can be addressed: the hot object
    is there with its content, or its archive is [recorded]. *)
Definition addressable (body : Body) (backup_info : BackupInfo) (st : Store)
  : Prop :=
  s3 st !! b_key backup_info = Some body \/ recorded body backup_info st.

(** What holds between two calls of a migration that started in
    [st0] with [body] under the key, by the place [pc] reached:
    the hot object is still there until the delete; the archive is in
    the vault before the record is written; the record is in the
    bucket before the delete; and the calls made so far are the first
    so many of [planned_calls]. *)
Definition inv (glacier_vault : string) (backup_info : BackupInfo) (body : Body)
    (st0 : Store) (pc : Pc) (st : Store) : Prop :=
  let k := b_key backup_info in
  let plan := planned_calls glacier_vault k in
  match pc with
  | AtDownload => s3 st !! k = Some body /\ calls st = calls st0
  | AtUpload temp_file =>
      s3 st !! k = Some body /\ temp_file = body
      /\ calls st = calls st0 ++ take 1 plan
  | AtPersist id =>
      s3 st !! k = Some body /\ vault st !! id = Some body
      /\ calls st = calls st0 ++ take 2 plan
  | AtDelete id =>
      s3 st !! k = Some body /\ recorded body backup_info st
      /\ calls st = calls st0 ++ take 3 plan
  | Finished _ =>
      addressable body backup_info st
      /\ exists n, calls st = calls st0 ++ take n plan
                   /\ ((4 <= n)%nat -> recorded body backup_info st)
  end.

End Archival.

(** ** The calendar of [datetime] *)

Module Calendar.

Definition is_leap (y : Z) : bool :=
  (y mod 4 =? 0) && (negb (y mod 100 =? 0) || (y mod 400 =? 0)).

Definition days_in_month (y m : Z) : Z :=
  if m =? 2 then (if is_leap y then 29 else 28)
  else if (m =? 4) || (m =? 6) || (m =? 9) || (m =? 11) then 30
  else 31.

(** The days before the first of January of year [y], counted from
    the first of January of year 1. *)
Definition days_before_year (y : Z) : Z :=
  let y1 := y - 1 in y1 * 365 + y1 / 4 - y1 / 100 + y1 / 400.

(** The days of year [y] before the first of month [m]. *)
Definition days_before_month (y m : Z) : Z :=
  fold_right Z.add 0
    (map (fun k => days_in_month y (Z.of_nat k)) (seq 1 (Z.to_nat (m - 1)))).

(** [date(y, m, d).toordinal()] *)
Definition ordinal (y m d : Z) : Z :=
  days_before_year y + days_before_month y m + d.

(** A naive [datetime] as the number of microseconds since
    0001-01-01T00:00:00: comparison, subtraction and the addition of
    a [timedelta] are those of these numbers. *)
Definition moment (y m d H M S us : Z) : Z :=
  ((ordinal y m d - 1) * 86400 + H * 3600 + M * 60 + S) * 1000000 + us.

Definition day_us : Z := 86400 * 1000000.

(** [datetime.max] *)
Definition max_moment : Z := moment 9999 12 31 23 59 59 999999.

(** The dates [datetime] accepts. *)
Definition valid_date (y m d : Z) : bool :=
  (1 <=? y) && (y <=? 9999) && (1 <=? m) && (m <=? 12)
  && (1 <=? d) && (d <=? days_in_month y m).

(** The value of a text of decimal digits. *)
Fixpoint digits_from (acc : Z) (s : string) : option Z :=
  match s with
  | EmptyString => Some acc
  | String c s' =>
      if Py.is_digit c
      then digits_from (acc * 10 + Z.of_N (N_of_ascii c - 48)) s'
      else None
  end.

Definition digits (s : string) : option Z :=
  match s with
  | EmptyString => None
  | _ => digits_from 0 s
  end.

(** What the directive [%Y] accepts: four digits. *)
Definition field_Y (s : string) : option Z :=
  if (String.length s =? 4)%nat then digits s else None.

(** What [%m], [%H] and [%M] accept: one or two digits in the range
    of the directive. *)
Definition field (lo hi : Z) (s : string) : option Z :=
  if (String.length s <=? 2)%nat then
    match digits s with
    | Some n => if (lo <=? n) && (n <=? hi) then Some n else None
    | None => None
    end
  else None.

(** [%d] accepts a space and a digit as well. *)
Definition field_d (s : string) : option Z :=
  match s with
  | String " " (String c EmptyString) => field 1 9 (String c EmptyString)
  | _ => field 1 31 s
  end.

(** [datetime.strptime(s, '%Y-%m-%d-%H-%M')] on ASCII text: the
    moment, or [None] where it raises [ValueError]. *)
Definition strptime_YmdHM (s : string) : option Z :=
  match Py.split "-" s with
  | [sy; sm; sd; sH; sM] =>
      y ← field_Y sy; m ← field 1 12 sm; d ← field_d sd;
      H ← field 0 23 sH; M ← field 0 59 sM;
      if valid_date y m d then Some (moment y m d H M 0 0) else None
  | _ => None
  end.

(** [datetime.strptime(s, '%Y-%m-%d')] *)
Definition strptime_Ymd (s : string) : option Z :=
  match Py.split "-" s with
  | [sy; sm; sd] =>
      y ← field_Y sy; m ← field 1 12 sm; d ← field_d sd;
      if valid_date y m d then Some (moment y m d 0 0 0 0) else None
  | _ => None
  end.

End Calendar.

(** ** The archival handler ([archival_handler.py]) *)

Module Archiver.

(** An entry of a page of [list_objects_v2]. *)
Record Obj : Type := {
  Key : string;
  Size : Z;
  LastModified : Z }.          (* the moment, in UTC *)

(** An element of the list [list_backups_to_archive] returns. *)
Record Candidate : Type := {
  c_key : string;
  c_repository_name : string;
  c_backup_filename : string;
  c_size : Z;
  c_date : Z;                  (* the moment [isoformat()] renders *)
  c_last_modified : Z;
  c_age_days : Z }.

(** The value of ["backup"] in an event. *)
Inductive BackupArg : Type :=
  | NoBackup                   (* missing, [None] or an empty dict *)
  | BackupWithoutKey           (* a dict that has no ["key"] *)
  | BackupGiven (backup_info : Archival.BackupInfo).

Record Event : Type := {
  ev_retention_days_override : option JVal;
  ev_action : option JVal;
  ev_backup : BackupArg }.

(** What the handler returns. *)
Inductive Reply : Type :=
  | Backups (backups : list Candidate)          (* [{'backups': [...]}] *)
  | Outcome (outcome : gmap string JVal).

Record World : Type := {
  environ : gmap string string;
  pages : list (result (list Obj));   (* the pages of the listing under
                                         [nightly/]; a request can fail *)
  clock : nat -> Z;                   (* successive [datetime.now()] *)
  ticks : nat;
  store : Archival.Store }.

Definition set_ticks (n : nat) (w : World) : World :=
  {| environ := environ w; pages := pages w; clock := clock w; ticks := n;
     store := store w |}.

Definition set_store (st : Archival.Store) (w : World) : World :=
  {| environ := environ w; pages := pages w; clock := clock w; ticks := ticks w;
     store := st |}.

Local Open Scope py_scope.

Definition now : M World Z :=
  fun w => (Ok (clock w (ticks w)), set_ticks (S (ticks w)) w).

Definition environ_get (k : string) : M World string :=
  fun w =>
    match environ w !! k with
    | Some v => (Ok v, w)
    | None => (Raise (Exn KeyError (Py.repr_str k)), w)
    end.

(** A call that works on the two stores. *)
Definition on_store {A : Type} (c : M Archival.Store A) : M World A :=
  fun w => let '(r, st) := c (store w) in (r, set_store st w).

(** [s.endswith(suffix)] *)
Definition endswith (suffix s : string) : bool :=
  Py.startswith (String.rev suffix) (String.rev s).

(** The [try] that reads the date of a backup off its file name; the
    [except ValueError] clause falls back on [LastModified]. *)
Definition backup_date_of (backup_filename : string) (last_modified : Z) : Z :=
  let filename_without_ext := Py.replace ".tar.gz" EmptyString backup_filename in
  let parsed :=
    if (16 <=? String.length filename_without_ext)%nat
    then Calendar.strptime_YmdHM (String.substring 0 16 filename_without_ext)
    else Calendar.strptime_Ymd (String.substring 0 10 filename_without_ext) in
  default last_modified parsed.

(** A [for] loop over a list, threading the variables it updates. *)
Fixpoint for_each {A S : Type} (l : list A) (acc : S)
    (body : S -> A -> M World S) : M World S :=
  match l with
  | [] => ret acc
  | x :: l' => acc' <- body acc x ;; for_each l' acc' body
  end.

(** The body of the inner loop, for one object of a page. *)
Definition consider (cutoff_date : Z) (backups_to_archive : list Candidate)
    (obj : Obj) : M World (list Candidate) :=
  if endswith ".tar.gz" (Key obj) then
    match Py.split "/" (Key obj) with
    | _ :: repository_name :: backup_filename :: _ =>
        let backup_date := backup_date_of backup_filename (LastModified obj) in
        if backup_date <? cutoff_date then
          t <- now ;;
          _ <- now ;;
          ret (backups_to_archive ++
                 [ {| c_key := Key obj;
                      c_repository_name := repository_name;
                      c_backup_filename := backup_filename;
                      c_size := Size obj;
                      c_date := backup_date;
                      c_last_modified := LastModified obj;
                      c_age_days := (t - backup_date) / Calendar.day_us |} ])
        else ret backups_to_archive
    | _ => ret backups_to_archive
    end
  else ret backups_to_archive.

(** The outer loop: the pages come one request at a time, and what
    a request raises ends the loop in the [except] clause, which
    keeps what was found so far. *)
Fixpoint over_pages (cutoff_date : Z) (l : list (result (list Obj)))
    (backups_to_archive : list Candidate) : M World (list Candidate) :=
  match l with
  | [] => ret backups_to_archive
  | Raise e :: _ => ret backups_to_archive
  | Ok page :: l' =>
      found <- for_each page backups_to_archive (consider cutoff_date) ;;
      over_pages cutoff_date l' found
  end.

(** The objects of the pages that arrive before a request fails. *)
Fixpoint arrived (l : list (result (list Obj))) : list Obj :=
  match l with
  | Ok page :: l' => page ++ arrived l'
  | _ => []
  end.

(** The three tests the inner loop makes on an object. *)
Definition due (cutoff_date : Z) (obj : Obj) : bool :=
  endswith ".tar.gz" (Key obj) &&
  match Py.split "/" (Key obj) with
  | _ :: _ :: backup_filename :: _ =>
      backup_date_of backup_filename (LastModified obj) <? cutoff_date
  | _ => false
  end.

(** The entry of the listing a candidate was made from. *)
Definition obj_of (c : Candidate) : Obj :=
  {| Key := c_key c; Size := c_size c; LastModified := c_last_modified c |}.

(** [datetime.now() - timedelta(days=n)], which raises
    [OverflowError] out of the range of either type. *)
Definition days_before_now (n : Z) : M World Z :=
  t <- now ;;
  if 999999999 <? Z.abs n then
    raise (Exn PlainException
             ("days=" +:+ pretty n +:+ "; must have magnitude <= 999999999"))
  else
    let cutoff := t - n * Calendar.day_us in
    if (cutoff <? 0) || (Calendar.max_moment <? cutoff)
    then raise (Exn PlainException "date value out of range")
    else ret cutoff.

(** [list_backups_to_archive] *)
Definition list_backups_to_archive (bucket : string) (retention_days : Z)
  : M World (list Candidate) :=
  cutoff_date <- days_before_now retention_days ;;
  listed <- gets pages ;;
  over_pages cutoff_date listed [].

(** *** [int(x)] *)

Definition is_space (c : ascii) : bool :=
  let n := N_of_ascii c in
  ((9 <=? n) && (n <=? 13) || (28 <=? n) && (n <=? 32))%N.

Fixpoint lstrip (s : string) : string :=
  match s with
  | String c s' => if is_space c then lstrip s' else s
  | EmptyString => EmptyString
  end.

Definition strip (s : string) : string :=
  String.rev (lstrip (String.rev (lstrip s))).

(** Decimal digits with single underscores between them. *)
Fixpoint int_digits (acc : Z) (after_digit : bool) (s : string) : option Z :=
  match s with
  | EmptyString => if after_digit then Some acc else None
  | String c s' =>
      if Py.is_digit c
      then int_digits (acc * 10 + Z.of_N (N_of_ascii c - 48)) true s'
      else if bool_decide (c = "_"%char) && after_digit
      then match s' with
           | String d _ => if Py.is_digit d then int_digits acc false s' else None
           | EmptyString => None
           end
      else None
  end.

(** [int(s)] for a [str] of ASCII text. *)
Definition int_of_str (s : string) : option Z :=
  match strip s with
  | String "-" s' => Z.opp <$> int_digits 0 false s'
  | String "+" s' => int_digits 0 false s'
  | s' => int_digits 0 false s'
  end.

(** [int(v)] *)
Definition py_int (v : JVal) : M World Z :=
  match v with
  | JInt n => ret n
  | JBool b => ret (if b then 1 else 0)
  | JStr s =>
      match int_of_str s with
      | Some n => ret n
      | None =>
          raise (Exn ValueError
                   ("invalid literal for int() with base 10: " +:+ Py.repr_str s))
      end
  | JNull =>
      raise (Exn TypeError
               ("int() argument must be a string, a bytes-like object or a real "
                  +:+ "number, not 'NoneType'"))
  end.

(** [lambda_handler] *)
Definition lambda_handler (event : Event) : M World Reply :=
  try_except
    (s3_bucket <- environ_get "S3_BUCKET_NAME" ;;
     glacier_vault <- environ_get "GLACIER_VAULT_NAME" ;;
     from_environ <- gets (fun w => default "30" (environ w !! "RETENTION_DAYS")) ;;
     retention_days <-
       py_int (default (JStr from_environ) (ev_retention_days_override event)) ;;
     let action := default (JStr "list") (ev_action event) in
     if bool_decide (action = JStr "list") then
       backups_to_archive <- list_backups_to_archive s3_bucket retention_days ;;
       ret (Backups backups_to_archive)
     else if bool_decide (action = JStr "archive") then
       match ev_backup event with
       | NoBackup =>
           raise (Exn ValueError "Backup info must be provided for archive action")
       | BackupWithoutKey => raise (Exn KeyError (Py.repr_str "key"))
       | BackupGiven backup_info =>
           result <- on_store (Archival.archive_single_backup s3_bucket
                                 glacier_vault backup_info) ;;
           ret (Outcome result)
       end
     else
       raise (Exn ValueError ("Unknown action: " +:+ Backup.py_str action)))
    (fun e =>
       ret (Outcome {[ "success" := JBool false; "error" := JStr (exn_str e) ]})).

(** Two states that differ at most in the count of the readings of
    the clock. *)
Definition outside (w w' : World) : Prop :=
  environ w' = environ w /\ pages w' = pages w /\ clock w' = clock w
  /\ store w' = store w.

(** The date of a candidate is before the cutoff, and its age was
    taken at a reading of the clock from [first] on. *)
Definition aged (cutoff_date : Z) (clock0 : nat -> Z) (first : nat)
    (c : Candidate) : Prop :=
  c_date c < cutoff_date
  /\ exists i, (first <= i)%nat
               /\ c_age_days c = (clock0 i - c_date c) / Calendar.day_us.

(** *** [cleanup_old_backups] *)

Definition is_value_error (e : exn) : bool :=
  match exn_kind_of e with ValueError => true | _ => false end.

(** The body of the inner loop of [cleanup_old_backups]: the second
    part of the key is read as a date, and [except ValueError]
    goes on to the next object. *)
Definition sweep (cutoff_date : Z) (deleted_objects : list string) (obj : Obj)
  : M World (list string) :=
  match Py.split "/" (Key obj) with
  | _ :: date_part :: _ =>
      match Calendar.strptime_Ymd date_part with
      | Some backup_date =>
          if backup_date <? cutoff_date then
            try_except_only is_value_error
              (on_store (Archival.delete_object (Key obj)) ;;
               ret (deleted_objects ++ [Key obj]))
              (fun _ => ret deleted_objects)
          else ret deleted_objects
      | None => ret deleted_objects
      end
  | _ => ret deleted_objects
  end.

(** The outer loop; here what a request raises leaves the loops. *)
Fixpoint sweep_pages (cutoff_date : Z) (l : list (result (list Obj)))
    (deleted_objects : list string) : M World (list string) :=
  match l with
  | [] => ret deleted_objects
  | Raise e :: _ => raise e
  | Ok page :: l' =>
      deleted <- for_each page deleted_objects (sweep cutoff_date) ;;
      sweep_pages cutoff_date l' deleted
  end.

Definition cleanup_old_backups (bucket : string) (retention_days : Z)
  : M World (gmap string JVal) :=
  cutoff_date <- days_before_now retention_days ;;
  try_except
    (listed <- gets pages ;;
     deleted_objects <- sweep_pages cutoff_date listed [] ;;
     ret ({[ "status" := JStr "completed";
             "deleted_count" := JInt (Z.of_nat (length deleted_objects));
             "retention_days" := JInt retention_days ]} : gmap string JVal))
    (fun e =>
       ret {[ "status" := JStr "error"; "error" := JStr (exn_str e) ]}).

(** What happened between two states spared the key [k]: no call
    deleted it, and what is under it is what was there. *)
Definition spared (k : string) (w w' : World) : Prop :=
  Archival.s3 (store w') !! k = Archival.s3 (store w) !! k
  /\ exists l, Archival.calls (store w') = Archival.calls (store w) ++ l
               /\ Archival.DeleteObject k ∉ l.

End Archiver.

(** ** Retrieval state machine ([api_handler.py], [audit_logger.py]) *)

Module Retrieval.

(** A scalar stored in a table or returned in a response.  [STime t]
    is the ISO-8601 text of the instant [t] (seconds). *)
Inductive Scalar : Type :=
  | SStr (s : string)
  | SInt (n : Z)
  | SBool (b : bool)
  | STime (t : Z).

Inductive Val : Type :=
  | VScalar (x : Scalar)
  | VDict (d : gmap string Scalar).

Global Instance Scalar_eq_dec : EqDecision Scalar.
Proof. solve_decision. Defined.

Global Instance Val_eq_dec : EqDecision Val.
Proof. solve_decision. Defined.

Definition scalar_truthy (x : Scalar) : bool :=
  match x with
  | SStr s => negb (bool_decide (s = EmptyString))
  | SInt n => negb (n =? 0)
  | SBool b => b
  | STime _ => true
  end.

(** The fields of a row of the repository-history table that the
    state machine reads. *)
Record BackupItem : Type := {
  storage_class : option string;
  s3_key : option string;
  archive_id : option string }.

Inductive S3Call : Type :=
  | HeadObject (key : string)
  | RestoreObject (key : string) (days : Z) (tier : string)
  | Presign (key disposition : string) (expires_in : Z).

Record RestoreEvent : Type := {
  ev_repository : string;
  ev_s3_key : string;
  ev_tier : string;
  ev_download_id : string }.

Record Svc : Type := {
  environ : gmap string string;
  history_table : gmap (string * string) BackupItem;
  history_get_err : option exn;
  download_table : gmap string (gmap string Val);
  download_get_err : option exn;
  download_put_err : option exn;
  events_put_err : option exn;
  events : list RestoreEvent;
  head_object : string -> result (option string);   (* the Restore field *)
  restore_err : string -> string -> option exn;     (* by key and tier *)
  presign : string -> string -> nat -> result string;
  uuid : nat -> string;                  (* uuid4(), by the reading of the
                                            clock that follows it *)
  clock : nat -> Z;
  ticks : nat;
  s3_calls : list S3Call }.

Definition set_download_table (m : gmap string (gmap string Val)) (s : Svc) : Svc :=
  {| environ := environ s; history_table := history_table s;
     history_get_err := history_get_err s; download_table := m;
     download_get_err := download_get_err s; download_put_err := download_put_err s;
     events_put_err := events_put_err s; events := events s;
     head_object := head_object s; restore_err := restore_err s;
     presign := presign s; uuid := uuid s; clock := clock s; ticks := ticks s;
     s3_calls := s3_calls s |}.

Definition set_events (l : list RestoreEvent) (s : Svc) : Svc :=
  {| environ := environ s; history_table := history_table s;
     history_get_err := history_get_err s; download_table := download_table s;
     download_get_err := download_get_err s; download_put_err := download_put_err s;
     events_put_err := events_put_err s; events := l;
     head_object := head_object s; restore_err := restore_err s;
     presign := presign s; uuid := uuid s; clock := clock s; ticks := ticks s;
     s3_calls := s3_calls s |}.

Definition set_ticks (n : nat) (s : Svc) : Svc :=
  {| environ := environ s; history_table := history_table s;
     history_get_err := history_get_err s; download_table := download_table s;
     download_get_err := download_get_err s; download_put_err := download_put_err s;
     events_put_err := events_put_err s; events := events s;
     head_object := head_object s; restore_err := restore_err s;
     presign := presign s; uuid := uuid s; clock := clock s; ticks := n;
     s3_calls := s3_calls s |}.

Definition set_s3_calls (l : list S3Call) (s : Svc) : Svc :=
  {| environ := environ s; history_table := history_table s;
     history_get_err := history_get_err s; download_table := download_table s;
     download_get_err := download_get_err s; download_put_err := download_put_err s;
     events_put_err := events_put_err s; events := events s;
     head_object := head_object s; restore_err := restore_err s;
     presign := presign s; uuid := uuid s; clock := clock s; ticks := ticks s;
     s3_calls := l |}.

Local Open Scope py_scope.

(** [datetime.now(timezone.utc)] *)
Definition now : M Svc Z :=
  fun s => (Ok (clock s (ticks s)), set_ticks (S (ticks s)) s).

Definition environ_get (k : string) : M Svc string :=
  fun s =>
    match environ s !! k with
    | Some v => (Ok v, s)
    | None => (Raise (Exn KeyError (Py.repr_str k)), s)
    end.

(** *** [audit_logger] *)

(** [create_download_operation]: the new id, or [EmptyString] when the table
    refuses the row. *)
Definition create_download_operation
    (repository_name backup_version user_id download_type source_location : string)
  : M Svc string :=
  download_id <- gets (fun s => uuid s (ticks s)) ;;
  timestamp <- now ;;
  t <- now ;;
  let item : gmap string Val :=
    {[ "download_id" := VScalar (SStr download_id);
       "repository_name" := VScalar (SStr repository_name);
       "backup_version" := VScalar (SStr backup_version);
       "user_id" := VScalar (SStr user_id);
       "download_type" := VScalar (SStr download_type);
       "source_location" := VScalar (SStr source_location);
       "status" := VScalar (SStr "requested");
       "created_at" := VScalar (STime timestamp);
       "expires_at" := VScalar (SInt (t + 30 * 24 * 60 * 60)) ]} in
  fun s =>
    match download_put_err s with
    | None =>
        (Ok download_id,
         set_download_table (<[download_id := item]> (download_table s)) s)
    | Some e => if is_client_error e then (Ok EmptyString, s) else (Raise e, s)
    end.

(** The row after [SET #status = :status, updated_at = :timestamp]
    and the optional [details = :details] and [#error = :error]. *)
Definition updated_item (status : string) (t : Z)
    (details : option (gmap string Scalar)) (error : option string)
    (item : gmap string Val) : gmap string Val :=
  let item := <["updated_at" := VScalar (STime t)]>
                (<["status" := VScalar (SStr status)]> item) in
  let item := match details with
              | Some d => if bool_decide (d = ∅) then item
                          else <["details" := VDict d]> item
              | None => item
              end in
  match error with
  | Some (String c e) => <["error" := VScalar (SStr (String c e))]> item
  | _ => item
  end.

(** [update_download_status]; [update_item] creates the row when it
    is not there. *)
Definition update_download_status (download_id status : string)
    (details : option (gmap string Scalar)) (error : option string) : M Svc unit :=
  t <- now ;;
  fun s =>
    match download_put_err s with
    | None =>
        (Ok tt,
         set_download_table
           (<[download_id :=
                updated_item status t details error
                  (default {[ "download_id" := VScalar (SStr download_id) ]}
                     (download_table s !! download_id))]> (download_table s)) s)
    | Some e => if is_client_error e then (Ok tt, s) else (Raise e, s)
    end.

(** [log_backup_event(..., event_type='glacier_restore_initiated', ...)] *)
Definition log_restore_event (repository_name s3_key tier download_id : string)
  : M Svc unit :=
  _ <- now ;;
  fun s =>
    match events_put_err s with
    | None =>
        (Ok tt,
         set_events
           (events s ++ [ {| ev_repository := repository_name; ev_s3_key := s3_key;
                             ev_tier := tier; ev_download_id := download_id |} ]) s)
    | Some e => if is_client_error e then (Ok tt, s) else (Raise e, s)
    end.

(** [table.get_item(Key=...)] on the two tables: the row, if any. *)
Definition get_backup_item (repository_name backup_version : string)
  : M Svc (option BackupItem) :=
  fun s =>
    match history_get_err s with
    | Some e => (Raise e, s)
    | None => (Ok (history_table s !! (repository_name, backup_version)), s)
    end.

Definition get_download_item (download_id : string)
  : M Svc (option (gmap string Val)) :=
  fun s =>
    match download_get_err s with
    | Some e => (Raise e, s)
    | None => (Ok (download_table s !! download_id), s)
    end.

(** *** Calls to S3 *)

(** [e.response['Error']['Code'] == 'NotFound'] on a [ClientError]. *)
Definition is_not_found (e : exn) : bool :=
  match exn_kind_of e with
  | ClientError code => bool_decide (code = "NotFound")
  | _ => false
  end.

Definition s3_head_object (key : string) : M Svc (option string) :=
  fun s => (head_object s key, set_s3_calls (s3_calls s ++ [HeadObject key]) s).

Definition s3_restore_object (key : string) (days : Z) (tier : string) : M Svc unit :=
  fun s =>
    let s' := set_s3_calls (s3_calls s ++ [RestoreObject key days tier]) s in
    match restore_err s key tier with
    | Some e => (Raise e, s')
    | None => (Ok tt, s')
    end.

Definition s3_generate_presigned_url (key disposition : string) (expires_in : Z)
  : M Svc string :=
  fun s =>
    (presign s key disposition (List.length (s3_calls s)),
     set_s3_calls (s3_calls s ++ [Presign key disposition expires_in]) s).

(** *** [api_handler] *)

Record Response : Type := { statusCode : Z; body : gmap string Val }.

Definition error_response (code : Z) (msg : string) : Response :=
  {| statusCode := code; body := {[ "error" := VScalar (SStr msg) ]} |}.

(** The file name [handle_s3_download] puts in the content
    disposition. *)
Definition download_filename (s3_key : string) : string :=
  if Py.str_in "/" s3_key then
    match Py.split "/" s3_key with
    | p0 :: p1 :: _ =>
        (if bool_decide (p0 = "nightly") || bool_decide (p0 = "final")
         then p1 else p0) +:+ ".tar.gz"
    | parts => Py.last_of parts
    end
  else s3_key.

Definition disposition (filename : string) : string :=
  "attachment; filename=" +:+ Py.quote +:+ filename +:+ Py.quote.

(** The [except Exception as e] clause of the two download handlers:
    the operation is marked failed with [str(e)] and [e] is raised
    again. *)
Definition mark_failed {A : Type} (download_id : string) (e : exn) : M Svc A :=
  update_download_status download_id "failed" None (Some (exn_str e)) ;;
  raise e.

(** What [handle_s3_download] runs inside its [try]. *)
Definition handle_s3_download_body (download_id s3_key : string)
  : M Svc (gmap string Scalar) :=
  bucket_name <- environ_get "S3_BUCKET_NAME" ;;
  let filename := download_filename s3_key in
  download_url <- s3_generate_presigned_url s3_key (disposition filename) 86400 ;;
  t <- now ;;
  update_download_status download_id "completed"
    (Some {[ "download_url" := SStr download_url;
             "expires_at" := STime (t + 24 * 3600) ]}) None ;;
  ret ({[ "status" := SStr "completed"; "download_url" := SStr download_url;
          "expires_in_hours" := SInt 24 ]} : gmap string Scalar).

Definition handle_s3_download (download_id s3_key : string)
  : M Svc (gmap string Scalar) :=
  try_except (handle_s3_download_body download_id s3_key) (mark_failed download_id).

(** The two texts looked for in the [Restore] field of an object. *)
Definition ongoing_true : string :=
  "ongoing-request=" +:+ Py.quote +:+ "true" +:+ Py.quote.

Definition ongoing_false : string :=
  "ongoing-request=" +:+ Py.quote +:+ "false" +:+ Py.quote.

(** A local variable of a frame: a dict of strings, or anything else. *)
Inductive Local : Type :=
  | LDict (d : gmap string string)
  | LOther.

Definition lookup_local (name : string) (frame : list (string * Local))
  : option Local :=
  snd <$> List.find (fun kv => bool_decide (kv.1 = name)) frame.

(** [completion_times.get(tier, '3-5 hours')] *)
Definition completion_time (tier : string) : string :=
  if bool_decide (tier = "Expedited") then "1-5 minutes"
  else if bool_decide (tier = "Standard") then "3-5 hours"
  else if bool_decide (tier = "Bulk") then "5-12 hours"
  else "3-5 hours".

Definition known_tier (tier : string) : bool :=
  bool_decide (tier = "Expedited") || bool_decide (tier = "Standard")
  || bool_decide (tier = "Bulk").

(** The names bound in the frame of [handle_glacier_download] when it
    reaches the line that chooses the tier. *)
Definition glacier_frame (restore_status : option string)
  : list (string * Local) :=
  [ ("download_id", LOther); ("archive_id", LOther); ("repository_name", LOther);
    ("s3_client", LOther); ("bucket_name", LOther); ("s3_key", LOther);
    ("response", LOther) ]
  ++ match restore_status with Some _ => [("restore_status", LOther)] | None => [] end
  ++ [ ("restore_request", LOther) ].

(** What [handle_glacier_download] runs inside its outer [try]. *)
Definition handle_glacier_download_body
    (download_id archive_id repository_name : string)
  : M Svc (gmap string Scalar) :=
    (bucket_name <- environ_get "S3_BUCKET_NAME" ;;
     let s3_key := archive_id in
     try_except_only is_client_error
       (response <- s3_head_object s3_key ;;
        let restore_pending :=
          match response with
          | Some restore_status =>
              Py.str_in ongoing_true restore_status
          | None => false
          end in
        let restored :=
          match response with
          | Some restore_status =>
              Py.str_in ongoing_false restore_status
          | None => false
          end in
        if restore_pending then
          update_download_status download_id "in_progress"
            (Some {[ "restore_status" := SStr "already_in_progress";
                     "estimated_completion" := SStr "3-5 hours" ]}) None ;;
          ret ({[ "status" := SStr "in_progress";
                  "restore_status" := SStr "already_in_progress";
                  "estimated_completion" := SStr "3-5 hours" ]} : gmap string Scalar)
        else if restored then handle_s3_download download_id s3_key
        else
          retrieval_tier <-
            match lookup_local "request_body" (glacier_frame response) with
            | Some (LDict request_body) =>
                ret (default "Standard" (request_body !! "retrieval_tier"))
            | Some LOther =>
                raise (Exn PlainException "object has no attribute 'get'")
            | None => ret "Standard"
            end ;;
          let tier := if known_tier retrieval_tier then retrieval_tier else "Standard" in
          s3_restore_object s3_key 7 tier ;;
          let estimated_time := completion_time retrieval_tier in
          update_download_status download_id "in_progress"
            (Some {[ "s3_key" := SStr s3_key; "restore_tier" := SStr retrieval_tier;
                     "estimated_completion" := SStr estimated_time;
                     "restore_days" := SInt 7 ]}) None ;;
          log_restore_event repository_name s3_key retrieval_tier download_id ;;
          ret ({[ "status" := SStr "in_progress";
                  "restore_tier" := SStr retrieval_tier;
                  "estimated_completion" := SStr estimated_time ]} : gmap string Scalar))
       (fun e =>
          if is_not_found e
          then raise (Exn PlainException ("Object not found: " +:+ s3_key))
          else raise e)).

Definition handle_glacier_download (download_id archive_id repository_name : string)
  : M Svc (gmap string Scalar) :=
  try_except (handle_glacier_download_body download_id archive_id repository_name)
    (mark_failed download_id).

Definition ok_response (b : gmap string Val) : Response :=
  {| statusCode := 200; body := b |}.

(** [initiate_download]; the fields of the request are strings. *)
Definition initiate_download (request_body : gmap string string) : M Svc Response :=
  try_except
    (let repository_name := default EmptyString (request_body !! "repository_name") in
     let backup_version := default EmptyString (request_body !! "backup_version") in
     let user_id := default "unknown" (request_body !! "user_id") in
     if bool_decide (repository_name = EmptyString) || bool_decide (backup_version = EmptyString) then
       ret (error_response 400 "repository_name and backup_version are required")
     else
       response <- get_backup_item repository_name backup_version ;;
       match response with
       | None => ret (error_response 404 "Backup not found")
       | Some backup_item =>
           let storage := default "s3" (storage_class backup_item) in
           let key := default EmptyString (s3_key backup_item) in
           let download_type :=
             if bool_decide (storage = "s3") then "s3_direct" else "glacier_retrieval" in
           let source_location :=
             if bool_decide (storage = "s3") then key
             else default key (archive_id backup_item) in
           download_id <- create_download_operation repository_name backup_version
                            user_id download_type source_location ;;
           if bool_decide (download_id = EmptyString) then
             ret (error_response 500 "Failed to create download operation")
           else
             result <- (if bool_decide (download_type = "s3_direct")
                        then handle_s3_download download_id key
                        else handle_glacier_download download_id source_location
                               repository_name) ;;
             ret (ok_response
                    {[ "download_id" := VScalar (SStr download_id);
                       "download_type" := VScalar (SStr download_type);
                       "status" := VScalar (default (SStr "requested")
                                              (result !! "status"));
                       "details" := VDict result ]})
       end)
    (fun e => ret (error_response 500 (exn_str e))).

Definition failed_status (msg : string) : gmap string Scalar :=
  {[ "status" := SStr "failed"; "error" := SStr msg ]}.

(** [d.get('details', {}).get(k)] *)
Definition details_get (k : string) (item : gmap string Val)
  : M Svc (option Scalar) :=
  match item !! "details" with
  | None => ret None
  | Some (VDict d) => ret (d !! k)
  | Some (VScalar _) => raise (Exn PlainException "object has no attribute 'get'")
  end.

(** A value used as an S3 key has to be a string. *)
Definition as_key (x : Scalar) : M Svc string :=
  match x with
  | SStr s => ret s
  | _ => raise (Exn PlainException "Parameter validation failed: Invalid type for parameter Key")
  end.

(** What [check_glacier_job_status] runs inside its [try]; [None] is
    the [None] a Python function returns when it falls off its end. *)
Definition check_glacier_job_status_body (job_id download_id : string)
  : M Svc (option (gmap string Scalar)) :=
    (response <- get_download_item download_id ;;
     match response with
     | None => ret (Some (failed_status "Download operation not found"))
     | Some download_item =>
         from_details <- details_get "s3_key" download_item ;;
         let from_details :=
           match from_details with
           | Some x => if scalar_truthy x then Some x else None
           | None => None
           end in
         let chosen :=
           match from_details with
           | Some x => Some (VScalar x)
           | None => download_item !! "source_location"
           end in
         match chosen with
         | None => ret (Some (failed_status "S3 key not found in download details"))
         | Some (VDict d) =>
             if bool_decide (d = ∅)
             then ret (Some (failed_status "S3 key not found in download details"))
             else raise (Exn PlainException
                           "Parameter validation failed: Invalid type for parameter Key")
         | Some (VScalar x) =>
             if negb (scalar_truthy x)
             then ret (Some (failed_status "S3 key not found in download details"))
             else
               bucket_name <- environ_get "S3_BUCKET_NAME" ;;
               s3_key <- as_key x ;;
               try_except_only is_client_error
                 (response <- s3_head_object s3_key ;;
                  match response with
                  | Some restore_status =>
                      if Py.str_in ongoing_false restore_status then
                        download_url <-
                          s3_generate_presigned_url s3_key
                            (disposition (Py.last_of (Py.split "/" s3_key))) 86400 ;;
                        t <- now ;;
                        t' <- now ;;
                        update_download_status download_id "completed"
                          (Some {[ "restore_completed" := SBool true;
                                   "completed_at" := STime t;
                                   "download_url" := SStr download_url;
                                   "expires_at" := STime (t' + 24 * 3600) ]}) None ;;
                        ret (Some ({[ "status" := SStr "completed";
                                      "download_url" := SStr download_url;
                                      "expires_in_hours" := SInt 24 ]}
                                     : gmap string Scalar))
                      else if Py.str_in ongoing_true restore_status then
                        ret (Some ({[ "status" := SStr "in_progress" ]}
                                     : gmap string Scalar))
                      else ret None
                  | None => ret (Some (failed_status "No restore information found"))
                  end)
                 (fun e =>
                    if is_not_found e
                    then ret (Some (failed_status "Object not found"))
                    else raise e)
         end
     end).

(** [check_glacier_job_status]: whatever its body raises is logged
    and answered with status in_progress. *)
Definition check_glacier_job_status (job_id download_id : string)
  : M Svc (option (gmap string Scalar)) :=
  try_except (check_glacier_job_status_body job_id download_id)
    (fun e => ret (Some ({[ "status" := SStr "in_progress" ]} : gmap string Scalar))).

Definition is_str (v : option Val) (s : string) : bool :=
  bool_decide (v = Some (VScalar (SStr s))).

(** [str(x)] of a stored scalar; an instant is shown by its number. *)
Definition scalar_str (x : Scalar) : string :=
  match x with
  | SStr s => s
  | SInt n => pretty n
  | SBool true => "True"
  | SBool false => "False"
  | STime t => pretty t
  end.

(** [download_item.update(updated_status)] *)
Definition update_with (updated_status : option (gmap string Scalar))
    (download_item : gmap string Val) : M Svc (gmap string Val) :=
  match updated_status with
  | Some u => ret ((VScalar <$> u) ∪ download_item)
  | None => raise (Exn TypeError "'NoneType' object is not iterable")
  end.

(** [get_download_status] *)
Definition get_download_status (download_id : string) : M Svc Response :=
  try_except
    (if bool_decide (download_id = EmptyString) then
       ret (error_response 400 "Download ID is required")
     else
       response <- get_download_item download_id ;;
       match response with
       | None => ret (error_response 404 "Download operation not found")
       | Some download_item =>
           download_item <-
             (if is_str (download_item !! "download_type") "glacier_retrieval"
                 && is_str (download_item !! "status") "in_progress"
              then
                glacier_job_id <- details_get "glacier_job_id" download_item ;;
                match glacier_job_id with
                | Some x =>
                    if scalar_truthy x then
                      updated_status <-
                        check_glacier_job_status (scalar_str x) download_id ;;
                      update_with updated_status download_item
                    else ret download_item
                | None => ret download_item
                end
              else ret download_item) ;;
           ret (ok_response download_item)
       end)
    (fun e => ret (error_response 500 (exn_str e))).

(** *** Reading an answer and a stored row *)

Definition response_code (r : result Response) : option Z :=
  match r with
  | Ok response => Some (statusCode response)
  | Raise _ => None
  end.

Definition response_field (r : result Response) (k : string) : option Val :=
  match r with
  | Ok response => body response !! k
  | Raise _ => None
  end.

Definition stored_field (s : Svc) (download_id k : string) : option Val :=
  download_table s !! download_id ≫= (fun item => item !! k).

(** [v[k]] when [v] is a dict. *)
Definition detail (v : option Val) (k : string) : option Scalar :=
  match v with
  | Some (VDict d) => d !! k
  | _ => None
  end.

Definition str (s : string) : option Val := Some (VScalar (SStr s)).

(** *** What no call of the state machine changes *)

(** The answers of the services. *)
Definition services (s : Svc) :=
  (environ s, history_table s, history_get_err s, download_get_err s,
   download_put_err s, events_put_err s, head_object s, restore_err s,
   presign s, uuid s, clock s).

(** A computation that leaves them as they are. *)
Definition steady {A : Type} (c : M Svc A) : Prop :=
  forall s, services (snd (c s)) = services s.

(** A computation that leaves the download table as it is. *)
Definition quiet {A : Type} (c : M Svc A) : Prop :=
  forall s, download_table (snd (c s)) = download_table s.

(** A computation that leaves the download table as it is whenever
    it raises. *)
Definition quiet_on_raise {A : Type} (c : M Svc A) : Prop :=
  forall s e s', c s = (Raise e, s') -> download_table s' = download_table s.

(** A computation that does not raise. *)
Definition total {A : Type} (c : M Svc A) : Prop :=
  forall s, exists a s', c s = (Ok a, s').

(** The error [head_object] raises for a key that has no object: a
    [ClientError] whose code is the HTTP status 404. *)
Definition is_missing_object (e : exn) : bool :=
  match exn_kind_of e with
  | ClientError code => bool_decide (code = "404")
  | _ => false
  end.

End Retrieval.

(** ** Concrete states used in the examples *)

Module Scenario.

Import Backup.

(** The first of July 2025 (UTC), at a given time of day. *)
Definition july_1st (h m s : Z) : Instant :=
  {| civil := DateTime 2025 7 1 h m s;
     epoch := inject_Z (1751328000 + 3600 * h + 60 * m + s) |}.

(** A state in which every service answers; what varies from one
    example to the next is passed in. *)
Definition world (env : gmap string string) (sec : string -> SecretAnswer)
    (clk : nat -> Instant) (stat : string -> nat -> result Statvfs)
    (tr : gmap string (list DirEntry)) (gh : string -> string -> result Z)
    (g : list string -> option Z -> ProcAnswer) : World :=
  {| environ := env; secret := sec; clock := clk; ticks := 0;
     statvfs := stat; stat_calls := 0; tree := tr; makedirs_err := None;
     github := gh; git := g; tar := fun _ => Ok 52428800;
     s3_put := fun _ => None; s3 := ∅; events_put := None; history_put := None;
     audit := []; history := []; effects := [] |}.

Definition env : gmap string string :=
  {[ "S3_BUCKET_NAME" := "acme-backups";
     "GITHUB_TOKEN_SECRET_ARN" := "arn:aws:secretsmanager:token" ]}.

Definition token_ok (arn : string) : SecretAnswer :=
  SecretJsonDict [("token", "ghp_token")].

Definition token_denied (arn : string) : SecretAnswer :=
  SecretDenied
    (Exn (ClientError "AccessDeniedException")
       "An error occurred (AccessDeniedException) when calling the GetSecretValue operation").

(** One reading of the clock per minute, from 22:32:05 on. *)
Definition minutes_from_2232 (n : nat) : Instant :=
  july_1st 22 (32 + Z.of_nat n) 5.

Definition mb (n : Z) : Statvfs := {| f_bavail := n * 256; f_frsize := 4096 |}.

Definition plenty (path : string) (n : nat) : result Statvfs := Ok (mb 8000).

Definition ten_mb (path : string) (n : nat) : result Statvfs := Ok (mb 10).

Definition dir (name : string) (mtime : Z) : DirEntry :=
  {| e_name := name; e_isdir := true; e_mtime := Ok (inject_Z mtime);
     e_size := 4096; e_rmtree := None |}.

(** [/tmp] two and a half hours after a run left its scratch
    directory behind, with a directory of another tool beside it and
    a scratch directory that is ten minutes old. *)
Definition stale_tmp : gmap string (list DirEntry) :=
  {[ "/tmp" := [ dir "demo_1751400000" 1751400000;
                 dir "node_modules" 1751400000;
                 dir "other_1751408525" 1751408525;
                 dir "cache" 1751400000 ] ]}.

Definition api_200 (url token : string) : result Z := Ok 200.

Definition git_ok (argv : list string) (timeout : option Z) : ProcAnswer :=
  Exited 0 EmptyString EmptyString.

(** The disk stays at 10 MB whatever is removed. *)
Definition low_disk : World :=
  world env token_ok minutes_from_2232 ten_mb stale_tmp api_200 git_ok.

(** A healthy state: 8000 MB free, an empty [/tmp], a repository the
    API knows and git can clone. *)
Definition healthy : World :=
  world env token_ok minutes_from_2232 plenty {[ "/tmp" := [] ]} api_200 git_ok.

(** The same with a token the secret store does not hand out. *)
Definition no_token : World :=
  world env token_denied minutes_from_2232 plenty {[ "/tmp" := [] ]} api_200 git_ok.

(** The same with an API that answers with a given status code, and
    with an API that cannot be reached. *)
Definition api_answers (code : Z) : World :=
  world env token_ok minutes_from_2232 plenty {[ "/tmp" := [] ]}
    (fun url token => Ok code) git_ok.

Definition api_unreachable : World :=
  world env token_ok minutes_from_2232 plenty {[ "/tmp" := [] ]}
    (fun url token =>
       Raise (Exn PlainException "HTTPSConnectionPool: Max retries exceeded"))
    git_ok.

Definition demo_info : RepoInfo :=
  {| r_name := "demo"; r_clone_url := "https://github.com/acme/demo.git";
     r_archived := Some (JBool false); r_size := Some (JInt 51200);
     r_updated_at := None; r_private := Some (JBool true) |}.

Definition demo (archived : bool) : Event :=
  {| ev_name := Some "demo";
     ev_clone_url := Some "https://github.com/acme/demo.git";
     ev_archived := Some (JBool archived);
     ev_size := Some (JInt 51200);
     ev_updated_at := Some (JStr "2025-06-30T08:00:00Z");
     ev_private := Some (JBool true) |}.

Definition at_time (h m s : Z) : datetime := civil (july_1st h m s).

(** Two backups of one repository within one minute. *)
Definition first_run : Run :=
  {| handler_time := at_time 22 32 5; upload_time := at_time 22 32 20 |}.

Definition second_run : Run :=
  {| handler_time := at_time 22 32 30; upload_time := at_time 22 32 50 |}.

Definition later_run : Run :=
  {| handler_time := at_time 22 34 0; upload_time := at_time 22 35 10 |}.

(** Two backups around midnight: the second starts on the first of
    July and uploads on the second. *)
Definition evening_run : Run :=
  {| handler_time := at_time 23 40 0; upload_time := at_time 23 50 0 |}.

Definition midnight_run : Run :=
  {| handler_time := at_time 23 55 0;
     upload_time := DateTime 2025 7 2 0 5 0 |}.

End Scenario.

Module ArchivalScenario.

Import Archival.

Definition old_backup : BackupInfo :=
  {| b_key := "nightly/demo/2025-05-01-22-32.tar.gz";
     b_repository_name := Some "demo";
     b_backup_filename := Some "2025-05-01-22-32.tar.gz";
     b_size := Some (JInt 52428800);
     b_age_days := Some (JInt 61) |}.

(** A bucket with the one backup, an empty vault, and stores that
    answer every call. *)
Definition store : Store :=
  {| s3 := {[ "nightly/demo/2025-05-01-22-32.tar.gz" := Blob "tarball" ]};
     vault := ∅;
     download_err := fun _ => None;
     upload_ans := fun _ => Ok "archive-0001";
     put_err := fun _ => None;
     delete_err := fun _ => None;
     clock := fun _ => 1751409125;
     ticks := 0;
     calls := [] |}.

End ArchivalScenario.

Module RetrievalScenario.

Import Retrieval.

Definition key : string := "nightly/demo/2025-05-01-22-32.tar.gz".

(** The history table knows one backup of [demo], in the cold tier. *)
Definition cold_history : gmap (string * string) BackupItem :=
  {[ ("demo", "nightly/2025-05-01-22-32")
       := {| storage_class := Some "glacier"; s3_key := Some key;
             archive_id := None |} ]}.

(** A state of the service with a given download table and a given
    answer of [head_object]; everything else answers. *)
Definition svc (table : gmap string (gmap string Val))
    (head : string -> result (option string)) : Svc :=
  {| environ := {[ "S3_BUCKET_NAME" := "acme-backups" ]};
     history_table := cold_history; history_get_err := None;
     download_table := table; download_get_err := None;
     download_put_err := None; events_put_err := None; events := [];
     head_object := head; restore_err := fun _ _ => None;
     presign := fun k disposition n =>
                  Ok ("https://acme-backups.s3.amazonaws.com/" +:+ k
                        +:+ "?X-Amz-Signature=" +:+ pretty n);
     uuid := fun n => "op-" +:+ pretty n;
     clock := fun n => 1751409125 + Z.of_nat n;
     ticks := 0; s3_calls := [] |}.

(** The object carries no [Restore] field: no restore was asked for. *)
Definition not_restored (k : string) : result (option string) := Ok None.

(** S3 answers [head_object] with an error that is not NotFound. *)
Definition s3_unavailable (k : string) : result (option string) :=
  Raise (Exn (ClientError "ServiceUnavailable")
           "An error occurred (ServiceUnavailable) when calling the HeadObject operation").

(** The object is gone: [head_object] has no error body to read a
    code from and reports the HTTP status as the code. *)
Definition object_missing (k : string) : result (option string) :=
  Raise (Exn (ClientError "404")
           "An error occurred (404) when calling the HeadObject operation: Not Found").

Definition cold : Svc := svc ∅ not_restored.

Definition bulk_request : gmap string string :=
  {[ "repository_name" := "demo"; "backup_version" := "nightly/2025-05-01-22-32";
     "user_id" := "alice"; "retrieval_tier" := "Bulk" ]}.

(** A delayed retrieval in progress, as a row of the download table. *)
Definition in_progress_item : gmap string Val :=
  {[ "download_id" := VScalar (SStr "op-7");
     "repository_name" := VScalar (SStr "demo");
     "backup_version" := VScalar (SStr "nightly/2025-05-01-22-32");
     "user_id" := VScalar (SStr "alice");
     "download_type" := VScalar (SStr "glacier_retrieval");
     "source_location" := VScalar (SStr key);
     "status" := VScalar (SStr "in_progress");
     "details" := VDict {[ "s3_key" := SStr key;
                           "glacier_job_id" := SStr "job-1";
                           "restore_tier" := SStr "Standard";
                           "estimated_completion" := SStr "3-5 hours" ]} ]}.

Definition polling_in_outage : Svc :=
  svc {[ "op-7" := in_progress_item ]} s3_unavailable.

Definition polling_missing_object : Svc :=
  svc {[ "op-7" := in_progress_item ]} object_missing.

(** A completed retrieval. *)
Definition completed_item : gmap string Val :=
  {[ "download_id" := VScalar (SStr "op-3");
     "repository_name" := VScalar (SStr "demo");
     "download_type" := VScalar (SStr "glacier_retrieval");
     "source_location" := VScalar (SStr key);
     "status" := VScalar (SStr "completed");
     "details" := VDict {[ "download_url"
                             := SStr "https://acme-backups.s3.amazonaws.com/signed";
                           "expires_at" := STime 1751495525 ]} ]}.

Definition polling_completed : Svc :=
  svc {[ "op-3" := completed_item ]} not_restored.

End RetrievalScenario.

Module CloneScenario.

Import Backup.

Definition repo_dir : string := "/tmp/demo_1751409125/demo".

Definition url : string := "https://ghp_token@github.com/acme/demo.git".

(** The server refuses the shallow clone; every other command exits
    with code 0. *)
Definition shallow_refused (argv : list string) (timeout : option Z) : ProcAnswer :=
  if bool_decide (argv = shallow_clone url repo_dir)
  then Exited 128 EmptyString "fatal: the remote end hung up unexpectedly"
  else Exited 0 EmptyString EmptyString.

(** The shallow clone does not finish in time. *)
Definition shallow_slow (argv : list string) (timeout : option Z) : ProcAnswer :=
  if bool_decide (argv = shallow_clone url repo_dir)
  then TimedOut
  else Exited 0 EmptyString EmptyString.

(** The shallow clone succeeds, the fetch of the full history does
    not finish in time, and the statistics commands exit with code 1. *)
Definition history_out_of_reach (argv : list string) (timeout : option Z)
  : ProcAnswer :=
  match timeout with
  | Some _ =>
      if bool_decide (argv = shallow_clone url repo_dir)
      then Exited 0 EmptyString EmptyString
      else TimedOut
  | None =>
      if bool_decide (argv = ["git"; "--git-dir"; repo_dir; "rev-parse"; "--git-dir"])
      then Exited 0 EmptyString EmptyString
      else Exited 1 EmptyString "fatal: bad revision"
  end.

Definition with_git (g : list string -> option Z -> ProcAnswer) : World :=
  Scenario.world Scenario.env Scenario.token_ok Scenario.minutes_from_2232
    Scenario.plenty {[ "/tmp" := [] ]} Scenario.api_200 g.

(** The repository as the handler of one backup passes it on when
    the event carries no size. *)
Definition unknown_size : RepoInfo :=
  {| r_name := "demo"; r_clone_url := "https://github.com/acme/demo.git";
     r_archived := Some (JBool false); r_size := Some (JStr "unknown");
     r_updated_at := Some (JStr "unknown"); r_private := Some (JBool false) |}.

End CloneScenario.

Module PollScenario.

Import Retrieval.

(** The row of a retrieval as [initiate_download] leaves it. *)
Definition restoring_item : gmap string Val :=
  {[ "download_id" := VScalar (SStr "op-9");
     "repository_name" := VScalar (SStr "demo");
     "backup_version" := VScalar (SStr "nightly/2025-05-01-22-32");
     "user_id" := VScalar (SStr "alice");
     "download_type" := VScalar (SStr "glacier_retrieval");
     "source_location" := VScalar (SStr RetrievalScenario.key);
     "status" := VScalar (SStr "in_progress");
     "details" := VDict {[ "s3_key" := SStr RetrievalScenario.key;
                           "restore_tier" := SStr "Standard";
                           "estimated_completion" := SStr "3-5 hours";
                           "restore_days" := SInt 7 ]} ]}.

(** The object has been restored. *)
Definition restored (k : string) : result (option string) :=
  Ok (Some (ongoing_false +:+ ", expiry-date=" +:+ Py.quote
              +:+ "Fri, 11 Jul 2025 00:00:00 GMT" +:+ Py.quote)).

Definition polling_restored : Svc :=
  RetrievalScenario.svc {[ "op-9" := restoring_item ]} restored.

(** The same for a row that carries a job identifier. *)
Definition polling_restored_job : Svc :=
  RetrievalScenario.svc {[ "op-7" := RetrievalScenario.in_progress_item ]} restored.

(** The history table knows one backup of [demo], in the hot tier. *)
Definition hot : Svc :=
  {| environ := {[ "S3_BUCKET_NAME" := "acme-backups" ]};
     history_table :=
       {[ ("demo", "nightly/2025-07-01-22-34")
            := {| storage_class := Some "s3";
                  s3_key := Some "nightly/demo/2025-07-01-22-34.tar.gz";
                  archive_id := None |} ]};
     history_get_err := None;
     download_table := ∅; download_get_err := None;
     download_put_err := None; events_put_err := None; events := [];
     head_object := RetrievalScenario.not_restored;
     restore_err := fun _ _ => None;
     presign := fun k disposition n =>
                  Ok ("https://acme-backups.s3.amazonaws.com/" +:+ k
                        +:+ "?X-Amz-Signature=" +:+ pretty n);
     uuid := fun n => "op-" +:+ pretty n;
     clock := fun n => 1751409125 + Z.of_nat n;
     ticks := 0; s3_calls := [] |}.

Definition hot_request : gmap string string :=
  {[ "repository_name" := "demo"; "backup_version" := "nightly/2025-07-01-22-34";
     "user_id" := "alice" ]}.

End PollScenario.

Module ListScenario.

Import Archiver.

(** A listing of three pages whose second request fails.  The first
    page holds an old backup, a recent one, an archive with a key of
    two parts and one whose name is no date. *)
Definition world : World :=
  {| environ := {[ "S3_BUCKET_NAME" := "backups";
                   "GLACIER_VAULT_NAME" := "cold";
                   "RETENTION_DAYS" := "30" ]};
     pages :=
       [ Ok [ {| Key := "nightly/demo/2025-05-01-22-32.tar.gz"; Size := 52428800;
                 LastModified := Calendar.moment 2025 5 1 20 32 41 0 |};
              {| Key := "nightly/demo/2025-07-30-22-31.tar.gz"; Size := 52430000;
                 LastModified := Calendar.moment 2025 7 30 20 31 40 0 |};
              {| Key := "nightly/manifest.tar.gz"; Size := 12;
                 LastModified := Calendar.moment 2025 5 1 20 40 0 0 |};
              {| Key := "nightly/demo/notes.tar.gz"; Size := 2048;
                 LastModified := Calendar.moment 2025 4 2 9 0 0 0 |} ];
         Raise (Exn (ClientError "SlowDown") "Please reduce your request rate.");
         Ok [ {| Key := "nightly/tools/2025-05-01-22-40.tar.gz"; Size := 1024;
                 LastModified := Calendar.moment 2025 5 1 20 40 2 0 |} ] ];
     clock := fun n => Calendar.moment 2025 8 1 2 0 0 (Z.of_nat n);
     ticks := 0;
     store := ArchivalScenario.store |}.

(** A listing in one page: a backup under its key of today and one
    under a key that has the date as its second part. *)
Definition two_layouts : World :=
  {| environ := environ world;
     pages :=
       [ Ok [ {| Key := "nightly/demo/2025-05-01-22-32.tar.gz"; Size := 52428800;
                 LastModified := Calendar.moment 2025 5 1 20 32 41 0 |};
              {| Key := "nightly/2025-05-01/demo.tar.gz"; Size := 52428800;
                 LastModified := Calendar.moment 2025 5 1 20 32 41 0 |} ] ];
     clock := clock world;
     ticks := 0;
     store := ArchivalScenario.store |}.

End ListScenario.

(** * Properties *)

(** ** Strings *)

Lemma app_nil_l (s : string) : EmptyString +:+ s = s.
Proof. reflexivity. Qed.

Lemma app_cons (c : ascii) (a b : string) : String c a +:+ b = String c (a +:+ b).
Proof. reflexivity. Qed.

Lemma startswith_app (p s : string) : Py.startswith p (p +:+ s) = true.
Proof.
  induction p as [|c p IH]; simpl; [done|].
  destruct (decide (c = c)); [exact IH|done].
Qed.

Lemma startswith_inv (p s : string) :
  Py.startswith p s = true -> exists t, s = p +:+ t.
Proof.
  revert s. induction p as [|c p IH]; intros s H; simpl in *.
  - by exists s.
  - destruct s as [|d s]; [done|].
    destruct (decide (c = d)) as [->|]; [|done].
    destruct (IH _ H) as [t ->]. by exists t.
Qed.

Lemma string_app_assoc (a b c : string) : (a +:+ b) +:+ c = a +:+ (b +:+ c).
Proof. induction a as [|x a IH]; rewrite ?app_nil_l, ?app_cons; congruence. Qed.

Lemma str_in_startswith (p s : string) :
  Py.startswith p s = true -> Py.str_in p s = true.
Proof. intros H. destruct s; simpl; by rewrite H. Qed.

(** [p in s] holds exactly when [s] is some text, then [p], then some
    text. *)
Lemma str_in_spec (p s : string) :
  Py.str_in p s = true <-> exists a b, s = a +:+ p +:+ b.
Proof.
  split.
  - induction s as [|c s IH]; simpl; intros H.
    + rewrite orb_false_r in H. apply startswith_inv in H as [t ->].
      by exists EmptyString, t.
    + apply orb_true_iff in H as [H|H].
      * apply startswith_inv in H as [t ->]. by exists EmptyString, t.
      * destruct (IH H) as (a & b & ->). by exists (String c a), b.
  - intros (a & b & ->). induction a as [|c a IH].
    + rewrite app_nil_l. apply str_in_startswith, startswith_app.
    + rewrite app_cons. simpl. rewrite IH. apply orb_true_r.
Qed.

Lemma lower_char_idemp (c : ascii) : Py.lower_char (Py.lower_char c) = Py.lower_char c.
Proof.
  unfold Py.lower_char.
  destruct ((65 <=? N_of_ascii c) && (N_of_ascii c <=? 90))%N eqn:E; [|by rewrite E].
  apply andb_true_iff in E as [E1 E2].
  apply N.leb_le in E1. apply N.leb_le in E2.
  rewrite N_ascii_embedding by lia.
  replace (N_of_ascii c + 32 <=? 90)%N with false; [by rewrite andb_false_r|].
  symmetry. apply N.leb_gt. lia.
Qed.

Lemma lower_idemp (s : string) : Py.lower (Py.lower s) = Py.lower s.
Proof.
  induction s as [|c s IH]; simpl; [done|].
  by rewrite lower_char_idemp, IH.
Qed.

(** ** Error taxonomy *)

(** The classifier reads its argument through [lower] only. *)
Lemma categorize_error_case_insensitive (m1 m2 : string) :
  Py.lower m1 = Py.lower m2 ->
  Taxonomy.categorize_error m1 = Taxonomy.categorize_error m2.
Proof. unfold Taxonomy.categorize_error. by intros ->. Qed.

Lemma categorize_error_total (error_msg : string) :
  Taxonomy.categorize_error error_msg ∈
    [ "DISK_SPACE"; "AUTHENTICATION"; "REPOSITORY_ACCESS"; "TIMEOUT"; "NETWORK";
      "LAMBDA_LAYER"; "GIT_MISSING"; "MEMORY"; "UNKNOWN" ].
Proof.
  unfold Taxonomy.categorize_error.
  repeat (match goal with |- context [if ?b then _ else _] => destruct b end);
    set_solver.
Qed.

(** C8, as amended: the classifier gives every message one category and
    matches substrings without regard to case; a message containing
    "no space left" is DISK_SPACE; a message containing "authentication
    failed" is AUTHENTICATION unless it also contains "no space left" or
    "insufficient disk space", which are tested first; a message matching
    none of the known patterns is UNKNOWN. *)
Theorem categorize_error_by_priority (error_msg : string) :
  (Taxonomy.contains_ci "no space left" error_msg = true ->
   Taxonomy.categorize_error error_msg = "DISK_SPACE")
  /\ (Taxonomy.contains_ci "authentication failed" error_msg = true ->
      Taxonomy.contains_ci "no space left" error_msg = false ->
      Taxonomy.contains_ci "insufficient disk space" error_msg = false ->
      Taxonomy.categorize_error error_msg = "AUTHENTICATION")
  /\ (Taxonomy.matches_known_pattern error_msg = false ->
      Taxonomy.categorize_error error_msg = "UNKNOWN")
  /\ (forall other, Py.lower other = Py.lower error_msg ->
      Taxonomy.categorize_error other = Taxonomy.categorize_error error_msg).
Proof.
  unfold Taxonomy.contains_ci, Taxonomy.categorize_error.
  change (Py.lower "no space left") with "no space left".
  change (Py.lower "authentication failed") with "authentication failed".
  change (Py.lower "insufficient disk space") with "insufficient disk space".
  repeat split.
  - by intros ->.
  - by intros -> -> ->.
  - unfold Taxonomy.matches_known_pattern. cbn [existsb Taxonomy.single_patterns].
    intros H. apply orb_false_iff in H as [H1 H2].
    repeat (apply orb_false_iff in H1 as [? H1]).
    repeat match goal with E : Py.str_in _ _ = false |- _ => rewrite E; clear E end.
    rewrite H2. reflexivity.
  - by intros other ->.
Qed.

(** The three examples of the specification, through the theorem. *)
Lemma categorize_error_by_priority_witness :
  Taxonomy.categorize_error "fatal: write error: No space left on device" = "DISK_SPACE"
  /\ Taxonomy.categorize_error "remote: Authentication FAILED for demo" = "AUTHENTICATION"
  /\ Taxonomy.categorize_error "something odd happened" = "UNKNOWN".
Proof.
  split; [|split].
  - apply (proj1 (categorize_error_by_priority _)). vm_compute. reflexivity.
  - apply (proj1 (proj2 (categorize_error_by_priority _))); vm_compute; reflexivity.
  - apply (proj1 (proj2 (proj2 (categorize_error_by_priority _)))).
    vm_compute. reflexivity.
Defined.

(** C8, as stated, fails: a message can contain "authentication failed"
    and still be classified DISK_SPACE, because the disk-space patterns
    are tested first. *)
Lemma authentication_failed_yet_disk_space :
  let msg := "fatal: Authentication failed; write error: No space left on device" in
  Taxonomy.contains_ci "authentication failed" msg = true
  /\ Taxonomy.categorize_error msg = "DISK_SPACE"
  /\ Taxonomy.categorize_error msg <> "AUTHENTICATION".
Proof. vm_compute. repeat split; discriminate. Qed.

(** ** Resource guard *)

Lemma try_except_ret_total {St A} (body : M St A) (a : A) (s : St) :
  exists a' s', try_except body (fun _ => ret a) s = (Ok a', s').
Proof.
  unfold try_except. destruct (body s) as [[x|e] s']; eauto.
Qed.

(** C1, the code at a state the claim covers: both measurements of
    [/tmp] give 10 MB where 1000 MB are required, one reclamation pass
    runs in between, the body of the guard raises its
    "Insufficient disk space" error, and [check_disk_space] still returns
    normally, because that error is raised inside the [try] whose
    handler only logs. *)
Theorem check_disk_space_swallows_shortage :
  let w := Scenario.low_disk in
  let r := Backup.check_disk_space "/tmp" 1000 w in
  Backup.available_mb (Scenario.mb 10) == 10
  /\ fst (Backup.check_disk_space_body "/tmp" 1000 w)
     = Raise (Exn RuntimeError
                "Insufficient disk space: 10.0 MB available, 1000 MB required")
  /\ fst r = Ok tt
  /\ Backup.stat_calls (snd r) = 2%nat
  /\ Backup.effects (snd r) = [Backup.ERmtree "/tmp/demo_1751400000";
                               Backup.ERmtree "/tmp/node_modules"].
Proof. vm_compute. repeat split. Qed.

(** The same for every path, requirement and state: [check_disk_space]
    cannot raise. *)
Lemma check_disk_space_never_raises (path : string) (required_mb : Z)
    (w : Backup.World) :
  fst (Backup.check_disk_space path required_mb w) = Ok tt.
Proof.
  unfold Backup.check_disk_space, try_except.
  destruct (Backup.check_disk_space_body path required_mb w) as [[[]|e] w']; done.
Qed.

Lemma Qltb_true (x y : Q) : Backup.Qltb x y = true -> (x < y)%Q.
Proof.
  unfold Backup.Qltb. intros H. apply negb_true_iff in H.
  apply Qnot_le_lt. intros Hle. apply Qle_bool_iff in Hle. congruence.
Qed.

(** [(current_time - mtime) / 3600 > 1] says that [mtime] lies more than
    3600 seconds back. *)
Lemma older_than_an_hour (ct mtime : Q) :
  Backup.Qltb 1 ((ct - mtime) / inject_Z 3600) = true -> (mtime + 3600 < ct)%Q.
Proof.
  intros H%Qltb_true.
  apply (Qmult_lt_r _ _ (inject_Z 3600)) in H; [|reflexivity].
  rewrite Qmult_1_l in H.
  unfold Qdiv in H. rewrite <- Qmult_assoc in H.
  rewrite (Qmult_comm (/ _)) in H. rewrite Qmult_inv_r in H by discriminate.
  rewrite Qmult_1_r in H. change (inject_Z 3600) with (3600%Q) in H. lra.
Qed.

Section Cleanup.

Import Backup.

Variable base : string.

Lemma listing_remove_entry (name : string) (t : gmap string (list DirEntry)) :
  Py.path_join base name <> base ->
  default [] (remove_entry base name t !! base)
  = filter (fun e => e_name e <> name) (default [] (t !! base)).
Proof.
  intros Hne. unfold remove_entry.
  rewrite lookup_delete_ne by done.
  rewrite lookup_alter_eq. by destruct (t !! base).
Qed.

Lemma only_removed_remove_entry (name : string) (t : gmap string (list DirEntry)) :
  Py.path_join base name <> base ->
  only_removed (fun n => n = name) base t (remove_entry base name t).
Proof.
  intros Hne n Hin Hout. rewrite listing_remove_entry in Hout by done.
  destruct (decide (n = name)) as [|Hn]; [done|].
  exfalso. apply Hout.
  apply list_elem_of_fmap in Hin as (e & -> & He).
  apply list_elem_of_fmap_2, list_elem_of_filter. done.
Qed.

(** One turn of the loop: it does not raise, and it leaves the tree
    alone or removes its entry, which then is [reclaimable]. *)
Lemma cleanup_item_spec (ct : Q) (count : Z) (e : DirEntry) (w : World) :
  exists count' w',
    cleanup_item base ct count e w = (Ok count', w')
    /\ (tree w' = tree w
        \/ (reclaimable ct e /\ Py.path_join base (e_name e) <> base
            /\ tree w' = remove_entry base (e_name e) (tree w))).
Proof.
  unfold cleanup_item.
  destruct (e_isdir e) eqn:Hdir; simpl; [|by eexists _, _; eauto].
  destruct (Py.str_in "_" (e_name e)) eqn:Hus; simpl; [|by eexists _, _; eauto].
  case_bool_decide as Hpath; simpl; [by eexists _, _; eauto|].
  unfold try_except, bind, answer.
  destruct (e_mtime e) as [mtime|x] eqn:Hm; [|by eexists _, _; eauto].
  destruct (Qltb 1 _) eqn:Hage; [|by eexists _, _; eauto].
  unfold rmtree_entry, bind, emit, modify, raise, ret.
  destruct (e_rmtree e); eexists _, _; (split; [reflexivity|]); simpl; eauto.
  right. repeat split; eauto using older_than_an_hour.
Qed.

Lemma for_each_cleanup (ct : Q) (items : list DirEntry) :
  forall (count : Z) (w : World),
  exists count' w',
    for_each items count (cleanup_item base ct) w = (Ok count', w')
    /\ only_removed
         (fun n => exists e, e ∈ items /\ e_name e = n /\ reclaimable ct e)
         base (tree w) (tree w').
Proof.
  induction items as [|e items IH]; intros count w.
  - exists count, w. split; [done|]. intros n Hin Hout. done.
  - destruct (cleanup_item_spec ct count e w) as (c1 & w1 & Hstep & Htree).
    destruct (IH c1 w1) as (c2 & w2 & Hrest & Hrem).
    exists c2, w2. split.
    + simpl. unfold bind. by rewrite Hstep.
    + intros n Hin Hout.
      destruct (decide (n ∈ e_name <$> default [] (tree w1 !! base))) as [Hin1|Hout1].
      * destruct (Hrem n Hin1 Hout) as (e' & He' & Hn & Hr).
        exists e'. split; [by apply list_elem_of_further|done].
      * destruct Htree as [Heq|(Hr & Hne & Heq)]; rewrite Heq in Hout1; [done|].
        pose proof (only_removed_remove_entry (e_name e) (tree w) Hne n Hin Hout1) as ->.
        exists e. split; [apply list_elem_of_here|done].
Qed.

(** The whole pass removes reclaimable entries only. *)
Lemma cleanup_only_removed (w : World) :
  only_removed
    (fun n => exists e, e ∈ listing base w /\ e_name e = n
                        /\ reclaimable (epoch (clock w (ticks w))) e)
    base (tree w) (tree (snd (cleanup_old_temp_directories base w))).
Proof.
  unfold cleanup_old_temp_directories, try_except, bind, os_path_exists,
    os_listdir, gets, now.
  case_bool_decide as Hex; simpl; [|by intros n ??].
  destruct (for_each_cleanup (epoch (clock w (ticks w))) (default [] (tree w !! base))
              0 (set_ticks (S (ticks w)) w)) as (c & w' & -> & Hrem).
  exact Hrem.
Qed.

End Cleanup.

Section Convention.

Import Backup.

Lemma last_char_app (a : string) (d : ascii) :
  Py.last_char (a +:+ String d EmptyString) = Some d.
Proof.
  induction a as [|c a IH]; [done|].
  rewrite app_cons. simpl. rewrite IH.
  destruct a; reflexivity.
Qed.

Lemma pretty_N_char_digit (n : N) : Py.is_digit (pretty_N_char n) = true.
Proof. unfold pretty_N_char. by repeat case_match. Qed.

Lemma pretty_N_go_last (x : N) : forall s,
  (0 < x)%N -> exists q d, pretty_N_go x s = q +:+ String d s /\ Py.is_digit d = true.
Proof.
  induction (N.lt_wf_0 x) as [x _ IH]. intros s Hx.
  rewrite pretty_N_go_step by done.
  destruct (decide (x `div` 10 = 0)%N) as [->|Hne].
  - rewrite pretty_N_go_0. exists EmptyString, (pretty_N_char (x `mod` 10)).
    split; [done|apply pretty_N_char_digit].
  - assert (Hlt : (x `div` 10 < x)%N) by (apply N.div_lt; lia).
    assert (Hpos : (0 < x `div` 10)%N) by (by apply N.neq_0_lt_0).
    destruct (IH _ Hlt (String (pretty_N_char (x `mod` 10)) s) Hpos)
      as (q & d & -> & Hd).
    exists (q +:+ String d EmptyString), (pretty_N_char (x `mod` 10)).
    split; [|apply pretty_N_char_digit].
    by rewrite string_app_assoc.
Qed.

Lemma pretty_Z_last (z : Z) :
  exists q d, pretty z = q +:+ String d EmptyString /\ Py.is_digit d = true.
Proof.
  destruct z as [|p|p].
  - by exists EmptyString, "0"%char.
  - destruct (pretty_N_go_last (N.pos p) EmptyString) as (q & d & Hq & Hd); [lia|].
    exists q, d. split; [|done]. exact Hq.
  - destruct (pretty_N_go_last (N.pos p) EmptyString) as (q & d & Hq & Hd); [lia|].
    exists ("-" +:+ q), d. split; [|done].
    change (pretty (Z.neg p)) with ("-" +:+ pretty_N_go (N.pos p) EmptyString).
    by rewrite Hq.
Qed.

Lemma scratch_name_ends_in_digit (repo : string) (ts : Z) :
  exists d, Py.last_char (scratch_name repo ts) = Some d /\ Py.is_digit d = true.
Proof.
  destruct (pretty_Z_last ts) as (q & d & Hq & Hd).
  exists d. split; [|done]. unfold scratch_name. rewrite Hq.
  rewrite <- !string_app_assoc. apply last_char_app.
Qed.

Lemma scratch_name_has_underscore (repo : string) (ts : Z) :
  Py.str_in "_" (scratch_name repo ts) = true.
Proof. apply str_in_spec. by exists repo, (pretty ts). Qed.

(** What the guard of the pass does keep to: it removes an entry of
    the base path only if it is a directory whose name contains an
    underscore and whose modification time lies more than one hour
    back; an entry whose name has no underscore is never removed,
    whatever its age; and the scratch directories of the orchestrator
    all have an underscore in their name. *)
Theorem cleanup_removes_only_old_underscore_directories
    (base_path : string) (w : World) :
  let w' := snd (cleanup_old_temp_directories base_path w) in
  (forall name,
     name ∈ e_name <$> listing base_path w ->
     name ∉ e_name <$> listing base_path w' ->
     exists e, e ∈ listing base_path w /\ e_name e = name
               /\ reclaimable (epoch (clock w (ticks w))) e)
  /\ (forall name,
        Py.str_in "_" name = false ->
        name ∈ e_name <$> listing base_path w ->
        name ∈ e_name <$> listing base_path w')
  /\ (forall repo_name timestamp,
        Py.str_in "_" (scratch_name repo_name timestamp) = true).
Proof.
  pose proof (cleanup_only_removed base_path w) as Hrem.
  split; [exact Hrem|split].
  - intros name Hno Hin.
    destruct (decide (name ∈ e_name <$>
      listing base_path (snd (cleanup_old_temp_directories base_path w))))
      as [|Hout]; [done|].
    destruct (Hrem name Hin Hout) as (e & _ & <- & _ & Hus & _). congruence.
  - apply scratch_name_has_underscore.
Qed.

(** In [/tmp] of the example, the stale scratch directory goes because
    it is a directory, has an underscore and is two and a half hours
    old. *)
Lemma cleanup_removes_only_old_underscore_directories_witness :
  exists e, e ∈ listing "/tmp" Scenario.low_disk
            /\ e_name e = "demo_1751400000"
            /\ reclaimable (epoch (clock Scenario.low_disk 0)) e.
Proof.
  apply (proj1 (cleanup_removes_only_old_underscore_directories "/tmp" Scenario.low_disk)).
  - apply (bool_decide_unpack _). vm_compute. exact I.
  - apply (bool_decide_unpack _). vm_compute. exact I.
Defined.

(** C4, the code at an input the claim covers: [/tmp] holds a
    directory [node_modules], two and a half hours old.  It is not a name of the
    orchestrator's convention, whatever the repository and the time
    stamp, and the pass removes it all the same: where its comment
    says it looks for "temporary directories with our naming pattern",
    the guard asks for an underscore in the name and no more. *)
Theorem cleanup_removes_directory_outside_convention :
  let w := Scenario.low_disk in
  let w' := snd (cleanup_old_temp_directories "/tmp" w) in
  e_name <$> listing "/tmp" w
    = ["demo_1751400000"; "node_modules"; "other_1751408525"; "cache"]
  /\ e_name <$> listing "/tmp" w' = ["other_1751408525"; "cache"]
  /\ ~ is_scratch_name "node_modules".
Proof.
  split; [|split]; [vm_compute; reflexivity..|].
  intros (repo & ts & H).
  destruct (scratch_name_ends_in_digit repo ts) as (d & Hl & Hd).
  rewrite <- H in Hl. vm_compute in Hl. injection Hl as <-. discriminate Hd.
Qed.

End Convention.

(** ** Storage keys *)

Section Keys.

Import Backup.

Lemma ascii_compare_refl (c : ascii) : Ascii.compare c c = Eq.
Proof. unfold Ascii.compare. apply N.compare_refl. Qed.

Lemma compare_app_prefix (p a b : string) :
  String.compare (p +:+ a) (p +:+ b) = String.compare a b.
Proof.
  induction p as [|c p IH]; [done|].
  rewrite !app_cons. simpl. by rewrite ascii_compare_refl.
Qed.

Lemma digit_compare (x y : Z) :
  0 <= x <= 9 -> 0 <= y <= 9 -> Ascii.compare (digit x) (digit y) = (x ?= y).
Proof.
  intros Hx Hy. unfold Ascii.compare, digit.
  rewrite !N_ascii_embedding by lia.
  rewrite <- N2Z.inj_compare, !N2Z.inj_add, !Z2N.id by lia.
  apply Z.add_compare_mono_l.
Qed.

Lemma compare_pad2 (a b : Z) (s t : string) :
  0 <= a < 100 -> 0 <= b < 100 ->
  String.compare (pad2 a +:+ s) (pad2 b +:+ t) = lex (a ?= b) (String.compare s t).
Proof.
  intros Ha Hb. unfold pad2. rewrite !app_cons, !app_nil_l. simpl.
  pose proof (Z.mod_pos_bound (a / 10) 10 eq_refl).
  pose proof (Z.mod_pos_bound (b / 10) 10 eq_refl).
  pose proof (Z.mod_pos_bound a 10 eq_refl).
  pose proof (Z.mod_pos_bound b 10 eq_refl).
  rewrite (digit_compare (a / 10 mod 10) (b / 10 mod 10)) by lia.
  rewrite (digit_compare (a mod 10) (b mod 10)) by lia.
  destruct (Z.compare_spec (a / 10 mod 10) (b / 10 mod 10));
  destruct (Z.compare_spec (a mod 10) (b mod 10));
  destruct (Z.compare_spec a b); simpl; try reflexivity;
    exfalso; Z.div_mod_to_equations; lia.
Qed.

Lemma compare_pad4 (a b : Z) (s t : string) :
  0 <= a < 10000 -> 0 <= b < 10000 ->
  String.compare (pad4 a +:+ s) (pad4 b +:+ t) = lex (a ?= b) (String.compare s t).
Proof.
  intros Ha Hb. unfold pad4. rewrite !string_app_assoc.
  rewrite compare_pad2 by (Z.div_mod_to_equations; lia).
  rewrite compare_pad2 by (Z.div_mod_to_equations; lia).
  destruct (Z.compare_spec (a / 100) (b / 100));
  destruct (Z.compare_spec (a mod 100) (b mod 100));
  destruct (Z.compare_spec a b); simpl; try reflexivity;
    exfalso; Z.div_mod_to_equations; lia.
Qed.

Lemma lex_assoc (a b c : comparison) : lex (lex a b) c = lex a (lex b c).
Proof. by destruct a. Qed.

(** The order of two keys of one repository is the order of the five
    numbers they carry. *)
Lemma compare_keys (repo : string) (d1 t1 d2 t2 : datetime) :
  valid d1 -> valid t1 -> valid d2 -> valid t2 ->
  String.compare (s3_key_of repo (strftime_Ymd d1) (strftime_HM t1))
                 (s3_key_of repo (strftime_Ymd d2) (strftime_HM t2))
  = lex (year d1 ?= year d2)
      (lex (month d1 ?= month d2)
         (lex (day d1 ?= day d2)
            (lex (hour t1 ?= hour t2) (minute t1 ?= minute t2)))).
Proof.
  unfold valid. intros Hd1 Ht1 Hd2 Ht2.
  unfold s3_key_of, strftime_Ymd, strftime_HM.
  rewrite !string_app_assoc.
  rewrite compare_app_prefix, compare_app_prefix, compare_app_prefix.
  rewrite compare_pad4 by lia. f_equal.
  rewrite (compare_app_prefix "-").
  rewrite compare_pad2 by lia. f_equal.
  rewrite (compare_app_prefix "-").
  rewrite compare_pad2 by lia. f_equal.
  rewrite (compare_app_prefix "-").
  rewrite compare_pad2 by lia. f_equal.
  rewrite (compare_app_prefix "-").
  rewrite compare_pad2 by lia.
  destruct (minute t1 ?= minute t2); reflexivity.
Qed.

(** C5, as amended: for two successive backups of one repository, each
    of which takes its date and its time of day on the same calendar day
    (years of four digits), the later key is strictly greater in string
    order when the two uploads fall in different minutes of the clock,
    and the two keys are the same when they fall in the same minute. *)
Theorem successive_keys_increase (repo_name : string) (r1 r2 : Run) :
  successive r1 r2 ->
  same_day (handler_time r1) (upload_time r1) ->
  same_day (handler_time r2) (upload_time r2) ->
  (minute_rank (upload_time r1) <> minute_rank (upload_time r2) ->
   str_lt (key_of_run repo_name r1) (key_of_run repo_name r2))
  /\ (minute_rank (upload_time r1) = minute_rank (upload_time r2) ->
      key_of_run repo_name r1 = key_of_run repo_name r2).
Proof.
  intros (Hv1 & Hv2 & Hv3 & Hv4 & H1 & H12 & H2) (Hy1 & Hm1 & Hd1) (Hy2 & Hm2 & Hd2).
  unfold str_lt, key_of_run. split.
  - intros Hne. rewrite compare_keys by done.
    rewrite Hy1, Hm1, Hd1, Hy2, Hm2, Hd2.
    unfold second_rank, minute_rank, valid in *.
    destruct (Z.compare_spec (year (upload_time r1)) (year (upload_time r2)));
    destruct (Z.compare_spec (month (upload_time r1)) (month (upload_time r2)));
    destruct (Z.compare_spec (day (upload_time r1)) (day (upload_time r2)));
    destruct (Z.compare_spec (hour (upload_time r1)) (hour (upload_time r2)));
    destruct (Z.compare_spec (minute (upload_time r1)) (minute (upload_time r2)));
    simpl; try reflexivity; exfalso; lia.
  - intros Heq. unfold minute_rank, valid in *.
    assert (year (upload_time r1) = year (upload_time r2)) as Ey by lia.
    assert (month (upload_time r1) = month (upload_time r2)) as Em by lia.
    assert (day (upload_time r1) = day (upload_time r2)) as Ed by lia.
    assert (hour (upload_time r1) = hour (upload_time r2)) as Eh by lia.
    assert (minute (upload_time r1) = minute (upload_time r2)) as Emi by lia.
    unfold strftime_Ymd, strftime_HM.
    rewrite Hy1, Hm1, Hd1, Hy2, Hm2, Hd2. congruence.
Qed.

Lemma successive_first_second : successive Scenario.first_run Scenario.second_run.
Proof.
  unfold successive, valid, second_rank, minute_rank. simpl. lia.
Qed.

(** A run three minutes after the first gets a greater key; the two
    runs that fall in one minute get one key. *)
Lemma successive_keys_increase_witness :
  str_lt (key_of_run "demo" Scenario.first_run) (key_of_run "demo" Scenario.later_run)
  /\ key_of_run "demo" Scenario.first_run = key_of_run "demo" Scenario.second_run.
Proof.
  split.
  - apply (successive_keys_increase "demo" Scenario.first_run Scenario.later_run).
    + unfold successive, valid, second_rank, minute_rank. simpl. lia.
    + repeat split; reflexivity.
    + repeat split; reflexivity.
    + vm_compute. discriminate.
  - apply (successive_keys_increase "demo" Scenario.first_run Scenario.second_run).
    + unfold successive, valid, second_rank, minute_rank. simpl. lia.
    + repeat split; reflexivity.
    + repeat split; reflexivity.
    + reflexivity.
Defined.

(** C5, as stated, fails: the second backup starts after the first has
    uploaded, both succeed, and the second key is not greater than the
    first; it is the same key, since a key carries the minute and no
    more. *)
Lemma keys_collide_within_a_minute :
  successive Scenario.first_run Scenario.second_run
  /\ key_of_run "demo" Scenario.first_run = "nightly/demo/2025-07-01-22-32.tar.gz"
  /\ key_of_run "demo" Scenario.second_run = "nightly/demo/2025-07-01-22-32.tar.gz"
  /\ ~ str_lt (key_of_run "demo" Scenario.first_run)
              (key_of_run "demo" Scenario.second_run).
Proof.
  split; [exact successive_first_second|].
  split; [reflexivity|]. split; [reflexivity|].
  unfold str_lt. vm_compute. discriminate.
Qed.

(** A backup that starts before midnight and uploads after it puts the
    old date beside the new time of day, and its key sorts before the
    key of the backup that came before it. *)
Lemma key_regresses_across_midnight :
  successive Scenario.evening_run Scenario.midnight_run
  /\ key_of_run "demo" Scenario.evening_run = "nightly/demo/2025-07-01-23-50.tar.gz"
  /\ key_of_run "demo" Scenario.midnight_run = "nightly/demo/2025-07-01-00-05.tar.gz"
  /\ str_lt (key_of_run "demo" Scenario.midnight_run)
            (key_of_run "demo" Scenario.evening_run).
Proof.
  split.
  { unfold successive, valid, second_rank, minute_rank. simpl. lia. }
  split; [reflexivity|]. split; [reflexivity|].
  unfold str_lt. vm_compute. reflexivity.
Qed.

(** The key of a run of the whole handler is the key of the [Run] made
    of its first and third reading of the clock. *)
Example backup_of_demo_key :
  let w := Scenario.healthy in
  let r := lambda_handler (Scenario.demo false) w in
  outcome_field (fst r) "success" = Some (JBool true)
  /\ outcome_field (fst r) "size_bytes" = Some (JInt 52428800)
  /\ outcome_field (fst r) "s3_key"
     = Some (JStr (key_of_run "demo"
                     {| handler_time := civil (clock w 0);
                        upload_time := civil (clock w 2) |}))
  /\ is_Some (s3 (snd r) !! "nightly/demo/2025-07-01-22-34.tar.gz").
Proof.
  repeat split; try (vm_compute; reflexivity).
  apply (bool_decide_unpack _). vm_compute. exact I.
Qed.

End Keys.

(** ** Backup orchestrator: archived repositories *)

Section Skipped.

Import Backup.

Lemma untouched_refl (w : World) : untouched w w.
Proof. by repeat split. Qed.

Lemma untouched_trans (w1 w2 w3 : World) :
  untouched w1 w2 -> untouched w2 w3 -> untouched w1 w3.
Proof. unfold untouched. intros (?&?&?) (?&?&?). repeat split; congruence. Qed.

Lemma keeps_ret {A} (a : A) : keeps (ret a).
Proof. intros w. apply untouched_refl. Qed.

Lemma keeps_raise {A} (e : exn) : keeps (@raise World A e).
Proof. intros w. apply untouched_refl. Qed.

Lemma keeps_gets {A} (f : World -> A) : keeps (gets f).
Proof. intros w. apply untouched_refl. Qed.

Lemma keeps_bind {A B} (c : M World A) (k : A -> M World B) :
  keeps c -> (forall a, keeps (k a)) -> keeps (bind c k).
Proof.
  intros Hc Hk w. unfold bind. specialize (Hc w).
  destruct (c w) as [[a|e] w1]; [|exact Hc].
  eapply untouched_trans; [exact Hc|apply Hk].
Qed.

Lemma keeps_try_except {A} (body : M World A) (handler : exn -> M World A) :
  keeps body -> (forall e, keeps (handler e)) -> keeps (try_except body handler).
Proof.
  intros Hb Hh w. unfold try_except. specialize (Hb w).
  destruct (body w) as [[a|e] w1]; [exact Hb|].
  eapply untouched_trans; [exact Hb|apply Hh].
Qed.

Lemma keeps_environ_get (k : string) : keeps (environ_get k).
Proof. intros w. unfold environ_get. destruct (environ w !! k); apply untouched_refl. Qed.

Lemma get_secret_value_state (arn : string) (w : World) :
  snd (get_secret_value arn w) = w.
Proof.
  unfold get_secret_value.
  repeat (match goal with |- context [match ?x with _ => _ end] => destruct x end);
    reflexivity.
Qed.

Lemma keeps_get_secret_value (arn : string) : keeps (get_secret_value arn).
Proof. intros w. rewrite get_secret_value_state. apply untouched_refl. Qed.

Lemma keeps_log_backup_event (n t s : string) (d : gmap string JVal)
    (err : option string) : keeps (log_backup_event n t s d err).
Proof.
  intros w. unfold log_backup_event, untouched.
  destruct (events_put w) as [e|]; [destruct (is_client_error e)|]; done.
Qed.

Lemma log_backup_event_ok (n t s : string) (d : gmap string JVal)
    (err : option string) (w : World) :
  (forall e, events_put w = Some e -> is_client_error e = true) ->
  exists w', log_backup_event n t s d err w = (Ok tt, w')
             /\ events_put w' = events_put w.
Proof.
  intros H. unfold log_backup_event.
  destruct (events_put w) as [e|] eqn:E; [rewrite (H e eq_refl)|]; eauto.
Qed.

Lemma for_each_app {A S : Type} (l1 l2 : list A) (body : S -> A -> M World S) :
  forall (acc : S) (w : World),
    for_each (l1 ++ l2) acc body w
    = bind (for_each l1 acc body) (fun acc1 => for_each l2 acc1 body) w.
Proof.
  induction l1 as [|x l1 IH]; intros acc w; [reflexivity|].
  simpl. unfold bind. destruct (body acc x w) as [[acc1|e] w1]; [|reflexivity].
  rewrite IH. reflexivity.
Qed.

(** One turn of the loop of the batch on an archived repository that
    has a name. *)
Lemma archived_turn (bucket token date_str : string)
    (results : list (gmap string JVal)) (repo : Event) (name : string) (w : World) :
  truthy (default (JBool false) (ev_archived repo)) = true ->
  ev_name repo = Some name ->
  batch_turn bucket token date_str results repo w
  = (Ok (results ++ [skipped_outcome name]), w).
Proof. intros Harch Hname. unfold batch_turn, try_except. by rewrite Harch, Hname. Qed.

(** C6, as amended: for every snapshot with archived=true, whatever the
    state of the services, [backup()] performs no clone, no compression
    and no upload and leaves bucket and disk as they were; and when the
    snapshot carries its name and clone URL, the two environment
    variables are set, the token can be fetched and the audit table
    raises nothing but a ClientError, its outcome is the skipped
    outcome (skipped=true, reason archived).  The decision comes after
    the configuration and the token have been read and the started
    event written: what the audit trail gains is the started event and
    the skipped event, in this order, when the table takes them.  In
    the batch ([backup_repositories]) the turn of an archived
    repository that has a name adds the skipped outcome to the results
    and changes nothing, whatever the state. *)
Theorem archived_repository_is_skipped (event : Event) (w : World) :
  truthy (default (JBool false) (ev_archived event)) = true ->
  untouched w (snd (lambda_handler event w))
  /\ (forall name clone_url arn token,
        ev_name event = Some name ->
        ev_clone_url event = Some clone_url ->
        is_Some (environ w !! "S3_BUCKET_NAME") ->
        environ w !! "GITHUB_TOKEN_SECRET_ARN" = Some arn ->
        fst (get_secret_value arn w) = Ok token ->
        (forall e, events_put w = Some e -> is_client_error e = true) ->
        fst (lambda_handler event w) = Ok (skipped_outcome name)
        /\ audit (snd (lambda_handler event w))
           = audit w ++
               match events_put w with
               | None =>
                   [ {| a_repository := name; a_event_type := "backup";
                        a_status := "started";
                        a_details :=
                          {[ "clone_url" := JStr clone_url;
                             "archived" := default (JBool false) (ev_archived event);
                             "size_kb" := default (JStr "unknown") (ev_size event);
                             "private" := default (JBool false) (ev_private event);
                             "updated_at"
                               := default (JStr "unknown") (ev_updated_at event) ]};
                        a_error := None |};
                     {| a_repository := name; a_event_type := "backup";
                        a_status := "skipped";
                        a_details := {[ "reason" := JStr "archived" ]};
                        a_error := None |} ]
               | Some _ => []
               end)
  /\ (forall name bucket token date_str results w0,
        ev_name event = Some name ->
        batch_turn bucket token date_str results event w0
        = (Ok (results ++ [skipped_outcome name]), w0))
  /\ (forall name before after bucket token w0,
        ev_name event = Some name ->
        let turn := batch_turn bucket token (strftime_Ymd (civil (clock w0 (ticks w0)))) in
        backup_repositories (before ++ event :: after) bucket token w0
        = bind (for_each before [] turn)
            (fun results => for_each after (results ++ [skipped_outcome name]) turn)
            (set_ticks (S (ticks w0)) w0)).
Proof.
  intros Harch. split; [|split; [|split]].
  - revert w. change (keeps (lambda_handler event)).
    apply keeps_try_except.
    + apply keeps_bind; [apply keeps_environ_get|intros bucket].
      apply keeps_bind; [apply keeps_environ_get|intros arn].
      apply keeps_bind; [apply keeps_get_secret_value|intros token].
      destruct (ev_name event) as [name|]; [|apply keeps_raise].
      destruct (ev_clone_url event) as [clone_url|]; [|apply keeps_raise].
      apply keeps_bind; [apply keeps_log_backup_event|intros _].
      rewrite Harch.
      apply keeps_bind; [apply keeps_log_backup_event|intros _].
      apply keeps_ret.
    + intros e.
      apply keeps_bind; [apply keeps_gets|intros mem].
      apply keeps_bind; [apply keeps_log_backup_event|intros _].
      apply keeps_ret.
  - intros name clone_url arn token Hname Hurl [bucket Hbucket] Harn Htoken Hput.
    unfold lambda_handler, try_except, bind, environ_get.
    rewrite Hbucket, Harn.
    pose proof (get_secret_value_state arn w) as Hs.
    destruct (get_secret_value arn w) as [r w0]. simpl in Hs, Htoken. subst r w0.
    rewrite Hname, Hurl. rewrite Harch.
    unfold log_backup_event.
    destruct (events_put w) as [e|] eqn:Hev.
    + rewrite (Hput e eq_refl). rewrite Hev, (Hput e eq_refl). simpl.
      by rewrite app_nil_r.
    + simpl. rewrite Hev. simpl. split; [reflexivity|].
      by rewrite <- app_assoc.
  - intros name bucket token date_str results w0 Hname. by apply archived_turn.
  - intros name before after bucket token w0 Hname turn.
    change (backup_repositories (before ++ event :: after) bucket token w0)
      with (for_each (before ++ event :: after) [] turn (set_ticks (S (ticks w0)) w0)).
    rewrite for_each_app. unfold bind at 1 2.
    destruct (for_each before [] turn (set_ticks (S (ticks w0)) w0)) as [[results|e] w1];
      [|reflexivity].
    cbn [for_each]. unfold bind at 1. unfold turn at 1.
    by rewrite (archived_turn _ _ _ _ _ name).
Qed.

(** The archived demo repository in the healthy state, alone and in
    a batch between two repositories that are not archived. *)
Lemma archived_repository_is_skipped_witness :
  fst (lambda_handler (Scenario.demo true) Scenario.healthy)
  = Ok (skipped_outcome "demo")
  /\ skipped_outcome "demo" !! "skipped" = Some (JBool true)
  /\ a_status <$> audit (snd (lambda_handler (Scenario.demo true) Scenario.healthy))
     = ["started"; "skipped"]
  /\ untouched Scenario.healthy (snd (lambda_handler (Scenario.demo true) Scenario.healthy))
  /\ batch_turn "acme-backups" "ghp_token" "2025-07-01" [] (Scenario.demo true)
       Scenario.healthy
     = (Ok [skipped_outcome "demo"], Scenario.healthy).
Proof.
  pose proof (archived_repository_is_skipped (Scenario.demo true) Scenario.healthy
                eq_refl) as (Hkeep & Hone & Hturn & _).
  destruct (Hone "demo" "https://github.com/acme/demo.git"
              "arn:aws:secretsmanager:token" "ghp_token") as [Hout Haudit];
    try reflexivity.
  { by eexists. }
  { intros e He. vm_compute in He. discriminate He. }
  split; [exact Hout|]. split; [reflexivity|]. split; [by rewrite Haudit|].
  split; [exact Hkeep|].
  apply (Hturn "demo" "acme-backups" "ghp_token" "2025-07-01" [] Scenario.healthy).
  reflexivity.
Defined.

(** C6, as stated, fails: the snapshot is archived, the secret store
    refuses the token, which the handler fetches before it looks at the
    archived flag, and the outcome is a failure that carries no
    [skipped] field. *)
Lemma archived_repository_without_token_is_not_skipped :
  let event := Scenario.demo true in
  let r := lambda_handler event Scenario.no_token in
  ev_archived event = Some (JBool true)
  /\ outcome_field (fst r) "repository" = Some (JStr "demo")
  /\ outcome_field (fst r) "skipped" = None
  /\ outcome_field (fst r) "success" = Some (JBool false)
  /\ outcome_field (fst r) "error"
     = Some (JStr "An error occurred (AccessDeniedException) when calling the GetSecretValue operation")
  /\ outcome_field (fst r) "error_category" = Some (JStr "UNKNOWN").
Proof. repeat split; vm_compute; reflexivity. Qed.

End Skipped.

(** ** Cold migration *)

Section ArchivalFacts.

Import Archival.

Lemma string_length_app (a b : string) :
  String.length (a +:+ b) = (String.length a + String.length b)%nat.
Proof. induction a as [|c a IH]; [done|]. rewrite app_cons. simpl. by rewrite IH. Qed.

Lemma metadata_key_differs (k : string) : metadata_key_of k <> k.
Proof.
  intros H. apply (f_equal String.length) in H.
  unfold metadata_key_of in H. rewrite !string_length_app in H. simpl in H. lia.
Qed.

Section Migration.

Variable glacier_vault : string.
Variable backup_info : BackupInfo.
Variable body : Body.
Variable st0 : Store.

Lemma step_inv (pc : Pc) (st : Store) :
  inv glacier_vault backup_info body st0 pc st ->
  inv glacier_vault backup_info body st0
    (fst (step glacier_vault backup_info pc st))
    (snd (step glacier_vault backup_info pc st)).
Proof.
  unfold inv. destruct pc as [|temp_file|id|id|o]; simpl.
  - intros [Hk Hc]. unfold download_fileobj, called. simpl.
    destruct (download_err st _) as [e|]; simpl.
    + split; [by left|]. exists 1%nat. split; [by rewrite Hc|lia].
    + rewrite Hk. simpl. rewrite Hc. done.
  - intros (Hk & -> & Hc). unfold upload_archive, called. simpl.
    destruct (upload_ans st _) as [id|e]; simpl.
    + rewrite lookup_insert_eq, Hc, <- app_assoc. done.
    + split; [by left|]. exists 2%nat. split; [by rewrite Hc, <- app_assoc|lia].
  - intros (Hk & Hv & Hc).
    unfold bind, now, size_of, put_object, called, ret, raise. simpl.
    destruct (b_size backup_info) as [size|] eqn:Hsize; simpl.
    + destruct (put_err st _) as [e|]; simpl.
      * split; [by left|]. exists 3%nat. split; [by rewrite Hc, <- app_assoc|lia].
      * rewrite lookup_insert_ne by apply metadata_key_differs.
        split; [done|]. split; [|by rewrite Hc, <- app_assoc].
        eexists. simpl. rewrite lookup_insert_eq. split; [reflexivity|].
        simpl. done.
    + split; [by left|]. exists 2%nat. split; [by rewrite Hc|lia].
  - intros (Hk & Hr & Hc). unfold delete_object, called. simpl.
    assert (recorded body backup_info
              (set_s3 (delete (b_key backup_info) (s3 st))
                 {| s3 := s3 st; vault := vault st; download_err := download_err st;
                    upload_ans := upload_ans st; put_err := put_err st;
                    delete_err := delete_err st; clock := clock st;
                    ticks := ticks st;
                    calls := calls st ++ [DeleteObject (b_key backup_info)] |}))
      as Hr'.
    { destruct Hr as (r & Hm & Ho & Hsz & Hv). exists r. simpl.
      rewrite lookup_delete_ne; [done|].
      intros E. by apply (metadata_key_differs (b_key backup_info)). }
    destruct (delete_err st _) as [e|]; simpl.
    + split; [by left|]. exists 4%nat. split; [by rewrite Hc, <- app_assoc|].
      intros _. destruct Hr as (r & Hm & Ho & Hsz & Hv). by exists r.
    + split; [by right|]. exists 4%nat. split; [by rewrite Hc, <- app_assoc|done].
  - done.
Qed.

Lemma run_inv (n : nat) : forall (pc : Pc) (st : Store),
  inv glacier_vault backup_info body st0 pc st ->
  inv glacier_vault backup_info body st0
    (fst (run n glacier_vault backup_info pc st))
    (snd (run n glacier_vault backup_info pc st)).
Proof.
  induction n as [|n IH]; intros pc st H; [done|].
  simpl. pose proof (step_inv pc st H) as Hs.
  destruct (step glacier_vault backup_info pc st) as [pc' st']. by apply IH.
Qed.

End Migration.

Section MigrationFacts.

Variable glacier_vault : string.
Variable backup_info : BackupInfo.

(** Four steps are the whole function. *)
Lemma archive_single_backup_is_run_4 (bucket : string) (st : Store) :
  exists outcome,
    archive_single_backup bucket glacier_vault backup_info st
    = (Ok outcome, snd (run 4 glacier_vault backup_info AtDownload st))
    /\ fst (run 4 glacier_vault backup_info AtDownload st) = Finished outcome.
Proof.
  cbv [archive_single_backup try_except bind now size_of ret raise run step].
  destruct (download_fileobj (b_key backup_info) st) as [[temp_file|e] st1];
    [|eexists; split; reflexivity].
  destruct (upload_archive glacier_vault _ temp_file st1) as [[id|e] st2];
    [|eexists; split; reflexivity].
  destruct (b_size backup_info) as [size|]; [|eexists; split; reflexivity].
  destruct (put_object _ _ _) as [[[]|e] st5]; [|eexists; split; reflexivity].
  destruct (delete_object _ st5) as [[[]|e] st6]; eexists; split; reflexivity.
Qed.

End MigrationFacts.

Section MigrationOrder.

Variable glacier_vault : string.
Variable backup_info : BackupInfo.

Lemma delete_is_fourth (m : nat) :
  DeleteObject (b_key backup_info)
    ∈ take m (planned_calls glacier_vault (b_key backup_info)) ->
  (4 <= m)%nat.
Proof.
  destruct m as [|[|[|[|m]]]]; simpl; intros H; [..|lia];
    repeat (apply elem_of_cons in H as [H|H]; [discriminate H|]);
    by apply elem_of_nil in H.
Qed.

(** C7: a migration of an object that is in the hot tier makes its calls
    in the order download, upload to the vault, write of the archive
    record, delete of the hot object, and stops at the first that
    fails; wherever it is stopped ([run n] for any [n]), the calls made
    are the first so many of that list, the delete is among them only
    if the record is in the bucket and names an archive holding the
    content, and the content can be addressed, in the hot tier or
    through the record.  Four steps are the function itself. *)
Theorem migration_deletes_hot_object_last
    (bucket : string) (body : Body) (st : Store) (n : nat) :
  s3 st !! b_key backup_info = Some body ->
  let k := b_key backup_info in
  let st' := snd (run n glacier_vault backup_info AtDownload st) in
  (exists m, calls st' = calls st ++ take m (planned_calls glacier_vault k)
             /\ (DeleteObject k ∈ take m (planned_calls glacier_vault k) ->
                 recorded body backup_info st'))
  /\ addressable body backup_info st'
  /\ exists outcome,
       archive_single_backup bucket glacier_vault backup_info st
       = (Ok outcome, snd (run 4 glacier_vault backup_info AtDownload st))
       /\ fst (run 4 glacier_vault backup_info AtDownload st) = Finished outcome.
Proof.
  intros Hk k st'.
  pose proof (run_inv glacier_vault backup_info body st n AtDownload st
                (conj Hk eq_refl)) as Hinv.
  fold st' in Hinv. unfold Archival.inv in Hinv.
  split; [|split; [|apply archive_single_backup_is_run_4]].
  - destruct (run n glacier_vault backup_info AtDownload st).1
      as [|temp_file|id|id|o].
    + destruct Hinv as [_ Hc]. exists 0%nat. rewrite Hc, app_nil_r.
      split; [done|]. intros H%delete_is_fourth. lia.
    + destruct Hinv as (_ & _ & Hc). exists 1%nat.
      split; [done|]. intros H%delete_is_fourth. lia.
    + destruct Hinv as (_ & _ & Hc). exists 2%nat.
      split; [done|]. intros H%delete_is_fourth. lia.
    + destruct Hinv as (_ & Hr & Hc). exists 3%nat. done.
    + destruct Hinv as (_ & m & Hc & Hr). exists m.
      split; [done|]. intros H%delete_is_fourth. auto.
  - destruct (run n glacier_vault backup_info AtDownload st).1
      as [|temp_file|id|id|o].
    + left. apply Hinv.
    + left. apply Hinv.
    + left. apply Hinv.
    + left. apply Hinv.
    + apply Hinv.
Qed.

End MigrationOrder.

(** The example migration, stopped after two calls and run to its end. *)
Lemma migration_deletes_hot_object_last_witness :
  let k := b_key ArchivalScenario.old_backup in
  let stopped := snd (run 2 "backups" ArchivalScenario.old_backup AtDownload
                        ArchivalScenario.store) in
  let finished := snd (run 4 "backups" ArchivalScenario.old_backup AtDownload
                         ArchivalScenario.store) in
  addressable (Blob "tarball") ArchivalScenario.old_backup stopped
  /\ addressable (Blob "tarball") ArchivalScenario.old_backup finished
  /\ s3 stopped !! k = Some (Blob "tarball")
  /\ s3 finished !! k = None
  /\ calls finished = planned_calls "backups" k.
Proof.
  split; [|split].
  - apply (migration_deletes_hot_object_last "backups" ArchivalScenario.old_backup
             "acme-backups" (Blob "tarball") ArchivalScenario.store 2).
    vm_compute. reflexivity.
  - apply (migration_deletes_hot_object_last "backups" ArchivalScenario.old_backup
             "acme-backups" (Blob "tarball") ArchivalScenario.store 4).
    vm_compute. reflexivity.
  - repeat split; vm_compute; reflexivity.
Defined.

End ArchivalFacts.

(** ** Access validation *)

Section Access.

Import Backup.

(** C10: the access check before the clone fails open.  It never
    raises; it answers [False] exactly when the clone URL yields an API
    address and the API answers 404 or 403 for it; a clone URL that
    yields no address, an exception raised by the request, and any other
    status code give [True]; and the orchestrator goes on to the clone
    when the answer is [True] and raises its "not accessible" error only
    when it is [False]. *)
Theorem validate_repository_access_fails_open
    (repo_info : RepoInfo) (token : string) (w : World) :
  exists accessible,
    fst (validate_repository_access repo_info token w) = Ok accessible
    /\ (accessible = false <->
        exists api_url,
          api_url_of (r_clone_url repo_info) = Some api_url
          /\ (github w api_url token = Ok 404 \/ github w api_url token = Ok 403))
    /\ (api_url_of (r_clone_url repo_info) = None -> accessible = true)
    /\ (forall api_url e,
          api_url_of (r_clone_url repo_info) = Some api_url ->
          github w api_url token = Raise e -> accessible = true)
    /\ (forall api_url status_code,
          api_url_of (r_clone_url repo_info) = Some api_url ->
          github w api_url token = Ok status_code ->
          status_code <> 404 -> status_code <> 403 -> accessible = true)
    /\ fst (ensure_accessible repo_info token w)
       = if accessible then Ok tt else Raise (not_accessible repo_info).
Proof.
  cut (exists accessible,
    fst (validate_repository_access repo_info token w) = Ok accessible
    /\ (accessible = false <->
        exists api_url,
          api_url_of (r_clone_url repo_info) = Some api_url
          /\ (github w api_url token = Ok 404 \/ github w api_url token = Ok 403))
    /\ (api_url_of (r_clone_url repo_info) = None -> accessible = true)
    /\ (forall api_url e,
          api_url_of (r_clone_url repo_info) = Some api_url ->
          github w api_url token = Raise e -> accessible = true)
    /\ (forall api_url status_code,
          api_url_of (r_clone_url repo_info) = Some api_url ->
          github w api_url token = Ok status_code ->
          status_code <> 404 -> status_code <> 403 -> accessible = true)).
  { intros (b & Hb & H1 & H2 & H3 & H4). exists b.
    repeat (split; [assumption|]).
    unfold ensure_accessible, bind.
    destruct (validate_repository_access repo_info token w) as [r w'].
    simpl in Hb. subst r. by destruct b. }
  unfold validate_repository_access, try_except, requests_get, bind, emit, modify, ret.
  destruct (api_url_of (r_clone_url repo_info)) as [api_url|] eqn:Hurl; simpl.
  - destruct (github w api_url token) as [code|e] eqn:Hgh; simpl.
    + destruct (code =? 200) eqn:E200; [apply Z.eqb_eq in E200|apply Z.eqb_neq in E200].
      * exists true. split; [done|]. split; [|by auto].
        split; [done|]. intros (u & [= <-] & [H|H]); rewrite Hgh in H; simplify_eq.
      * destruct (code =? 404) eqn:E404;
          [apply Z.eqb_eq in E404|apply Z.eqb_neq in E404].
        { exists false. split; [done|]. split.
          - split; [|done]. intros _. exists api_url. subst. auto.
          - repeat split; try done; intros; simplify_eq; congruence. }
        destruct (code =? 403) eqn:E403;
          [apply Z.eqb_eq in E403|apply Z.eqb_neq in E403].
        { exists false. split; [done|]. split.
          - split; [|done]. intros _. exists api_url. subst. auto.
          - repeat split; try done; intros; simplify_eq; congruence. }
        exists true. split; [done|]. split; [|by auto].
        split; [done|]. intros (u & [= <-] & [H|H]); rewrite Hgh in H; simplify_eq.
    + exists true. split; [done|]. split; [|by auto].
      split; [done|]. intros (u & [= <-] & [H|H]); rewrite Hgh in H; simplify_eq.
  - exists true. split; [done|]. split; [|by auto].
    split; [done|]. intros (u & H & _). discriminate H.
Qed.

(** The demo repository: 500 from the API lets the backup go on, 404
    stops it. *)
Lemma validate_repository_access_fails_open_witness :
  fst (validate_repository_access Scenario.demo_info "ghp_token"
         (Scenario.api_answers 500)) = Ok true
  /\ fst (validate_repository_access Scenario.demo_info "ghp_token"
            (Scenario.api_answers 404)) = Ok false.
Proof.
  split.
  - destruct (validate_repository_access_fails_open Scenario.demo_info "ghp_token"
                (Scenario.api_answers 500)) as (b & Hb & _ & _ & _ & Hother & _).
    rewrite Hb. f_equal.
    apply (Hother "https://api.github.com/repos/acme/demo" 500);
      [reflexivity|reflexivity|lia|lia].
  - destruct (validate_repository_access_fails_open Scenario.demo_info "ghp_token"
                (Scenario.api_answers 404)) as (b & Hb & [_ Hfalse] & _).
    rewrite Hb. f_equal. apply Hfalse.
    exists "https://api.github.com/repos/acme/demo". split; [reflexivity|].
    left. reflexivity.
Defined.

(** In the orchestrator the answer [False] ends the backup before any
    call to git, and an API that cannot be reached does not. *)
Example refused_repository_is_not_cloned :
  let r := lambda_handler (Scenario.demo false) (Scenario.api_answers 404) in
  outcome_field (fst r) "success" = Some (JBool false)
  /\ outcome_field (fst r) "error"
     = Some (JStr "Failed to backup demo: Repository demo is not accessible with current token")
  /\ effects (snd r)
     = [ EMakedirs "/tmp/demo_1751409185";
         EHttpGet "https://api.github.com/repos/acme/demo";
         ERmtree "/tmp/demo_1751409185" ].
Proof. repeat split; vm_compute; reflexivity. Qed.

Example unreachable_api_lets_the_backup_proceed :
  let r := lambda_handler (Scenario.demo false) Scenario.api_unreachable in
  outcome_field (fst r) "success" = Some (JBool true)
  /\ outcome_field (fst r) "s3_key"
     = Some (JStr "nightly/demo/2025-07-01-22-34.tar.gz").
Proof. repeat split; vm_compute; reflexivity. Qed.

End Access.

(** ** Retrieval state machine *)

Section RetrievalFacts.

Import Retrieval.

Lemma steady_ret {A} (a : A) : steady (ret a).
Proof. by intros s. Qed.

Lemma steady_raise {A} (e : exn) : steady (@raise Svc A e).
Proof. by intros s. Qed.

Lemma steady_bind {A B} (c : M Svc A) (k : A -> M Svc B) :
  steady c -> (forall a, steady (k a)) -> steady (bind c k).
Proof.
  intros Hc Hk s. unfold bind. specialize (Hc s).
  destruct (c s) as [[a|e] s1]; [|exact Hc].
  simpl in Hc. rewrite <- Hc. apply Hk.
Qed.

Lemma steady_try_except {A} (body : M Svc A) (handler : exn -> M Svc A) :
  steady body -> (forall e, steady (handler e)) -> steady (try_except body handler).
Proof.
  intros Hb Hh s. unfold try_except. specialize (Hb s).
  destruct (body s) as [[a|e] s1]; [exact Hb|].
  simpl in Hb. rewrite <- Hb. apply Hh.
Qed.

Lemma steady_try_except_only {A} (sel : exn -> bool) (body : M Svc A)
    (handler : exn -> M Svc A) :
  steady body -> (forall e, steady (handler e)) ->
  steady (try_except_only sel body handler).
Proof.
  intros Hb Hh. apply steady_try_except; [done|].
  intros e. destruct (sel e); [apply Hh|apply steady_raise].
Qed.

Lemma steady_now : steady now.
Proof. by intros s. Qed.

Lemma steady_environ_get (k : string) : steady (environ_get k).
Proof. intros s. unfold environ_get. by destruct (environ s !! k). Qed.

Lemma steady_update_download_status (id status : string)
    (details : option (gmap string Scalar)) (error : option string) :
  steady (update_download_status id status details error).
Proof.
  intros s. unfold update_download_status, bind, now. simpl.
  destruct (download_put_err s) as [e|]; [destruct (is_client_error e)|]; done.
Qed.

Lemma steady_log_restore_event (r k t id : string) : steady (log_restore_event r k t id).
Proof.
  intros s. unfold log_restore_event, bind, now. simpl.
  destruct (events_put_err s) as [e|]; [destruct (is_client_error e)|]; done.
Qed.

Lemma steady_s3_head_object (k : string) : steady (s3_head_object k).
Proof. by intros s. Qed.

Lemma steady_s3_restore_object (k : string) (d : Z) (t : string) :
  steady (s3_restore_object k d t).
Proof. intros s. unfold s3_restore_object. by destruct (restore_err s k t). Qed.

Lemma steady_s3_generate_presigned_url (k d : string) (n : Z) :
  steady (s3_generate_presigned_url k d n).
Proof. by intros s. Qed.

Lemma steady_mark_failed {A} (id : string) (e : exn) : steady (@mark_failed A id e).
Proof.
  apply steady_bind; [apply steady_update_download_status|intros _; apply steady_raise].
Qed.

Ltac steady :=
  repeat first
    [ apply steady_ret | apply steady_raise | apply steady_now
    | apply steady_environ_get | apply steady_update_download_status
    | apply steady_log_restore_event | apply steady_s3_head_object
    | apply steady_s3_restore_object | apply steady_s3_generate_presigned_url
    | apply steady_mark_failed
    | apply steady_bind; [|intros ?]
    | apply steady_try_except_only; [|intros ?]
    | apply steady_try_except; [|intros ?]
    | match goal with |- steady (match ?x with _ => _ end) => destruct x end
    | match goal with |- steady (if ?b then _ else _) => destruct b end ].

Lemma steady_handle_s3_download (id k : string) : steady (handle_s3_download id k).
Proof. unfold handle_s3_download, handle_s3_download_body. steady. Qed.

Lemma steady_handle_glacier_download_body (id k r : string) :
  steady (handle_glacier_download_body id k r).
Proof.
  unfold handle_glacier_download_body. steady; try apply steady_handle_s3_download.
Qed.

(** The row of a failed operation. *)
Lemma updated_item_failed (t : Z) (msg : string) (item : gmap string Val) :
  msg <> EmptyString ->
  updated_item "failed" t None (Some msg) item !! "status" = Some (VScalar (SStr "failed"))
  /\ updated_item "failed" t None (Some msg) item !! "error" = Some (VScalar (SStr msg)).
Proof.
  intros Hmsg. unfold updated_item. destruct msg as [|c msg]; [done|].
  split.
  - rewrite lookup_insert_ne by done. rewrite lookup_insert_ne by done.
    apply lookup_insert_eq.
  - apply lookup_insert_eq.
Qed.

Lemma mark_failed_spec {A} (id : string) (e : exn) (s : Svc) :
  download_put_err s = None ->
  exists s' t item,
    @mark_failed A id e s = (Raise e, s')
    /\ download_table s' !! id
       = Some (updated_item "failed" t None (Some (exn_str e)) item).
Proof.
  intros Hput.
  unfold mark_failed, update_download_status, bind, now, raise. simpl. rewrite Hput.
  eexists _, _, _. split; [reflexivity|]. simpl. by rewrite lookup_insert_eq.
Qed.

Lemma restore_failure_is_recorded (id k r : string) (s s' : Svc) (e : exn) :
  download_put_err s = None ->
  handle_glacier_download id k r s = (Raise e, s') ->
  exn_str e <> EmptyString ->
  exists item,
    download_table s' !! id = Some item
    /\ item !! "status" = Some (VScalar (SStr "failed"))
    /\ item !! "error" = Some (VScalar (SStr (exn_str e))).
Proof.
  intros Hput Hrun Hmsg. unfold handle_glacier_download, try_except in Hrun.
  pose proof (steady_handle_glacier_download_body id k r s) as Hst.
  destruct (handle_glacier_download_body id k r s) as [[x|e0] s1]; [discriminate Hrun|].
  assert (download_put_err s1 = None) as Hput1.
  { simpl in Hst. unfold services in Hst. simplify_eq. congruence. }
  destruct (mark_failed_spec (A := gmap string Scalar) id e0 s1 Hput1)
    as (s2 & t & item & Hm & Hi).
  rewrite Hm in Hrun. injection Hrun as -> ->.
  eexists. split; [exact Hi|]. by apply updated_item_failed.
Qed.

Lemma quiet_ret {A} (a : A) : quiet (ret a).
Proof. by intros s. Qed.

Lemma quiet_raise {A} (e : exn) : quiet (@raise Svc A e).
Proof. by intros s. Qed.

Lemma quiet_bind {A B} (c : M Svc A) (k : A -> M Svc B) :
  quiet c -> (forall a, quiet (k a)) -> quiet (bind c k).
Proof.
  intros Hc Hk s. unfold bind. specialize (Hc s).
  destruct (c s) as [[a|e] s1]; [|exact Hc].
  simpl in Hc. rewrite <- Hc. apply Hk.
Qed.

Lemma quiet_is_quiet_on_raise {A} (c : M Svc A) : quiet c -> quiet_on_raise c.
Proof. intros H s e s' Hrun. specialize (H s). by rewrite Hrun in H. Qed.

(** After a quiet start, what matters is the rest. *)
Lemma quiet_on_raise_bind {A B} (c : M Svc A) (k : A -> M Svc B) :
  quiet c -> (forall a, quiet_on_raise (k a)) -> quiet_on_raise (bind c k).
Proof.
  intros Hc Hk s e s' Hrun. unfold bind in Hrun. specialize (Hc s).
  destruct (c s) as [[a|e0] s1]; simpl in Hc.
  - rewrite <- Hc. by eapply Hk.
  - by simplify_eq.
Qed.

(** A start that may write, followed by something that cannot raise. *)
Lemma quiet_on_raise_then_total {A B} (c : M Svc A) (k : A -> M Svc B) :
  quiet_on_raise c -> (forall a, total (k a)) -> quiet_on_raise (bind c k).
Proof.
  intros Hc Hk s e s' Hrun. unfold bind in Hrun.
  destruct (c s) as [[a|e0] s1] eqn:Hcs.
  - destruct (Hk a s1) as (b & s2 & Hks). rewrite Hks in Hrun. discriminate Hrun.
  - simplify_eq. by eapply Hc.
Qed.

Lemma quiet_on_raise_try_except_only {A} (sel : exn -> bool) (body : M Svc A)
    (handler : exn -> M Svc A) :
  quiet_on_raise body -> (forall e, quiet (handler e)) ->
  quiet_on_raise (try_except_only sel body handler).
Proof.
  intros Hb Hh s e s' Hrun. unfold try_except_only, try_except in Hrun.
  destruct (body s) as [[a|e0] s1] eqn:Hbs; [discriminate Hrun|].
  rewrite <- (Hb s e0 s1 Hbs).
  destruct (sel e0).
  - specialize (Hh e0 s1). by rewrite Hrun in Hh.
  - unfold raise in Hrun. by simplify_eq.
Qed.

Lemma quiet_get_download_item (id : string) : quiet (get_download_item id).
Proof. intros s. unfold get_download_item. by destruct (download_get_err s). Qed.

Lemma quiet_details_get (k : string) (item : gmap string Val) :
  quiet (details_get k item).
Proof. intros s. unfold details_get. by repeat case_match. Qed.

Lemma quiet_as_key (x : Scalar) : quiet (as_key x).
Proof. intros s. by destruct x. Qed.

Lemma quiet_environ_get (k : string) : quiet (environ_get k).
Proof. intros s. unfold environ_get. by destruct (environ s !! k). Qed.

Lemma quiet_s3_head_object (k : string) : quiet (s3_head_object k).
Proof. by intros s. Qed.

Lemma quiet_s3_generate_presigned_url (k d : string) (n : Z) :
  quiet (s3_generate_presigned_url k d n).
Proof. by intros s. Qed.

Lemma quiet_now : quiet now.
Proof. by intros s. Qed.

Lemma quiet_on_raise_update_download_status (id status : string)
    (details : option (gmap string Scalar)) (error : option string) :
  quiet_on_raise (update_download_status id status details error).
Proof.
  intros s e s'. unfold update_download_status, bind, now. simpl.
  destruct (download_put_err s) as [x|]; [destruct (is_client_error x)|];
    intros H; by simplify_eq.
Qed.

Lemma total_ret {A} (a : A) : total (@ret Svc A a).
Proof. intros s. by eexists _, _. Qed.

Ltac quiet :=
  repeat first
    [ apply quiet_ret | apply quiet_raise | apply quiet_now
    | apply quiet_get_download_item | apply quiet_details_get | apply quiet_as_key
    | apply quiet_environ_get | apply quiet_s3_head_object
    | apply quiet_s3_generate_presigned_url
    | apply quiet_bind; [|intros ?]
    | match goal with |- quiet (match ?x with _ => _ end) => destruct x end
    | match goal with |- quiet (if ?b then _ else _) => destruct b end ].

Ltac quiet_on_raise :=
  repeat first
    [ apply quiet_on_raise_update_download_status
    | apply quiet_on_raise_try_except_only; [|intros ?; quiet]
    | apply quiet_on_raise_bind; [solve [quiet]|intros ?]
    | apply quiet_on_raise_then_total; [|intros ?; apply total_ret]
    | match goal with |- quiet_on_raise (match ?x with _ => _ end) => destruct x end
    | match goal with |- quiet_on_raise (if ?b then _ else _) => destruct b end
    | apply quiet_is_quiet_on_raise; solve [quiet] ].

(** Whatever the body of the poll raises, the table is as it was. *)
Lemma poll_failure_keeps_table (job id : string) :
  quiet_on_raise (check_glacier_job_status_body job id).
Proof. unfold check_glacier_job_status_body. quiet_on_raise. Qed.

Lemma get_download_status_completed (download_id : string) (item : gmap string Val)
    (s : Svc) :
  download_table s !! download_id = Some item ->
  item !! "status" = Some (VScalar (SStr "completed")) ->
  snd (get_download_status download_id s) = s
  /\ (download_get_err s = None -> download_id <> EmptyString ->
      fst (get_download_status download_id s) = Ok (ok_response item)).
Proof.
  intros Hitem Hstatus.
  unfold get_download_status, try_except, bind, get_download_item, ret.
  case_bool_decide as Hid; [done|].
  destruct (download_get_err s) as [e|]; [done|].
  rewrite Hitem. unfold is_str. rewrite Hstatus.
  rewrite andb_false_r. done.
Qed.

(** C9: for a stored operation whose status is completed, two polls in
    a row give the same answer and leave the state of the service as
    it was, so that no row is written and no handle is signed; the
    answer is the stored row itself, status and handle included, when
    the table can be read. *)
Theorem completed_poll_is_stable (download_id : string) (item : gmap string Val)
    (s : Svc) :
  download_table s !! download_id = Some item ->
  item !! "status" = Some (VScalar (SStr "completed")) ->
  let first := get_download_status download_id s in
  let second := get_download_status download_id (snd first) in
  fst first = fst second
  /\ snd first = s /\ snd second = s
  /\ (download_get_err s = None -> download_id <> EmptyString ->
      fst first = Ok (ok_response item)).
Proof.
  intros Hitem Hstatus first second.
  destruct (get_download_status_completed download_id item s Hitem Hstatus)
    as [Hstate Hresp].
  unfold second, first. rewrite Hstate. done.
Qed.

(** The completed operation of the example, polled twice. *)
Lemma completed_poll_is_stable_witness :
  let s := RetrievalScenario.polling_completed in
  let first := get_download_status "op-3" s in
  let second := get_download_status "op-3" (snd first) in
  fst first = fst second
  /\ fst first = Ok (ok_response RetrievalScenario.completed_item)
  /\ s3_calls (snd second) = [].
Proof.
  intros s first second.
  destruct (completed_poll_is_stable "op-3" RetrievalScenario.completed_item s)
    as (Hsame & H1 & H2 & Hresp); [reflexivity|reflexivity|].
  split; [exact Hsame|]. split.
  - apply Hresp; [reflexivity|discriminate].
  - unfold second, first. rewrite H1. reflexivity.
Defined.

(** No frame of [handle_glacier_download] binds [request_body]. *)
Lemma glacier_frame_has_no_request_body (restore_status : option string) :
  lookup_local "request_body" (glacier_frame restore_status) = None.
Proof. by destruct restore_status. Qed.

(** C2, the code at a request the claim covers: the backup is in the
    cold tier, no restore has been asked for, and the caller asks for
    the tier Bulk, whose published estimate is "5-12 hours".  The
    restore is issued at the tier Standard and the estimate returned
    and stored is "3-5 hours": [handle_glacier_download] looks for the
    request among its own local variables, where it is not.  The
    operation is in_progress, and a poll leaves it so. *)
Theorem bulk_request_is_restored_at_standard_tier :
  let s := RetrievalScenario.cold in
  let r := initiate_download RetrievalScenario.bulk_request s in
  let polled := get_download_status "op-0" (snd r) in
  RetrievalScenario.bulk_request !! "retrieval_tier" = Some "Bulk"
  /\ completion_time "Bulk" = "5-12 hours"
  /\ s3_calls (snd r)
     = [ HeadObject RetrievalScenario.key;
         RestoreObject RetrievalScenario.key 7 "Standard" ]
  /\ response_code (fst r) = Some 200
  /\ response_field (fst r) "download_id" = str "op-0"
  /\ response_field (fst r) "status" = str "in_progress"
  /\ detail (response_field (fst r) "details") "restore_tier" = Some (SStr "Standard")
  /\ detail (response_field (fst r) "details") "estimated_completion"
     = Some (SStr "3-5 hours")
  /\ stored_field (snd r) "op-0" "status" = str "in_progress"
  /\ detail (stored_field (snd r) "op-0" "details") "restore_tier"
     = Some (SStr "Standard")
  /\ detail (stored_field (snd r) "op-0" "details") "estimated_completion"
     = Some (SStr "3-5 hours")
  /\ response_field (fst polled) "status" = str "in_progress"
  /\ stored_field (snd polled) "op-0" "status" = str "in_progress".
Proof. repeat split; vm_compute; reflexivity. Qed.

(** C3, as stated, fails: the operation is in progress, S3 answers the
    poll with an error that is not NotFound, and the poll answers
    status in_progress with no error; the stored row is not touched. *)
Lemma poll_failure_is_answered_in_progress :
  let s := RetrievalScenario.polling_in_outage in
  let r := get_download_status "op-7" s in
  stored_field s "op-7" "status" = str "in_progress"
  /\ head_object s RetrievalScenario.key
     = Raise (Exn (ClientError "ServiceUnavailable")
                "An error occurred (ServiceUnavailable) when calling the HeadObject operation")
  /\ s3_calls (snd r) = [HeadObject RetrievalScenario.key]
  /\ response_code (fst r) = Some 200
  /\ response_field (fst r) "status" = str "in_progress"
  /\ response_field (fst r) "error" = None
  /\ stored_field (snd r) "op-7" "status" = str "in_progress"
  /\ stored_field (snd r) "op-7" "error" = None.
Proof. repeat split; vm_compute; reflexivity. Qed.

(** The object is gone: S3 answers [head_object] with the code 404,
    which is not the code NotFound the poll looks for, and the poll
    answers in_progress like for any other error; the row stays
    in_progress. *)
Lemma missing_object_is_answered_in_progress :
  let s := RetrievalScenario.polling_missing_object in
  let r := get_download_status "op-7" s in
  is_missing_object
    (Exn (ClientError "404")
       "An error occurred (404) when calling the HeadObject operation: Not Found") = true
  /\ head_object s RetrievalScenario.key
     = Raise (Exn (ClientError "404")
                "An error occurred (404) when calling the HeadObject operation: Not Found")
  /\ response_field (fst r) "status" = str "in_progress"
  /\ response_field (fst r) "error" = None
  /\ stored_field (snd r) "op-7" "status" = str "in_progress"
  /\ stored_field (snd r) "op-7" "error" = None.
Proof. repeat split; vm_compute; reflexivity. Qed.

Lemma poll_failure_is_in_progress (job_id download_id : string) (s s' : Svc) (e : exn) :
  check_glacier_job_status_body job_id download_id s = (Raise e, s') ->
  check_glacier_job_status job_id download_id s
  = (Ok (Some {[ "status" := SStr "in_progress" ]}), s')
  /\ download_table s' = download_table s.
Proof.
  intros Hrun. split.
  - unfold check_glacier_job_status, try_except. by rewrite Hrun.
  - by eapply poll_failure_keeps_table.
Qed.

(** C3, as amended: an unexpected failure during the restore
    ([handle_glacier_download] raising [e], with the download table
    accepting writes) leaves the stored operation with status failed
    and with [str(e)], when it is not empty, as its error; an
    unexpected failure inside the poll ([check_glacier_job_status])
    that is not the error of a missing object is caught and answered
    with status in_progress, the download table left as it was.  What
    the poll does when the object is missing is left out. *)
Theorem failures_of_restore_and_poll (download_id : string) (s : Svc) :
  (forall archive_id repository_name e s',
     download_put_err s = None ->
     handle_glacier_download download_id archive_id repository_name s = (Raise e, s') ->
     exn_str e <> EmptyString ->
     stored_field s' download_id "status" = str "failed"
     /\ stored_field s' download_id "error" = str (exn_str e))
  /\ (forall job_id e s',
        check_glacier_job_status_body job_id download_id s = (Raise e, s') ->
        is_missing_object e = false ->
        check_glacier_job_status job_id download_id s
        = (Ok (Some {[ "status" := SStr "in_progress" ]}), s')
        /\ download_table s' = download_table s).
Proof.
  split.
  - intros archive_id repository_name e s' Hput Hrun Hmsg.
    destruct (restore_failure_is_recorded _ _ _ _ _ _ Hput Hrun Hmsg)
      as (item & Hitem & Hstatus & Herror).
    unfold stored_field. rewrite Hitem. simpl. done.
  - intros job_id e s' Hrun _. by apply (poll_failure_is_in_progress _ _ _ _ e).
Qed.

(** An outage of S3 during the restore and during the poll. *)
Lemma failures_of_restore_and_poll_witness :
  let outage := RetrievalScenario.svc ∅ RetrievalScenario.s3_unavailable in
  let restore := handle_glacier_download "op-0" RetrievalScenario.key "demo" outage in
  stored_field (snd restore) "op-0" "status" = str "failed"
  /\ stored_field (snd restore) "op-0" "error"
     = str "An error occurred (ServiceUnavailable) when calling the HeadObject operation"
  /\ fst (check_glacier_job_status "job-1" "op-7" RetrievalScenario.polling_in_outage)
     = Ok (Some {[ "status" := SStr "in_progress" ]}).
Proof.
  intros outage restore.
  assert (restore
          = (Raise (Exn (ClientError "ServiceUnavailable")
                      "An error occurred (ServiceUnavailable) when calling the HeadObject operation"),
             snd restore)) as Hrun.
  { transitivity (fst restore, snd restore); [apply surjective_pairing|].
    apply (f_equal (fun x => (x, snd restore))). vm_compute. reflexivity. }
  destruct (proj1 (failures_of_restore_and_poll "op-0" outage)
              RetrievalScenario.key "demo" _ _ eq_refl Hrun) as [H1 H2].
  { discriminate. }
  split; [exact H1|]. split; [exact H2|].
  assert (check_glacier_job_status_body "job-1" "op-7"
            RetrievalScenario.polling_in_outage
          = (Raise (Exn (ClientError "ServiceUnavailable")
                      "An error occurred (ServiceUnavailable) when calling the HeadObject operation"),
             snd (check_glacier_job_status_body "job-1" "op-7"
                    RetrievalScenario.polling_in_outage))) as Hbody.
  { etransitivity; [apply surjective_pairing|].
    apply (f_equal (fun x => (x, _))). vm_compute. reflexivity. }
  destruct (proj2 (failures_of_restore_and_poll "op-7"
                     RetrievalScenario.polling_in_outage)
              "job-1" _ _ Hbody eq_refl) as [Hpoll _].
  rewrite Hpoll. reflexivity.
Defined.

End RetrievalFacts.

(** ** Reclamation pass: what it removes *)

Section Reclaim.

Import Backup.

Variable base : string.

Lemma Qltb_intro (x y : Q) : (x < y)%Q -> Qltb x y = true.
Proof.
  intros H. unfold Qltb. apply negb_true_iff.
  destruct (Qle_bool y x) eqn:E; [|done].
  apply Qle_bool_iff in E. lra.
Qed.

Lemma an_hour_older (ct mtime : Q) :
  (mtime + 3600 < ct)%Q -> Qltb 1 ((ct - mtime) / inject_Z 3600) = true.
Proof.
  intros H. apply Qltb_intro.
  apply (Qmult_lt_r _ _ (inject_Z 3600)); [reflexivity|].
  rewrite Qmult_1_l. unfold Qdiv. rewrite <- Qmult_assoc.
  rewrite (Qmult_comm (/ _)). rewrite Qmult_inv_r by discriminate.
  rewrite Qmult_1_r. change (inject_Z 3600) with (3600%Q). lra.
Qed.

(** Names only leave the listing of [base] during a pass. *)
Lemma cleanup_item_shrinks (ct : Q) (count : Z) (e : DirEntry) (w : World) (n : string) :
  n ∉ e_name <$> listing base w ->
  n ∉ e_name <$> listing base (snd (cleanup_item base ct count e w)).
Proof.
  intros Hout.
  destruct (cleanup_item_spec base ct count e w) as (c & w' & -> & [Heq|(_ & Hne & Heq)]);
    simpl; unfold listing in *; rewrite Heq; [done|].
  rewrite listing_remove_entry by done.
  intros (x & -> & Hx%list_elem_of_filter)%list_elem_of_fmap.
  apply Hout, list_elem_of_fmap_2, Hx.
Qed.

Lemma for_each_cleanup_shrinks (ct : Q) (items : list DirEntry) (n : string) :
  forall (count : Z) (w : World),
  n ∉ e_name <$> listing base w ->
  n ∉ e_name <$> listing base (snd (for_each items count (cleanup_item base ct) w)).
Proof.
  induction items as [|e items IH]; intros count w Hout; [done|].
  simpl. unfold bind.
  pose proof (cleanup_item_shrinks ct count e w n Hout) as H1.
  destruct (cleanup_item_spec base ct count e w) as (c & w' & Hs & _).
  rewrite Hs in *. simpl in H1. by apply IH.
Qed.

Lemma cleanup_item_removes (ct : Q) (count : Z) (e : DirEntry) (w : World) :
  reclaimable ct e -> Py.path_join base (e_name e) <> base -> e_rmtree e = None ->
  e_name e ∉ e_name <$> listing base (snd (cleanup_item base ct count e w)).
Proof.
  intros (Hdir & Hus & mtime & Hm & Hold) Hne Hrm.
  unfold cleanup_item. rewrite Hdir, Hus. simpl.
  rewrite bool_decide_eq_false_2 by done. simpl.
  unfold try_except, bind, answer. rewrite Hm.
  rewrite an_hour_older by done.
  unfold rmtree_entry, bind, emit, modify, ret. rewrite Hrm. simpl.
  unfold listing. simpl. rewrite listing_remove_entry by done.
  intros (x & Hx & [Hx' _]%list_elem_of_filter)%list_elem_of_fmap. done.
Qed.

Lemma for_each_cleanup_removes (ct : Q) (items : list DirEntry) (e : DirEntry) :
  forall (count : Z) (w : World),
  e ∈ items ->
  reclaimable ct e -> Py.path_join base (e_name e) <> base -> e_rmtree e = None ->
  e_name e ∉ e_name <$> listing base (snd (for_each items count (cleanup_item base ct) w)).
Proof.
  induction items as [|x items IH]; intros count w Hin Hr Hne Hrm.
  - by apply elem_of_nil in Hin.
  - simpl. unfold bind.
    destruct (cleanup_item_spec base ct count x w) as (c & w' & Hs & _).
    apply elem_of_cons in Hin as [<-|Hin].
    + pose proof (cleanup_item_removes ct count e w Hr Hne Hrm) as H1.
      rewrite Hs in *. simpl in H1. by apply for_each_cleanup_shrinks.
    + rewrite Hs. by apply IH.
Qed.

Lemma long_stale_reclaimable (ct : Q) (e : DirEntry) :
  long_stale ct e -> reclaimable ct e.
Proof.
  intros (Hdir & Hus & mtime & Hm & Hold). repeat split; [done..|].
  exists mtime. split; [done|]. lra.
Qed.

(** The margin keeps the test of the age on the side of the exact one
    when the subtraction and the division are rounded. *)
Lemma rounded_age_is_over_an_hour (fl : Q -> Q) (ct mtime : Q) :
  rounds_as_double fl ->
  (mtime + 3600 + (1 # 1000000) <= ct)%Q ->
  Qltb 1 (fl (fl (ct - mtime) / inject_Z 3600))%Q = true.
Proof.
  intros Hfl Hold. apply Qltb_intro.
  assert (1 <= ct - mtime)%Q as H1 by lra.
  pose proof (Hfl _ H1) as Hx. apply Qabs_Qle_condition in Hx as [Hx _].
  set (x := fl (ct - mtime)%Q) in *.
  assert (3600 + (9 # 10000000) <= x)%Q as Hxl.
  { lra. }
  set (y := (x / inject_Z 3600)%Q).
  assert (1 + (2 # 10000000000) <= y)%Q as Hy.
  { unfold y. apply (Qmult_le_r _ _ (inject_Z 3600)); [reflexivity|].
    unfold Qdiv. rewrite <- Qmult_assoc, (Qmult_comm (/ _)).
    rewrite Qmult_inv_r by discriminate. rewrite Qmult_1_r.
    change (inject_Z 3600) with (3600%Q). lra. }
  assert (1 <= y)%Q as Hy1 by lra.
  pose proof (Hfl _ Hy1) as Hz. apply Qabs_Qle_condition in Hz as [Hz _].
  lra.
Qed.

(** X1: the reclamation pass is complete.  Every entry of the listing
    of [base_path] that is a directory with an underscore in its name,
    was modified more than an hour and a microsecond before the pass
    reads the clock and can be removed, is gone from the listing when
    the pass returns; and the pass returns normally.  The microsecond
    is a margin for the arithmetic of the code, which is in double
    precision: with it the age the code computes exceeds one hour
    under every rounding of the subtraction and of the division that
    has the relative error of doubles, as it does in exact
    arithmetic. *)
Theorem cleanup_removes_every_removable_directory (w : World) (e : DirEntry) :
  e ∈ listing base w ->
  long_stale (epoch (clock w (ticks w))) e ->
  Py.path_join base (e_name e) <> base ->
  e_rmtree e = None ->
  let r := cleanup_old_temp_directories base w in
  fst r = Ok tt
  /\ (e_name e ∉ e_name <$> listing base (snd r))
  /\ (forall fl mtime,
        rounds_as_double fl -> e_mtime e = Ok mtime ->
        Qltb 1 (fl (fl (epoch (clock w (ticks w)) - mtime) / inject_Z 3600))%Q = true).
Proof.
  intros Hin Hlong Hne Hrm. simpl.
  pose proof (long_stale_reclaimable _ _ Hlong) as Hr.
  assert (forall fl mtime,
            rounds_as_double fl -> e_mtime e = Ok mtime ->
            Qltb 1 (fl (fl (epoch (clock w (ticks w)) - mtime) / inject_Z 3600))%Q
            = true) as Hrounded.
  { intros fl mtime Hfl Hm. destruct Hlong as (_ & _ & m & Hm' & Hold).
    rewrite Hm in Hm'. injection Hm' as <-. by apply rounded_age_is_over_an_hour. }
  unfold cleanup_old_temp_directories, try_except, bind, os_path_exists,
    os_listdir, gets, now.
  case_bool_decide as Hex; simpl.
  - pose proof (for_each_cleanup_removes (epoch (clock w (ticks w)))
                  (default [] (tree w !! base)) e 0 (set_ticks (S (ticks w)) w)
                  Hin Hr Hne Hrm) as H.
    destruct (for_each_cleanup base (epoch (clock w (ticks w)))
                (default [] (tree w !! base)) 0 (set_ticks (S (ticks w)) w))
      as (c & w' & Hs & _).
    rewrite Hs in *. simpl in *. done.
  - unfold listing in Hin. destruct (tree w !! base) eqn:E; [|by apply elem_of_nil in Hin].
    exfalso. apply Hex. by eexists.
Qed.

End Reclaim.

Lemma cleanup_removes_every_removable_directory_witness :
  let r := Backup.cleanup_old_temp_directories "/tmp" Scenario.low_disk in
  fst r = Ok tt
  /\ "demo_1751400000" ∉ Backup.e_name <$> Backup.listing "/tmp" (snd r).
Proof.
  destruct (cleanup_removes_every_removable_directory "/tmp" Scenario.low_disk
              (Scenario.dir "demo_1751400000" 1751400000)) as (Hok & Hgone & _).
  - apply list_elem_of_here.
  - repeat split. exists (inject_Z 1751400000). split; [reflexivity|].
    vm_compute. discriminate.
  - discriminate.
  - reflexivity.
  - split; [exact Hok|exact Hgone].
Defined.

(** ** What a run of the engine preserves *)

Section Frames.

Import Backup.

Section Generic.

Context {A B : Type} (I : World -> Prop).

Lemma preserves_ret (a : A) : preserves I (ret a).
Proof. by intros w. Qed.

Lemma preserves_raise (e : exn) : preserves I (@raise World A e).
Proof. by intros w. Qed.

Lemma preserves_gets (f : World -> A) : preserves I (gets f).
Proof. by intros w. Qed.

Lemma preserves_answer (r : result A) : preserves I (answer r).
Proof. by intros w. Qed.

Lemma preserves_bind (c : M World A) (k : A -> M World B) :
  preserves I c -> (forall a, preserves I (k a)) -> preserves I (bind c k).
Proof.
  intros Hc Hk w Hw. unfold bind. specialize (Hc w Hw).
  destruct (c w) as [[a|e] w1]; [by apply Hk|done].
Qed.

Lemma preserves_try_except (body : M World A) (handler : exn -> M World A) :
  preserves I body -> (forall e, preserves I (handler e)) ->
  preserves I (try_except body handler).
Proof.
  intros Hb Hh w Hw. unfold try_except. specialize (Hb w Hw).
  destruct (body w) as [[a|e] w1]; [done|by apply Hh].
Qed.

Lemma preserves_try_except_only (sel : exn -> bool) (body : M World A)
    (handler : exn -> M World A) :
  preserves I body -> (forall e, preserves I (handler e)) ->
  preserves I (try_except_only sel body handler).
Proof.
  intros Hb Hh. apply preserves_try_except; [done|].
  intros e. destruct (sel e); [apply Hh|by intros w].
Qed.

Lemma preserves_try_finally (body : M World A) (fin : M World unit) :
  preserves I body -> preserves I fin -> preserves I (try_finally body fin).
Proof.
  intros Hb Hf w Hw. unfold try_finally. specialize (Hb w Hw).
  destruct (body w) as [r w1]. specialize (Hf w1 Hb).
  by destruct (fin w1) as [[[]|e] w2].
Qed.

End Generic.

Lemma preserves_for_each {A S : Type} (I : World -> Prop) (l : list A)
    (body : S -> A -> M World S) :
  (forall acc x, preserves I (body acc x)) ->
  forall acc, preserves I (for_each l acc body).
Proof.
  intros Hb. induction l as [|x l IH]; intros acc; simpl.
  - apply preserves_ret.
  - apply preserves_bind; [apply Hb|apply IH].
Qed.

End Frames.

Ltac head_of t := lazymatch t with ?f _ => head_of f | _ => t end.

(** A step that reads or writes the state directly: in each of its
    cases, [fin] reads the invariant off the state it ends in. *)
Ltac frame_prim_by fin :=
  let w := fresh "w" in
  let Hw := fresh "Hw" in
  intros w Hw;
  cbv beta delta
    [Backup.now Backup.emit modify Backup.environ_get Backup.os_statvfs
     Backup.os_makedirs Backup.shutil_rmtree Backup.rmtree_entry
     Backup.os_path_getsize Backup.subprocess_run Backup.get_secret_value
     Backup.log_backup_event Backup.log_repository_backup Backup.requests_get
     bind ret raise gets answer];
  repeat (match goal with
          | |- context [match ?x with _ => _ end] => destruct x
          | |- context [if ?x then _ else _] => destruct x
          end);
  fin Hw.

Ltac frame_prim := frame_prim_by ltac:(fun H => exact H).

(** The structure of a computation, down to the steps [prim] settles. *)
Ltac frame_with prim :=
  repeat (lazymatch goal with
          | |- Backup.preserves _ (bind _ _) => apply preserves_bind; [|intros ?]
          | |- Backup.preserves _ (try_except _ _) =>
              apply preserves_try_except; [|intros ?]
          | |- Backup.preserves _ (try_except_only _ _ _) =>
              apply preserves_try_except_only; [|intros ?]
          | |- Backup.preserves _ (try_finally _ _) => apply preserves_try_finally
          | |- Backup.preserves _ (ret _) => apply preserves_ret
          | |- Backup.preserves _ (raise _) => apply preserves_raise
          | |- Backup.preserves _ (gets _) => apply preserves_gets
          | |- Backup.preserves _ (answer _) => apply preserves_answer
          | |- Backup.preserves _ (Backup.for_each _ _ _) =>
              apply preserves_for_each; intros ? ?
          | |- Backup.preserves _ (if ?b then _ else _) => destruct b
          | |- Backup.preserves _ (match ?x with _ => _ end) => destruct x
          | |- Backup.preserves _ ?c =>
              first [ solve [prim]
                    | let h := head_of c in progress (unfold h)
                    | progress (cbv zeta) ]
          end).

Section EngineFrames.

Import Backup.

Lemma check_disk_space_oracles (o : _) (path : string) (required_mb : Z) :
  preserves (fun w => oracles w = o) (check_disk_space path required_mb).
Proof. frame_with frame_prim. Qed.

Lemma backup_single_repository_oracles (o : _) (repo : RepoInfo)
    (bucket token date_str : string) :
  preserves (fun w => oracles w = o)
    (backup_single_repository repo bucket token date_str).
Proof. frame_with frame_prim. Qed.

Lemma backup_single_repository_history (h : list HistoryItem) (repo : RepoInfo)
    (bucket token date_str : string) :
  preserves (fun w => history w = h)
    (backup_single_repository repo bucket token date_str).
Proof. frame_with frame_prim. Qed.

End EngineFrames.

(** ** Backup of one repository *)

Lemma bind_ok {St A B} (c : M St A) (k : A -> M St B) (s s' : St) (b : B) :
  bind c k s = (Ok b, s') ->
  exists a s1, c s = (Ok a, s1) /\ k a s1 = (Ok b, s').
Proof.
  unfold bind. destruct (c s) as [[a|e] s1]; [eauto|discriminate].
Qed.

Ltac bind_ok H :=
  let a := fresh "a" in
  let s := fresh "w" in
  let H1 := fresh "Hstep" in
  apply bind_ok in H as (a & s & H1 & H).

Section Single.

Import Backup.

Lemma backup_error_kind (repo : RepoInfo) (e : exn) :
  exn_kind_of (backup_error repo e) = PlainException.
Proof. unfold backup_error. repeat case_match; reflexivity. Qed.

Lemma upload_to_s3_ok (file_path bucket key : string) (w w' : World) :
  upload_to_s3 file_path bucket key w = (Ok tt, w') ->
  exists e, find_entry file_path w = Some e
            /\ s3 w' = <[key := uploaded (e_size e)]> (s3 w)
            /\ tree w' = tree w.
Proof.
  unfold upload_to_s3. intros H. bind_ok H. bind_ok H.
  unfold os_path_getsize in Hstep.
  destruct (find_entry file_path w) as [e|] eqn:He; [|discriminate].
  injection Hstep as <- <-. injection Hstep0 as _ <-.
  exists e. split; [done|].
  simpl in H. destruct (s3_put w key); [discriminate|].
  injection H as <-. done.
Qed.

Lemma os_path_getsize_ok (path : string) (w w' : World) (size : Z) :
  os_path_getsize path w = (Ok size, w') ->
  w' = w /\ exists e, find_entry path w = Some e /\ size = e_size e.
Proof.
  unfold os_path_getsize. destruct (find_entry path w) as [e|]; [|discriminate].
  intros [= <- <-]. eauto.
Qed.

Lemma find_entry_tree (path : string) (w w' : World) :
  tree w' = tree w -> find_entry path w' = find_entry path w.
Proof. unfold find_entry. by intros ->. Qed.

(** The [finally] clause of [backup_single_repository]. *)
Lemma final_cleanup_returns (temp_dir : string) (w : World) :
  exists w',
    try_except
      (ex <- gets (fun w => bool_decide (is_Some (find_entry temp_dir w))) ;;
       if ex then shutil_rmtree temp_dir else ret tt)%py
      (fun cleanup_error => ret tt) w = (Ok tt, w')
    /\ s3 w' = s3 w.
Proof.
  unfold try_except, bind, gets. case_bool_decide as Hex; simpl.
  - unfold shutil_rmtree. destruct (find_entry temp_dir w) as [e|]; simpl.
    + unfold rmtree_entry, bind, emit, modify, raise. simpl.
      destruct (e_rmtree e); simpl; eauto.
    + by destruct Hex.
  - eauto.
Qed.

(** What a run of [backup_single_repository] ends in. *)
Lemma backup_single_repository_run (repo : RepoInfo)
    (bucket token date_str : string) (w : World) :
  let r := backup_single_repository repo bucket token date_str w in
  match fst r with
  | Ok outcome =>
      exists stamp size,
        outcome = {[ "repository" := JStr (r_name repo); "success" := JBool true;
                     "s3_key" := JStr (s3_key_of (r_name repo) date_str stamp);
                     "size_bytes" := JInt size ]}
        /\ s3 (snd r) !! s3_key_of (r_name repo) date_str stamp = Some (uploaded size)
  | Raise e => exn_kind_of e = PlainException
  end.
Proof.
  cbv zeta.
  destruct (backup_single_repository repo bucket token date_str w) as [r w'] eqn:Hrun.
  simpl. unfold backup_single_repository in Hrun.
  unfold bind at 1 in Hrun. unfold now at 1 in Hrun. cbv zeta in Hrun.
  unfold try_finally in Hrun.
  match type of Hrun with context [try_except ?b ?h ?w1] =>
    destruct (try_except b h w1) as [r2 w2] eqn:Hbody end.
  destruct (final_cleanup_returns
              ("/tmp/" +:+ scratch_name (r_name repo) (py_int (epoch (clock w (ticks w)))))
              w2) as (w3 & Hfin & Hs3).
  rewrite Hfin in Hrun. injection Hrun as <- <-.
  unfold try_except in Hbody.
  match type of Hbody with context [match ?b with _ => _ end] =>
    destruct b as [[o|e] wb] eqn:HB end.
  - injection Hbody as <- <-.
    do 10 bind_ok HB.
    injection HB as <- <-.
    destruct a7.
    apply upload_to_s3_ok in Hstep7 as (e & He & Hput & Htree).
    apply os_path_getsize_ok in Hstep8 as (-> & e' & He' & ->).
    rewrite (find_entry_tree _ _ _ Htree) in He'. rewrite He in He'.
    injection He' as <-.
    eexists _, _. split; [reflexivity|].
    rewrite Hs3, Hput. apply lookup_insert_eq.
  - injection Hbody as <- <-. apply backup_error_kind.
Qed.

(** X2: [backup_single_repository] reports a failure only by raising
    (a plain [Exception]); what it returns is a success outcome, and
    then the bucket holds, under the key of the outcome, an object of
    the size of the outcome, stored as STANDARD_IA with AES256. *)
Theorem returned_backup_is_in_the_bucket (repo : RepoInfo)
    (bucket token date_str : string) (w : World) :
  let r := backup_single_repository repo bucket token date_str w in
  match fst r with
  | Ok outcome =>
      exists stamp size,
        outcome = {[ "repository" := JStr (r_name repo); "success" := JBool true;
                     "s3_key" := JStr (s3_key_of (r_name repo) date_str stamp);
                     "size_bytes" := JInt size ]}
        /\ s3 (snd r) !! s3_key_of (r_name repo) date_str stamp = Some (uploaded size)
  | Raise e => exn_kind_of e = PlainException
  end.
Proof. exact (backup_single_repository_run repo bucket token date_str w). Qed.

(** *** The scratch directory *)

Lemma removable_remove_entry (parent name : string) (w : World) :
  removable_tree w -> removable_tree (set_tree (remove_entry parent name (tree w)) w).
Proof.
  intros Hw p l e Hp He. simpl in Hp. unfold remove_entry in Hp.
  apply lookup_delete_Some in Hp as [_ Hp].
  apply lookup_alter_Some in Hp as [(<- & l' & Hl' & ->)|[_ Hp]].
  - apply list_elem_of_filter in He as [_ He]. eauto.
  - eauto.
Qed.

Lemma removable_add_entry (parent : string) (x : DirEntry) (w : World) :
  e_rmtree x = None ->
  removable_tree w -> removable_tree (set_tree (add_entry parent x (tree w)) w).
Proof.
  intros Hx Hw p l e Hp He. simpl in Hp. unfold add_entry in Hp.
  apply lookup_insert_Some in Hp as [[<- <-]|[_ Hp]]; [|eauto].
  apply elem_of_app in He as [He|He%list_elem_of_singleton]; [|by subst].
  destruct (tree w !! parent) eqn:E; [eauto|by apply elem_of_nil in He].
Qed.

Lemma removable_insert_empty (path : string) (w : World) :
  removable_tree w -> removable_tree (set_tree (<[path := []]> (tree w)) w).
Proof.
  intros Hw p l e Hp He. simpl in Hp.
  apply lookup_insert_Some in Hp as [[<- <-]|[_ Hp]]; [by apply elem_of_nil in He|eauto].
Qed.

Lemma rmtree_entry_removable (parent : string) (e : DirEntry) :
  preserves removable_tree (rmtree_entry parent e).
Proof.
  intros w Hw. unfold rmtree_entry, bind, emit, modify, raise. simpl.
  destruct (e_rmtree e); simpl; [exact Hw|].
  apply (removable_remove_entry parent (e_name e)
           (set_effects (effects w ++ [ERmtree (Py.path_join parent (e_name e))]) w)).
  exact Hw.
Qed.

Lemma shutil_rmtree_removable (path : string) :
  preserves removable_tree (shutil_rmtree path).
Proof.
  intros w Hw. unfold shutil_rmtree.
  destruct (find_entry path w); [by apply rmtree_entry_removable|exact Hw].
Qed.

Lemma os_makedirs_removable (path : string) :
  preserves removable_tree (os_makedirs path).
Proof.
  intros w Hw. unfold os_makedirs, bind, emit, modify. simpl.
  destruct (makedirs_err w); simpl; [exact Hw|].
  match goal with |- context [find_entry path ?w1] => destruct (find_entry path w1) end;
    simpl; [exact Hw|].
  match goal with |- removable_tree (set_tree (<[path := []]> (add_entry ?d ?x ?t)) ?w1) =>
    apply (removable_insert_empty path (set_tree (add_entry d x t) w1)),
          (removable_add_entry d x w1); [reflexivity|exact Hw] end.
Qed.

Lemma modify_add_entry_removable (parent : string) (x : World -> DirEntry) :
  (forall w, e_rmtree (x w) = None) ->
  preserves removable_tree
    (modify (fun w => set_tree (add_entry parent (x w) (tree w)) w)).
Proof. intros Hx w Hw. apply removable_add_entry; [apply Hx|exact Hw]. Qed.

Ltac removable_prim :=
  first [ apply rmtree_entry_removable
        | apply shutil_rmtree_removable
        | apply os_makedirs_removable
        | apply modify_add_entry_removable; intros ?; reflexivity
        | frame_prim ].

Lemma backup_body_removable (repo : RepoInfo) (bucket token date_str : string) :
  preserves removable_tree (backup_single_repository repo bucket token date_str).
Proof. frame_with removable_prim. Qed.

Lemma find_after_filter (n : string) (l : list DirEntry) :
  List.find (fun e => bool_decide (e_name e = n)) (filter (fun e => e_name e <> n) l)
  = None.
Proof.
  induction l as [|x l IH]; [done|]. rewrite filter_cons.
  destruct (decide (e_name x <> n)); [|exact IH].
  simpl. rewrite bool_decide_eq_false_2 by done. exact IH.
Qed.

(** What the [finally] clause leaves of the scratch directory. *)
Lemma final_cleanup_removes (temp_dir : string) (w : World) :
  removable_tree w ->
  find_entry temp_dir
    (snd (try_except
            (ex <- gets (fun w => bool_decide (is_Some (find_entry temp_dir w))) ;;
             if ex then shutil_rmtree temp_dir else ret tt)%py
            (fun cleanup_error => ret tt) w)) = None.
Proof.
  intros Hw. unfold try_except, bind, gets. case_bool_decide as Hex; simpl.
  - unfold shutil_rmtree. destruct (find_entry temp_dir w) as [e|] eqn:He; [|by destruct Hex].
    assert (e_rmtree e = None /\ e_name e = basename temp_dir) as [Hrm Hname].
    { unfold find_entry in He. apply find_some in He as [Hin Hn].
      apply bool_decide_eq_true in Hn. split; [|done].
      destruct (tree w !! dirname temp_dir) as [l|] eqn:E; [|done].
      apply (Hw _ l e E). by apply list_elem_of_In. }
    unfold rmtree_entry, bind, emit, modify. simpl. rewrite Hrm. simpl.
    unfold find_entry. simpl. unfold remove_entry.
    destruct (decide (Py.path_join (dirname temp_dir) (e_name e) = dirname temp_dir))
      as [->|Hne].
    + by rewrite lookup_delete_eq.
    + rewrite lookup_delete_ne by done. rewrite lookup_alter_eq.
      destruct (tree w !! dirname temp_dir) as [l|]; simpl; [|done].
      rewrite Hname. apply find_after_filter.
  - destruct (find_entry temp_dir w) eqn:E; [|done]. destruct Hex. by eexists.
Qed.

(** X3: the scratch directory does not outlive the call.  When no
    entry of the disk resists removal, the directory
    [/tmp/<repo>_<timestamp>] that [backup_single_repository] names
    from its first reading of the clock is not on disk when the call
    is over, whether the backup succeeded or raised. *)
Theorem scratch_directory_does_not_outlive_the_backup (repo : RepoInfo)
    (bucket token date_str : string) (w : World) :
  removable_tree w ->
  find_entry (temp_dir_of (r_name repo) (clock w (ticks w)))
    (snd (backup_single_repository repo bucket token date_str w)) = None.
Proof.
  intros Hw. unfold backup_single_repository.
  unfold bind at 1. unfold now at 1. cbv zeta.
  unfold try_finally.
  match goal with |- context [try_except ?b ?h (set_ticks ?n w)] =>
    pose proof (preserves_try_except removable_tree b h) as Hbody;
    destruct (try_except b h (set_ticks n w)) as [r w2] eqn:Hrun end.
  match goal with |- context [try_except ?b ?h w2] =>
    pose proof (final_cleanup_removes (temp_dir_of (r_name repo) (clock w (ticks w))) w2)
      as Hfin;
    pose proof (final_cleanup_returns (temp_dir_of (r_name repo) (clock w (ticks w))) w2)
      as (w3 & Hret & _) end.
  unfold temp_dir_of in *. rewrite Hret in *. simpl in *. apply Hfin.
  assert (removable_tree (set_ticks (S (ticks w)) w)) as Hw1 by exact Hw.
  apply Hbody in Hw1; [by rewrite Hrun in Hw1|..].
  - frame_with removable_prim.
  - intros e. apply preserves_raise.
Qed.

End Single.

Lemma scratch_directory_does_not_outlive_the_backup_witness :
  Backup.find_entry "/tmp/demo_1751409125"
    (snd (Backup.backup_single_repository Scenario.demo_info "acme-backups"
            "ghp_token" "2025-07-01" Scenario.low_disk)) = None.
Proof.
  apply (scratch_directory_does_not_outlive_the_backup Scenario.demo_info
           "acme-backups" "ghp_token" "2025-07-01" Scenario.low_disk).
  intros p l e Hp He.
  change (Backup.tree Scenario.low_disk) with Scenario.stale_tmp in Hp.
  unfold Scenario.stale_tmp in Hp.
  apply lookup_singleton_Some in Hp as [_ <-].
  repeat (apply elem_of_cons in He as [->|He]; [reflexivity|]).
  by apply elem_of_nil in He.
Defined.

(** ** A repository the API refuses *)

Section Refused.

Import Backup.

Lemma moves_nothing_refl (w : World) : moves_nothing w w.
Proof.
  repeat split. exists []. split; [by rewrite app_nil_r|constructor].
Qed.

Lemma moves_nothing_emit (w0 w : World) (x : Effect) :
  moves_data x = false ->
  moves_nothing w0 w -> moves_nothing w0 (set_effects (effects w ++ [x]) w).
Proof.
  intros Hx (Ho & Hs & l & Hl & HP). repeat split; [exact Ho|exact Hs|].
  exists (l ++ [x]). simpl. rewrite Hl, app_assoc. split; [done|].
  apply Forall_app. split; [done|]. by constructor.
Qed.

Lemma moves_nothing_tree (w0 w : World) (t : gmap string (list DirEntry)) :
  moves_nothing w0 w -> moves_nothing w0 (set_tree t w).
Proof. intros H. exact H. Qed.

Lemma rmtree_entry_moves_nothing (w0 : World) (parent : string) (e : DirEntry) :
  preserves (moves_nothing w0) (rmtree_entry parent e).
Proof.
  intros w Hw. unfold rmtree_entry, bind, emit, modify, raise. simpl.
  destruct (e_rmtree e); simpl.
  - by apply moves_nothing_emit.
  - apply moves_nothing_tree. by apply moves_nothing_emit.
Qed.

Lemma shutil_rmtree_moves_nothing (w0 : World) (path : string) :
  preserves (moves_nothing w0) (shutil_rmtree path).
Proof.
  intros w Hw. unfold shutil_rmtree.
  destruct (find_entry path w); [by apply rmtree_entry_moves_nothing|].
  by apply moves_nothing_emit.
Qed.

Lemma os_makedirs_moves_nothing (w0 : World) (path : string) :
  preserves (moves_nothing w0) (os_makedirs path).
Proof.
  intros w Hw. unfold os_makedirs, bind, emit, modify. simpl.
  destruct (makedirs_err w); simpl; [by apply moves_nothing_emit|].
  match goal with |- context [find_entry path ?w1] => destruct (find_entry path w1) end;
    simpl; [by apply moves_nothing_emit|].
  apply moves_nothing_tree. by apply moves_nothing_emit.
Qed.

Lemma requests_get_moves_nothing (w0 : World) (api_url token : string) :
  preserves (moves_nothing w0) (requests_get api_url token).
Proof.
  intros w Hw. unfold requests_get, bind, emit, modify. simpl.
  by apply moves_nothing_emit.
Qed.

Ltac quiet_prim :=
  first [ apply rmtree_entry_moves_nothing
        | apply shutil_rmtree_moves_nothing
        | apply os_makedirs_moves_nothing
        | apply requests_get_moves_nothing
        | frame_prim ].

Lemma check_disk_space_moves_nothing (w0 : World) (path : string) (required_mb : Z) :
  preserves (moves_nothing w0) (check_disk_space path required_mb).
Proof. frame_with quiet_prim. Qed.

(** The access check answers [False] when the API says 404 or 403. *)
Lemma ensure_accessible_refuses (repo : RepoInfo) (token api_url : string) (w : World) :
  api_url_of (r_clone_url repo) = Some api_url ->
  github w api_url token = Ok 404 \/ github w api_url token = Ok 403 ->
  ensure_accessible repo token w
  = (Raise (not_accessible repo), set_effects (effects w ++ [EHttpGet api_url]) w).
Proof.
  intros Hurl Hgh. unfold ensure_accessible, validate_repository_access.
  rewrite Hurl. unfold bind, try_except, requests_get, bind, emit, modify. simpl.
  destruct Hgh as [-> | ->]; reflexivity.
Qed.

(** X4: a repository the API refuses is left alone.  When the API
    answers 404 or 403 for the address derived from the clone URL,
    [backup_single_repository] raises, and on the way it runs no git
    command, compresses nothing and uploads nothing; the bucket is as it
    was.  When the scratch directory could be made, what it raises is
    the "not accessible" error, reworded by its [except] clause. *)
Theorem refused_repository_moves_no_data (repo : RepoInfo)
    (bucket token date_str api_url : string) (w : World) :
  api_url_of (r_clone_url repo) = Some api_url ->
  github w api_url token = Ok 404 \/ github w api_url token = Ok 403 ->
  let r := backup_single_repository repo bucket token date_str w in
  (exists e, fst r = Raise e)
  /\ (makedirs_err w = None -> fst r = Raise (backup_error repo (not_accessible repo)))
  /\ moves_nothing w (snd r).
Proof.
  intros Hurl Hgh. cbv zeta.
  destruct (backup_single_repository repo bucket token date_str w) as [r w'] eqn:Hrun.
  simpl. unfold backup_single_repository in Hrun.
  unfold bind at 1 in Hrun. unfold now at 1 in Hrun. cbv zeta in Hrun.
  unfold try_finally in Hrun.
  set (temp_dir := "/tmp/" +:+ scratch_name (r_name repo)
                     (py_int (epoch (clock w (ticks w))))) in *.
  set (w1 := set_ticks (S (ticks w)) w) in *.
  assert (moves_nothing w w1) as H1 by exact (moves_nothing_refl w).
  (* the scratch directory *)
  unfold try_except at 1 in Hrun. unfold bind at 1 in Hrun.
  pose proof (os_makedirs_moves_nothing w temp_dir w1 H1) as H2.
  assert (makedirs_err w = None -> exists w2, os_makedirs temp_dir w1 = (Ok tt, w2)) as Hmk.
  { intros Hnone. unfold os_makedirs, bind, emit, modify. simpl. rewrite Hnone.
    match goal with |- context [find_entry temp_dir ?x] => destruct (find_entry temp_dir x) end;
      eauto. }
  destruct (os_makedirs temp_dir w1) as [[[]|e2] w2].
  - (* the first check of the disk *)
    unfold bind at 1 in Hrun.
    pose proof (check_disk_space_moves_nothing w "/tmp" 1000 w2 H2) as H3.
    pose proof (check_disk_space_never_raises "/tmp" 1000 w2) as Hck.
    destruct (check_disk_space "/tmp" 1000 w2) as [r3 w3]. simpl in Hck, H3. subst r3.
    (* the access check *)
    unfold bind at 1 in Hrun.
    assert (github w3 api_url token = Ok 404 \/ github w3 api_url token = Ok 403) as Hgh3.
    { destruct H3 as (Ho & _). unfold oracles in Ho.
      assert (github w3 = github w) as -> by congruence. exact Hgh. }
    rewrite (ensure_accessible_refuses repo token api_url w3 Hurl Hgh3) in Hrun.
    simpl in Hrun.
    match type of Hrun with context [try_except ?b ?h ?x] =>
      pose proof (preserves_try_except (moves_nothing w) b h) as Hfin;
      destruct (final_cleanup_returns temp_dir x) as (wf & Hf & _);
      assert (moves_nothing w x) as H4 by (by apply moves_nothing_emit)
    end.
    rewrite Hf in Hrun. injection Hrun as <- <-.
    split; [eauto|]. split; [done|].
    apply Hfin in H4; [by rewrite Hf in H4| |intros ?; apply preserves_ret].
    frame_with quiet_prim.
  - simpl in Hrun, H2.
    match type of Hrun with context [try_except ?b ?h w2] =>
      pose proof (preserves_try_except (moves_nothing w) b h) as Hfin;
      destruct (final_cleanup_returns temp_dir w2) as (wf & Hf & _)
    end.
    rewrite Hf in Hrun. injection Hrun as <- <-.
    split; [eauto|]. split; [intros Hn; by destruct (Hmk Hn)|].
    apply Hfin in H2; [by rewrite Hf in H2| |intros ?; apply preserves_ret].
    frame_with quiet_prim.
Qed.

End Refused.

Lemma refused_repository_moves_no_data_witness :
  Backup.moves_nothing (Scenario.api_answers 404)
    (snd (Backup.backup_single_repository Scenario.demo_info "acme-backups"
            "ghp_token" "2025-07-01" (Scenario.api_answers 404))).
Proof.
  destruct (refused_repository_moves_no_data Scenario.demo_info "acme-backups"
              "ghp_token" "2025-07-01" "https://api.github.com/repos/acme/demo"
              (Scenario.api_answers 404) eq_refl (or_introl eq_refl))
    as (_ & _ & H).
  exact H.
Defined.

(** ** The handler of one backup *)

(** Steps under which the clock stays the same and its count of
    readings does not go down, or stays the same. *)
Ltac frame_ticks :=
  frame_with ltac:(frame_prim_by ltac:(fun H =>
    destruct H; split; simpl in *; [congruence|lia])).

Ltac frame_same :=
  frame_with ltac:(frame_prim_by ltac:(fun H =>
    destruct H; split; simpl in *; congruence)).

Section Handler.

Import Backup.

Lemma bind_run {St A B} (c : M St A) (k : A -> M St B) (s s1 : St) (a : A) :
  c s = (Ok a, s1) -> bind c k s = k a s1.
Proof. unfold bind. by intros ->. Qed.

Lemma environ_get_some (k v : string) (w : World) :
  environ w !! k = Some v -> environ_get k w = (Ok v, w).
Proof. unfold environ_get. by intros ->. Qed.

Lemma preserves_run {A} (I : World -> Prop) (c : M World A) (w w' : World)
    (r : result A) :
  preserves I c -> c w = (r, w') -> I w -> I w'.
Proof. intros Hc Hrun Hw. apply Hc in Hw. by rewrite Hrun in Hw. Qed.

Lemma log_backup_event_s3 (n t s : string) (d : gmap string JVal)
    (err : option string) (w w' : World) (r : result unit) :
  log_backup_event n t s d err w = (r, w') -> s3 w' = s3 w.
Proof.
  intros H.
  assert (preserves (fun x => s3 x = s3 w) (log_backup_event n t s d err)) as Hp
    by frame_prim.
  by apply (preserves_run _ _ _ _ _ Hp H).
Qed.

Lemma log_repository_backup_s3 (n v k : string) (size : JVal) (c : string)
    (w w' : World) (r : result unit) :
  log_repository_backup n v k size c w = (r, w') -> s3 w' = s3 w.
Proof.
  intros H.
  assert (preserves (fun x => s3 x = s3 w) (log_repository_backup n v k size c)) as Hp
    by frame_prim.
  by apply (preserves_run _ _ _ _ _ Hp H).
Qed.

Lemma backup_single_repository_ok (repo : RepoInfo) (bucket token date_str : string)
    (w w' : World) (outcome : gmap string JVal) :
  backup_single_repository repo bucket token date_str w = (Ok outcome, w') ->
  exists stamp size,
    outcome = {[ "repository" := JStr (r_name repo); "success" := JBool true;
                 "s3_key" := JStr (s3_key_of (r_name repo) date_str stamp);
                 "size_bytes" := JInt size ]}
    /\ s3 w' !! s3_key_of (r_name repo) date_str stamp = Some (uploaded size).
Proof.
  intros H. pose proof (backup_single_repository_run repo bucket token date_str w) as Hrun.
  cbv zeta in Hrun. by rewrite H in Hrun.
Qed.

(** X5: the handler always answers.  When the audit tables fail, if
    at all, with a [ClientError], [lambda_handler] raises nothing, and
    its outcome has one of three shapes: a success, with the key under
    which the bucket then holds the archive; the outcome of a skipped
    repository; or a failure that carries the text of the error and
    the category [categorize_error] gives that text. *)
Theorem lambda_handler_always_answers (event : Event) (w : World) :
  (forall e, events_put w = Some e -> is_client_error e = true) ->
  let r := lambda_handler event w in
  exists outcome,
    fst r = Ok outcome
    /\ ((exists name key size,
           ev_name event = Some name
           /\ outcome = {[ "repository" := JStr name; "success" := JBool true;
                           "s3_key" := JStr key; "size_bytes" := JInt size ]}
           /\ s3 (snd r) !! key = Some (uploaded size))
        \/ (exists name, ev_name event = Some name /\ outcome = skipped_outcome name)
        \/ (exists error_msg,
              outcome = {[ "repository" := JStr (default "unknown" (ev_name event));
                           "success" := JBool false;
                           "error" := JStr error_msg;
                           "error_category"
                             := JStr (Taxonomy.categorize_error error_msg) ]})).
Proof.
  intros Hev. cbv zeta.
  destruct (lambda_handler event w) as [r w'] eqn:Hrun. simpl.
  unfold lambda_handler in Hrun. unfold try_except in Hrun.
  match type of Hrun with context [match ?b ?x with _ => _ end] =>
    assert (preserves (fun x => oracles x = oracles w) b) as Horacles
      by (frame_with frame_prim);
    specialize (Horacles w eq_refl);
    destruct (b x) as [[o|e] wb] eqn:HB end.
  - injection Hrun as <- <-. exists o. split; [done|].
    apply bind_ok in HB as (bucket & w1 & Hbucket & HB).
    apply bind_ok in HB as (arn & w2 & Harn & HB).
    apply bind_ok in HB as (token & w3 & Htoken & HB).
    destruct (ev_name event) as [name|] eqn:Hname; [|discriminate].
    destruct (ev_clone_url event) as [clone_url|] eqn:Hurl; [|discriminate].
    apply bind_ok in HB as ([] & w4 & Hstarted & HB).
    destruct (truthy (default (JBool false) (ev_archived event))).
    + apply bind_ok in HB as ([] & w5 & Hskipped & HB).
      injection HB as <- <-. right. left. eauto.
    + apply bind_ok in HB as (t & w5 & Hnow & HB).
      apply bind_ok in HB as (result & w6 & Hbackup & HB).
      apply bind_ok in HB as ([] & w7 & Hlog & HB).
      injection HB as <- <-.
      apply backup_single_repository_ok in Hbackup as (stamp & size & -> & Hs3).
      simpl in Hs3.
      change (truthy (default JNull
                ((({[ "repository" := JStr name; "success" := JBool true;
                      "s3_key" := JStr (s3_key_of name (strftime_Ymd (civil t)) stamp);
                      "size_bytes" := JInt size ]} : gmap string JVal)) !! "success")))
        with true in Hlog.
      cbv iota in Hlog.
      apply bind_ok in Hlog as ([] & w8 & Hcompleted & Hlog).
      apply bind_ok in Hlog as (t' & w9 & Hnow' & Hlog).
      apply log_backup_event_s3 in Hcompleted.
      apply log_repository_backup_s3 in Hlog.
      assert (s3 w9 = s3 w8) as Hw9 by (by injection Hnow' as _ <-).
      left. exists name, (s3_key_of name (strftime_Ymd (civil t)) stamp), size.
      repeat split.
      rewrite Hlog, Hw9, Hcompleted. exact Hs3.
  - unfold bind, gets in Hrun. simpl in Horacles.
    assert (events_put wb = events_put w) as Hput.
    { unfold oracles in Horacles. congruence. }
    match type of Hrun with context [log_backup_event ?n ?t ?s ?d ?err wb] =>
      destruct (log_backup_event_ok n t s d err wb) as (wl & Hlog & _) end.
    { intros x Hx. apply Hev. congruence. }
    rewrite Hlog in Hrun. injection Hrun as <- <-.
    eexists. split; [reflexivity|]. right. right. eauto.
Qed.

(** The successful run reads the time of the key from the clock,
    after its first reading and before its last. *)
Lemma backup_single_repository_reads (repo : RepoInfo)
    (bucket token date_str : string) (w w' : World) (outcome : gmap string JVal) :
  backup_single_repository repo bucket token date_str w = (Ok outcome, w') ->
  exists j size,
    (ticks w < j < ticks w')%nat
    /\ clock w' = clock w
    /\ outcome = {[ "repository" := JStr (r_name repo); "success" := JBool true;
                    "s3_key" := JStr (s3_key_of (r_name repo) date_str
                                        (strftime_HM (civil (clock w j))));
                    "size_bytes" := JInt size ]}
    /\ s3 w' !! s3_key_of (r_name repo) date_str (strftime_HM (civil (clock w j)))
       = Some (uploaded size).
Proof.
  intros Hrun. unfold backup_single_repository in Hrun.
  unfold bind at 1 in Hrun. unfold now at 1 in Hrun. cbv zeta in Hrun.
  unfold try_finally in Hrun.
  match type of Hrun with context [try_except ?b ?h ?w1] =>
    destruct (try_except b h w1) as [r2 w2] eqn:Hbody end.
  match type of Hrun with context [try_except ?b ?h w2] =>
    assert (forall n, preserves (later (clock w) n) (try_except b h)) as Hfinp
      by (intros n; frame_ticks);
    destruct (final_cleanup_returns
                ("/tmp/" +:+ scratch_name (r_name repo) (py_int (epoch (clock w (ticks w)))))
                w2) as (w3 & Hfin & Hs3)
  end.
  rewrite Hfin in Hrun. injection Hrun as -> <-.
  unfold try_except at 1 in Hbody.
  match type of Hbody with context [match ?b with _ => _ end] =>
    destruct b as [[o|e] wb] eqn:HB end; [|discriminate].
  injection Hbody as <- <-.
  assert (later (clock w) (S (ticks w)) (set_ticks (S (ticks w)) w)) as L0
    by (split; simpl; [done|lia]).
  apply bind_ok in HB as (a1 & w4 & H1 & HB).
  assert (later (clock w) (S (ticks w)) w4) as L1
    by (eapply preserves_run; [|exact H1|exact L0]; frame_ticks).
  apply bind_ok in HB as (a2 & w5 & H2 & HB).
  assert (later (clock w) (S (ticks w)) w5) as L2
    by (eapply preserves_run; [|exact H2|exact L1]; frame_ticks).
  apply bind_ok in HB as (a3 & w6 & H3 & HB).
  assert (later (clock w) (S (ticks w)) w6) as L3
    by (eapply preserves_run; [|exact H3|exact L2]; frame_ticks).
  apply bind_ok in HB as (a4 & w7 & H4 & HB).
  assert (later (clock w) (S (ticks w)) w7) as L4
    by (eapply preserves_run; [|exact H4|exact L3]; frame_ticks).
  apply bind_ok in HB as (a5 & w8 & H5 & HB).
  assert (later (clock w) (S (ticks w)) w8) as L5
    by (eapply preserves_run; [|exact H5|exact L4]; frame_ticks).
  apply bind_ok in HB as (a6 & w9 & H6 & HB).
  assert (later (clock w) (S (ticks w)) w9) as L6
    by (eapply preserves_run; [|exact H6|exact L5]; frame_ticks).
  apply bind_ok in HB as (a7 & w10 & H7 & HB).
  assert (later (clock w) (S (ticks w)) w10) as [Hc10 Ht10]
    by (eapply preserves_run; [|exact H7|exact L6]; frame_ticks).
  apply bind_ok in HB as (t1 & w11 & H8 & HB).
  injection H8 as <- <-.
  apply bind_ok in HB as ([] & w12 & H9 & HB).
  apply bind_ok in HB as (size & w13 & H10 & HB).
  injection HB as <- <-.
  assert (later (clock w) (S (ticks w10)) (set_ticks (S (ticks w10)) w10)) as L11
    by (split; simpl; [done|lia]).
  assert (later (clock w) (S (ticks w10)) w12) as L12
    by (eapply preserves_run; [|exact H9|exact L11]; frame_ticks).
  assert (later (clock w) (S (ticks w10)) w13) as L13
    by (eapply preserves_run; [|exact H10|exact L12]; frame_ticks).
  pose proof (Hfinp (S (ticks w10)) w13 L13) as L14. rewrite Hfin in L14.
  destruct L14 as [Hc14 Ht14]. simpl in Hc14, Ht14.
  apply upload_to_s3_ok in H9 as (e & He & Hput & Htree).
  apply os_path_getsize_ok in H10 as (-> & e' & He' & ->).
  rewrite (find_entry_tree _ _ _ Htree) in He'. rewrite He in He'.
  injection He' as <-.
  exists (ticks w10), (e_size e). rewrite <- Hc10.
  split; [lia|]. split; [congruence|]. split; [reflexivity|].
  rewrite Hs3, Hput. apply lookup_insert_eq.
Qed.

(** X6: a successful backup is catalogued.  When the history table
    takes the row, a success outcome of [lambda_handler] means that
    one row was added to the history of the repository, that this row
    carries the key and the size of the object the bucket now holds,
    under storage class s3, and that its version is [nightly/], the
    date of the key and a time of day.  The date is that of the first
    reading of the clock by the handler; the time of day of the key is
    that of a later reading, and the time of day of the version that
    of a reading later still, so that the two can differ. *)
Theorem successful_backup_is_catalogued (event : Event) (w : World)
    (outcome : gmap string JVal) :
  history_put w = None ->
  fst (lambda_handler event w) = Ok outcome ->
  outcome !! "success" = Some (JBool true) ->
  exists name j k size,
    (ticks w < j)%nat /\ (j < k)%nat
    /\ (k < ticks (snd (lambda_handler event w)))%nat
    /\ ev_name event = Some name
    /\ let date := strftime_Ymd (civil (clock w (ticks w))) in
       let key := s3_key_of name date (strftime_HM (civil (clock w j))) in
       outcome !! "s3_key" = Some (JStr key)
       /\ s3 (snd (lambda_handler event w)) !! key = Some (uploaded size)
       /\ history (snd (lambda_handler event w))
          = history w ++
              [ {| h_repository := name;
                   h_backup_version
                     := "nightly/" +:+ date +:+ "-" +:+ strftime_HM (civil (clock w k));
                   h_s3_key := key;
                   h_size_bytes := JInt size;
                   h_storage_class := "s3" |} ].
Proof.
  intros Hput Hok Hsuccess.
  destruct (lambda_handler event w) as [r w'] eqn:Hrun. simpl in *. subst r.
  unfold lambda_handler in Hrun. unfold try_except in Hrun.
  match type of Hrun with context [match ?b ?x with _ => _ end] =>
    destruct (b x) as [[o|e] wb] eqn:HB end.
  - injection Hrun as <- <-.
    pose (I := fun x => oracles x = oracles w /\ history x = history w).
    pose (J := fun x => clock x = clock w /\ ticks x = ticks w).
    assert (I w) as H0 by done.
    assert (J w) as J0 by done.
    apply bind_ok in HB as (bucket & w1 & Hbucket & HB).
    assert (I w1) as H1
      by (eapply (preserves_run I); [|exact Hbucket|exact H0]; frame_prim).
    assert (J w1) as J1
      by (eapply (preserves_run J); [|exact Hbucket|exact J0]; frame_same).
    apply bind_ok in HB as (arn & w2 & Harn & HB).
    assert (I w2) as H2
      by (eapply (preserves_run I); [|exact Harn|exact H1]; frame_prim).
    assert (J w2) as J2
      by (eapply (preserves_run J); [|exact Harn|exact J1]; frame_same).
    apply bind_ok in HB as (token & w3 & Htoken & HB).
    assert (I w3) as H3
      by (eapply (preserves_run I); [|exact Htoken|exact H2]; frame_prim).
    assert (J w3) as J3
      by (eapply (preserves_run J); [|exact Htoken|exact J2]; frame_same).
    destruct (ev_name event) as [name|] eqn:Hname; [|discriminate].
    destruct (ev_clone_url event) as [clone_url|] eqn:Hurl; [|discriminate].
    apply bind_ok in HB as ([] & w4 & Hstarted & HB).
    assert (I w4) as H4
      by (eapply (preserves_run I); [|exact Hstarted|exact H3]; frame_prim).
    assert (J w4) as [Jc4 Jt4]
      by (eapply (preserves_run J); [|exact Hstarted|exact J3]; frame_same).
    destruct (truthy (default (JBool false) (ev_archived event))).
    + apply bind_ok in HB as ([] & w5 & Hskipped & HB).
      injection HB as <- <-. discriminate.
    + apply bind_ok in HB as (t & w5 & Hnow & HB).
      assert (I w5) as H5
        by (eapply (preserves_run I); [|exact Hnow|exact H4]; frame_prim).
      injection Hnow as <- <-.
      apply bind_ok in HB as (result & w6 & Hbackup & HB).
      assert (I w6) as H6
        by (eapply (preserves_run I); [|exact Hbackup|exact H5];
            frame_with frame_prim).
      apply bind_ok in HB as ([] & w7 & Hlog & HB).
      injection HB as <- <-.
      apply backup_single_repository_reads in Hbackup
        as (j & size & Hj & Hc6 & -> & Hs3).
      simpl in Hj, Hc6, Hs3.
      change (truthy (default JNull (_ !! "success"))) with true in Hlog.
      cbv iota in Hlog.
      apply bind_ok in Hlog as ([] & w8 & Hcompleted & Hlog).
      assert (I w8) as H8
        by (eapply (preserves_run I); [|exact Hcompleted|exact H6]; frame_prim).
      assert (later (clock w) (ticks w6) w8) as [Hc8 Ht8].
      { eapply (preserves_run (later (clock w) (ticks w6))); [|exact Hcompleted|].
        - frame_ticks.
        - split; [congruence|lia]. }
      apply bind_ok in Hlog as (t' & w9 & Hnow' & Hlog).
      assert (I w9) as [Ho9 Hh9]
        by (eapply (preserves_run I); [|exact Hnow'|exact H8]; frame_prim).
      injection Hnow' as <- <-.
      apply log_backup_event_s3 in Hcompleted.
      exists name, j, (ticks w8), size.
      unfold log_repository_backup in Hlog.
      assert (history_put (set_ticks (S (ticks w8)) w8) = None) as Hput9
        by (unfold oracles in Ho9; congruence).
      rewrite Hput9 in Hlog. injection Hlog as <-. simpl.
      rewrite Jc4, Jt4 in *. rewrite Hc8.
      split; [lia|]. split; [lia|]. split; [lia|]. split; [done|].
      split; [done|]. split.
      * rewrite Hcompleted. exact Hs3.
      * simpl in Hh9. rewrite Hh9. reflexivity.
  - unfold bind, gets in Hrun.
    match type of Hrun with context [log_backup_event ?n ?t ?s ?d ?err wb] =>
      destruct (log_backup_event n t s d err wb) as [[[]|x] wl] end;
      [|discriminate].
    injection Hrun as <- <-. discriminate.
Qed.

(** X7: an event that lacks [name] or [clone_url].  With the
    configuration in place and the token fetched, [lambda_handler]
    answers such an event with a failure outcome that names the
    missing fields, under category UNKNOWN and under the repository
    name ["unknown"] when the name is what is missing; it writes one
    [failed] event to the audit trail and does nothing else: no clone,
    no compression, no upload. *)
Theorem event_without_name_or_url_is_refused (event : Event) (w : World)
    (bucket arn token : string) :
  ev_name event = None \/ ev_clone_url event = None ->
  environ w !! "S3_BUCKET_NAME" = Some bucket ->
  environ w !! "GITHUB_TOKEN_SECRET_ARN" = Some arn ->
  fst (get_secret_value arn w) = Ok token ->
  events_put w = None ->
  let r := lambda_handler event w in
  let error_msg := "Repository name and clone_url must be provided in event" in
  fst r = Ok {[ "repository" := JStr (default "unknown" (ev_name event));
                "success" := JBool false;
                "error" := JStr error_msg;
                "error_category" := JStr "UNKNOWN" ]}
  /\ untouched w (snd r)
  /\ history (snd r) = history w
  /\ audit (snd r)
     = audit w ++
         [ {| a_repository := default "unknown" (ev_name event);
              a_event_type := "backup"; a_status := "failed";
              a_details :=
                {[ "error_category" := JStr "UNKNOWN";
                   "lambda_memory"
                     := env_or_unknown "AWS_LAMBDA_FUNCTION_MEMORY_SIZE" w;
                   "repository_size" := default (JStr "unknown") (ev_size event);
                   "repository_private"
                     := default (JBool false) (ev_private event) ]};
              a_error := Some error_msg |} ].
Proof.
  intros Hmissing Hbucket Harn Htoken Hput. cbv zeta.
  assert (get_secret_value arn w = (Ok token, w)) as Hsecret.
  { pose proof (get_secret_value_state arn w) as Hstate.
    destruct (get_secret_value arn w) as [r1 w1]. simpl in *. congruence. }
  assert (lambda_handler event w
          = (Ok ({[ "repository" := JStr (default "unknown" (ev_name event));
                    "success" := JBool false;
                    "error" := JStr "Repository name and clone_url must be provided in event";
                    "error_category" := JStr "UNKNOWN" ]} : gmap string JVal),
             set_audit
               (audit w ++
                  [ {| a_repository := default "unknown" (ev_name event);
                       a_event_type := "backup"; a_status := "failed";
                       a_details :=
                         {[ "error_category" := JStr "UNKNOWN";
                            "lambda_memory"
                              := env_or_unknown "AWS_LAMBDA_FUNCTION_MEMORY_SIZE" w;
                            "repository_size"
                              := default (JStr "unknown") (ev_size event);
                            "repository_private"
                              := default (JBool false) (ev_private event) ]};
                       a_error
                         := Some "Repository name and clone_url must be provided in event"
                    |} ]) w)) as ->; [|by repeat split].
  unfold lambda_handler, try_except.
  rewrite (bind_run _ _ _ _ _ (environ_get_some _ _ _ Hbucket)).
  rewrite (bind_run _ _ _ _ _ (environ_get_some _ _ _ Harn)).
  rewrite (bind_run _ _ _ _ _ Hsecret).
  assert (forall (k : string -> string -> M World (gmap string JVal)),
            match ev_name event, ev_clone_url event with
            | Some name, Some clone_url => k name clone_url
            | _, _ =>
                raise (Exn ValueError
                         "Repository name and clone_url must be provided in event")
            end
            = raise (Exn ValueError
                       "Repository name and clone_url must be provided in event"))
    as Hraise.
  { intros k. destruct Hmissing as [-> | ->]; [done|]. by destruct (ev_name event). }
  rewrite Hraise. unfold raise at 1.
  unfold bind, gets, log_backup_event. rewrite Hput. reflexivity.
Qed.

End Handler.

Lemma lambda_handler_always_answers_witness :
  exists outcome,
    fst (Backup.lambda_handler (Scenario.demo false) Scenario.healthy) = Ok outcome.
Proof.
  destruct (lambda_handler_always_answers (Scenario.demo false) Scenario.healthy)
    as (outcome & Hok & _); [intros e He; discriminate He|].
  exists outcome. exact Hok.
Defined.

Lemma successful_backup_is_catalogued_witness :
  exists name j k size,
    (j < k)%nat
    /\ Backup.history (snd (Backup.lambda_handler (Scenario.demo false) Scenario.healthy))
       = Backup.history Scenario.healthy ++
           [ {| Backup.h_repository := name;
                Backup.h_backup_version
                  := "nightly/2025-07-01-"
                       +:+ Backup.strftime_HM
                             (Backup.civil (Backup.clock Scenario.healthy k));
                Backup.h_s3_key
                  := Backup.s3_key_of name "2025-07-01"
                       (Backup.strftime_HM
                          (Backup.civil (Backup.clock Scenario.healthy j)));
                Backup.h_size_bytes := JInt size;
                Backup.h_storage_class := "s3" |} ].
Proof.
  destruct (successful_backup_is_catalogued (Scenario.demo false) Scenario.healthy
              (match fst (Backup.lambda_handler (Scenario.demo false) Scenario.healthy)
               with Ok outcome => outcome | Raise _ => ∅ end))
    as (name & j & k & size & _ & Hjk & _ & _ & Hrest).
  - reflexivity.
  - vm_compute. reflexivity.
  - vm_compute. reflexivity.
  - cbv zeta in Hrest. destruct Hrest as (_ & _ & Hrows).
    exists name, j, k, size. split; [exact Hjk|exact Hrows].
Defined.

Lemma event_without_name_or_url_is_refused_witness :
  Backup.outcome_field
    (fst (Backup.lambda_handler
            {| Backup.ev_name := None;
               Backup.ev_clone_url := Some "https://github.com/acme/demo.git";
               Backup.ev_archived := None; Backup.ev_size := None;
               Backup.ev_updated_at := None; Backup.ev_private := None |}
            Scenario.healthy)) "repository"
  = Some (JStr "unknown").
Proof.
  destruct (event_without_name_or_url_is_refused
              {| Backup.ev_name := None;
                 Backup.ev_clone_url := Some "https://github.com/acme/demo.git";
                 Backup.ev_archived := None; Backup.ev_size := None;
                 Backup.ev_updated_at := None; Backup.ev_private := None |}
              Scenario.healthy "acme-backups" "arn:aws:secretsmanager:token" "ghp_token"
              (or_introl eq_refl) eq_refl eq_refl eq_refl eq_refl)
    as (Hok & _).
  rewrite Hok. reflexivity.
Defined.

(** ** Clone strategy *)

Section Clone.

Import Backup.

Lemma clone_error_kind (name : string) (e : exn) :
  exn_kind_of (clone_error name e) = RuntimeError.
Proof. unfold clone_error. repeat case_match; reflexivity. Qed.

(** X8: the errors of the clone are normalised.  A clone URL that
    does not start with [https://github.com/] is refused with a
    [ValueError] before anything is run; any other failure of
    [download_repository] is raised as a [RuntimeError]. *)
Theorem download_repository_raises_runtime_errors (repo_info : RepoInfo)
    (repo_dir token : string) (w : World) :
  let r := download_repository repo_info repo_dir token w in
  if Py.startswith "https://github.com/" (r_clone_url repo_info)
  then match fst r with
       | Ok _ => True
       | Raise e => exn_kind_of e = RuntimeError
       end
  else r = (Raise (Exn ValueError
                     ("Unsupported clone URL format: " +:+ r_clone_url repo_info)), w).
Proof.
  cbv zeta. unfold download_repository.
  destruct (Py.startswith "https://github.com/" (r_clone_url repo_info)); simpl;
    [|reflexivity].
  unfold try_except at 1.
  match goal with |- context [match ?b with _ => _ end] =>
    destruct b as [[[]|e] w'] end; simpl; [done|].
  destruct (is_timeout_expired e); [done|].
  destruct (is_called_process_error e); [apply clone_error_kind|done].
Qed.

(** The effects of a run only grow. *)
Local Ltac grows_prim :=
  frame_prim_by ltac:(fun H => simpl; first [exact H | by apply prefix_app_r]).

Lemma download_repository_grows (e0 : list Effect) (repo_info : RepoInfo)
    (repo_dir token : string) :
  preserves (fun w => e0 `prefix_of` effects w)
    (download_repository repo_info repo_dir token).
Proof. frame_with grows_prim. Qed.

Lemma check_disk_space_oracles_eq (path : string) (required_mb : Z) (w : World) :
  oracles (snd (check_disk_space path required_mb w)) = oracles w.
Proof. by apply (check_disk_space_oracles (oracles w)). Qed.

Lemma subprocess_run_state (argv : list string) (check : bool) (timeout : option Z)
    (w : World) :
  snd (subprocess_run argv check timeout w)
  = set_effects (effects w ++ [EGit argv timeout]) w.
Proof.
  unfold subprocess_run, bind, emit, modify. simpl.
  destruct (git w argv timeout); [destruct (check && negb (_ =? 0))|..]; reflexivity.
Qed.

Lemma subprocess_run_fails (argv : list string) (timeout : option Z)
    (w : World) (rc : Z) (out err : string) :
  git w argv timeout = Exited rc out err -> rc <> 0 ->
  exists e, subprocess_run argv true timeout w
            = (Raise e, set_effects (effects w ++ [EGit argv timeout]) w)
            /\ exn_kind_of e = CalledProcessError err.
Proof.
  intros Hgit Hrc. unfold subprocess_run, bind, emit, modify. simpl.
  rewrite Hgit. apply Z.eqb_neq in Hrc. rewrite Hrc. simpl. eauto.
Qed.

Lemma git_clone_fails (argv : list string) (repo_dir : string) (timeout : Z)
    (w : World) (rc : Z) (out err : string) :
  git w argv (Some timeout) = Exited rc out err -> rc <> 0 ->
  exists e, git_clone argv repo_dir timeout w
            = (Raise e, set_effects (effects w ++ [EGit argv (Some timeout)]) w)
            /\ exn_kind_of e = CalledProcessError err.
Proof.
  intros Hgit Hrc.
  destruct (subprocess_run_fails argv (Some timeout) w rc out err Hgit Hrc)
    as (e & Hrun & Hk).
  exists e. split; [|done]. unfold git_clone, bind. by rewrite Hrun.
Qed.

Lemma git_clone_effects (argv : list string) (repo_dir : string) (timeout : Z)
    (w : World) :
  effects (snd (git_clone argv repo_dir timeout w))
  = effects w ++ [EGit argv (Some timeout)].
Proof.
  unfold git_clone, bind.
  pose proof (subprocess_run_state argv true (Some timeout) w) as Hs.
  destruct (subprocess_run argv true (Some timeout) w) as [[x|e] w1]; simpl in *;
    by subst w1.
Qed.

(** X9: a failed shallow clone is retried as a full mirror clone.
    When the size of the repository is a number (or missing) and the
    shallow clone exits with an error, the next command
    [download_repository] runs is the full mirror clone of the same
    URL into the same directory, with a limit of 900 seconds for a
    size below 100000 KB and 1200 seconds otherwise. *)
Theorem failed_shallow_clone_falls_back (repo_info : RepoInfo)
    (repo_dir token : string) (w : World) (n rc : Z) (out err : string) :
  Py.startswith "https://github.com/" (r_clone_url repo_info) = true ->
  default (JInt 0) (r_size repo_info) = JInt n ->
  let url := authenticated_url (r_clone_url repo_info) token in
  let shallow := EGit (shallow_clone url repo_dir)
                   (Some (if 100000 <? n then 600 else 300)) in
  let full := EGit (full_clone url repo_dir)
                (Some (if n <? 100000 then 900 else 1200)) in
  git w (shallow_clone url repo_dir) (Some (if 100000 <? n then 600 else 300))
  = Exited rc out err ->
  rc <> 0 ->
  exists rest,
    effects (snd (download_repository repo_info repo_dir token w))
    = effects w ++ [shallow; full] ++ rest.
Proof.
  intros Hurl Hsize url shallow full Hgit Hrc.
  cut ((effects w ++ [shallow; full])
         `prefix_of` effects (snd (download_repository repo_info repo_dir token w))).
  { intros [rest ->]. exists rest. by rewrite <- app_assoc. }
  unfold download_repository. rewrite Hurl. cbv beta iota zeta delta [negb].
  rewrite Hsize.
  unfold try_except at 1. unfold bind at 1.
  unfold try_except_only at 1. unfold try_except at 1. unfold bind at 1.
  destruct (git_clone_fails (shallow_clone url repo_dir) repo_dir
              (if 100000 <? n then 600 else 300) w rc out err Hgit Hrc)
    as (e & Hrun & Hkind).
  change (shallow_timeout (JInt n)) with (if 100000 <? n then 600 else 300).
  fold (authenticated_url (r_clone_url repo_info) token). fold url.
  fold (shallow_clone url repo_dir). rewrite Hrun.
  unfold is_called_process_error at 1. rewrite Hkind.
  unfold bind at 1. simpl below_threshold. unfold ret at 1.
  fold (full_clone url repo_dir).
  match goal with |- context [git_clone ?a ?d ?t ?x] =>
    pose proof (git_clone_effects a d t x) as Hfull;
    destruct (git_clone a d t x) as [[[]|e2] w2] end;
    simpl in Hfull; rewrite <- app_assoc in Hfull;
    change (effects w2 = effects w ++ [shallow; full]) in Hfull.
  - match goal with |- context [bind ?c ?k w2] =>
      assert (preserves (fun x => effects w2 `prefix_of` effects x) (bind c k)) as Hrest
        by (frame_with grows_prim);
      specialize (Hrest w2 (reflexivity _));
      destruct (bind c k w2) as [[[]|e3] w3] end; simpl in *.
    + by rewrite Hfull in Hrest.
    + destruct (is_timeout_expired e3); [|destruct (is_called_process_error e3)];
        simpl; by rewrite Hfull in Hrest.
  - destruct (is_timeout_expired e2); [|destruct (is_called_process_error e2)];
      simpl; by rewrite Hfull.
Qed.

(** X10: without a numeric size there is no fallback.  When the size
    of the repository is a string (the handler of one backup puts
    ["unknown"] where the event carries none) and the shallow clone
    exits with an error, [download_repository] runs no second clone:
    the comparison of the size with 100000 raises a [TypeError], which
    comes out as the "Unexpected error cloning" [RuntimeError]. *)
Theorem no_fallback_without_a_numeric_size (repo_info : RepoInfo)
    (repo_dir token : string) (w : World) (size : string) (rc : Z)
    (out err : string) :
  Py.startswith "https://github.com/" (r_clone_url repo_info) = true ->
  r_size repo_info = Some (JStr size) ->
  let url := authenticated_url (r_clone_url repo_info) token in
  git w (shallow_clone url repo_dir) (Some 300) = Exited rc out err ->
  rc <> 0 ->
  download_repository repo_info repo_dir token w
  = (Raise (Exn RuntimeError
              ("Unexpected error cloning " +:+ r_name repo_info
                 +:+ ": '<' not supported between instances of 'str' and 'int'")),
     set_effects (effects w ++ [EGit (shallow_clone url repo_dir) (Some 300)]) w).
Proof.
  intros Hurl Hsize url Hgit Hrc.
  unfold download_repository. rewrite Hurl. cbv beta iota zeta delta [negb].
  rewrite Hsize.
  unfold try_except at 1. unfold bind at 1.
  unfold try_except_only at 1. unfold try_except at 1. unfold bind at 1.
  destruct (git_clone_fails (shallow_clone url repo_dir) repo_dir 300 w rc out err
              Hgit Hrc) as (e & Hrun & Hkind).
  change (shallow_timeout (default (JInt 0) (Some (JStr size)))) with 300.
  fold (authenticated_url (r_clone_url repo_info) token). fold url.
  fold (shallow_clone url repo_dir). rewrite Hrun.
  unfold is_called_process_error at 1. rewrite Hkind.
  reflexivity.
Qed.

(** X11: a shallow clone that runs out of time is final.  When the
    shallow clone exceeds its limit, [download_repository] runs no
    other command and raises the "timed out after 15 minutes"
    [RuntimeError], whatever the limit was (300 or 600 seconds). *)
Theorem shallow_clone_timeout_is_final (repo_info : RepoInfo)
    (repo_dir token : string) (w : World) :
  Py.startswith "https://github.com/" (r_clone_url repo_info) = true ->
  let url := authenticated_url (r_clone_url repo_info) token in
  let limit := shallow_timeout (default (JInt 0) (r_size repo_info)) in
  git w (shallow_clone url repo_dir) (Some limit) = TimedOut ->
  (limit = 300 \/ limit = 600)
  /\ download_repository repo_info repo_dir token w
     = (Raise (Exn RuntimeError
                 ("Git clone timed out after 15 minutes for repository: "
                    +:+ r_name repo_info)),
        set_effects (effects w ++ [EGit (shallow_clone url repo_dir) (Some limit)]) w).
Proof.
  intros Hurl url limit Hgit. split.
  { unfold limit, shallow_timeout. destruct (is_large _); auto. }
  unfold download_repository. rewrite Hurl. cbv beta iota zeta delta [negb].
  unfold try_except at 1. unfold bind at 1.
  unfold try_except_only at 1. unfold try_except at 1. unfold bind at 1.
  fold (authenticated_url (r_clone_url repo_info) token). fold url.
  fold (shallow_clone url repo_dir). fold limit.
  unfold git_clone at 1. unfold bind at 1.
  unfold subprocess_run at 1. unfold bind at 1. unfold emit, modify.
  cbv beta iota. simpl git. rewrite Hgit.
  reflexivity.
Qed.

(** What the attempt at the full history leaves: it returns, and the
    answers of the outside are as they were. *)
Lemma unshallow_attempt (repo_dir : string) (limit : Z) (w : World) :
  exists w',
    try_except
      (check_disk_space (dirname repo_dir) 100 ;;
       _ <- subprocess_run ["git"; "--git-dir"; repo_dir; "fetch"; "--unshallow"]
              true (Some limit) ;;
       ret tt)%py
      (fun unshallow_error => ret tt) w = (Ok tt, w')
    /\ oracles w' = oracles w.
Proof.
  match goal with |- context [try_except ?b ?h w] =>
    assert (preserves (fun x => oracles x = oracles w) (try_except b h)) as Hp
      by (frame_with frame_prim);
    specialize (Hp w eq_refl);
    destruct (try_except_ret_total b tt w) as ([] & w' & Hrun) end.
  rewrite Hrun in *. eauto.
Qed.

(** A statistics command that exits, with whatever code, does not
    stop the clone. *)
Lemma statistics_are_optional (repo_dir : string) (w : World) :
  (forall argv, exists rc out err, git w argv None = Exited rc out err) ->
  exists w',
    try_except_only is_called_process_error
      (_ <- subprocess_run ["git"; "--git-dir"; repo_dir; "rev-list"; "--all"; "--count"]
              true None ;;
       _ <- subprocess_run ["git"; "--git-dir"; repo_dir; "branch"; "-a"] true None ;;
       _ <- subprocess_run ["git"; "--git-dir"; repo_dir; "tag"; "-l"] true None ;;
       ret tt)%py
      (fun _ => ret tt) w = (Ok tt, w').
Proof.
  intros Hgit.
  assert (forall argv x, git x = git w ->
            (exists v, subprocess_run argv true None x
                       = (Ok v, set_effects (effects x ++ [EGit argv None]) x))
            \/ (exists e, subprocess_run argv true None x
                          = (Raise e, set_effects (effects x ++ [EGit argv None]) x)
                          /\ is_called_process_error e = true)) as Hrun.
  { intros argv x Hx. destruct (Hgit argv) as (rc & out & err & Hans).
    unfold subprocess_run, bind, emit, modify. simpl. rewrite Hx, Hans.
    destruct (negb (rc =? 0)); simpl; eauto. }
  unfold try_except_only, try_except.
  unfold bind at 1.
  destruct (Hrun ["git"; "--git-dir"; repo_dir; "rev-list"; "--all"; "--count"] w eq_refl)
    as [(v1 & ->)|(e1 & -> & ->)]; [|eauto].
  unfold bind at 1.
  match goal with |- context [subprocess_run ?a true None ?x] =>
    destruct (Hrun a x eq_refl) as [(v2 & ->)|(e2 & -> & ->)]; [|eauto] end.
  unfold bind at 1.
  match goal with |- context [subprocess_run ?a true None ?x] =>
    destruct (Hrun a x eq_refl) as [(v3 & ->)|(e3 & -> & ->)]; [|eauto] end.
  eauto.
Qed.

(** X12: a shallow backup is accepted.  When the shallow clone
    succeeds, the clone is a git repository, and the commands that run
    without a limit exit, [download_repository] returns normally:
    neither a failure of the fetch of the full history, whatever it is,
    nor a statistics command that exits with an error stops it. *)
Theorem shallow_backup_is_accepted (repo_info : RepoInfo)
    (repo_dir token : string) (w : World) (out err out' err' : string) :
  Py.startswith "https://github.com/" (r_clone_url repo_info) = true ->
  let url := authenticated_url (r_clone_url repo_info) token in
  let limit := shallow_timeout (default (JInt 0) (r_size repo_info)) in
  git w (shallow_clone url repo_dir) (Some limit) = Exited 0 out err ->
  git w ["git"; "--git-dir"; repo_dir; "rev-parse"; "--git-dir"] None
  = Exited 0 out' err' ->
  (forall argv, exists rc out err, git w argv None = Exited rc out err) ->
  fst (download_repository repo_info repo_dir token w) = Ok tt.
Proof.
  intros Hurl url limit Hshallow Hcheck Hstats.
  unfold download_repository. rewrite Hurl. cbv beta iota zeta delta [negb].
  unfold try_except at 1. unfold bind at 1.
  unfold try_except_only at 1. unfold try_except at 1. unfold bind at 1.
  fold (authenticated_url (r_clone_url repo_info) token). fold url.
  fold (shallow_clone url repo_dir). fold limit.
  unfold git_clone at 1. unfold bind at 1.
  unfold subprocess_run at 1. unfold bind at 1. unfold emit at 1, modify at 1.
  cbv beta iota. simpl git. rewrite Hshallow. cbv beta iota. simpl andb.
  cbv beta iota. unfold modify at 1.
  match goal with |- context [try_except ?b ?h ?x] =>
    lazymatch b with
    | bind (check_disk_space _ _) _ =>
        destruct (unshallow_attempt repo_dir
                    (unshallow_timeout (default (JInt 0) (r_size repo_info))) x)
          as (w2 & Hun & Ho2)
    end end.
  rewrite Hun. cbv beta iota.
  assert (git w2 = git w) as Hgit2 by (unfold oracles in Ho2; simpl in Ho2; congruence).
  unfold bind at 1. unfold subprocess_run at 1. unfold bind at 1.
  unfold emit at 1, modify at 1. cbv beta iota. simpl git. rewrite Hgit2, Hcheck.
  cbv beta iota. simpl andb. cbv beta iota. simpl fst. simpl negb. cbv beta iota.
  unfold bind at 1. unfold ret at 1.
  match goal with |- context [try_except_only ?s ?b ?h ?x] =>
    destruct (statistics_are_optional repo_dir x) as (w3 & Hst) end.
  { intros argv. simpl git. rewrite Hgit2. apply Hstats. }
  rewrite Hst. reflexivity.
Qed.

End Clone.

Lemma failed_shallow_clone_falls_back_witness :
  let w := CloneScenario.with_git CloneScenario.shallow_refused in
  exists rest,
    Backup.effects (snd (Backup.download_repository Scenario.demo_info
                           CloneScenario.repo_dir "ghp_token" w))
    = Backup.effects w
        ++ [ Backup.EGit (Backup.shallow_clone CloneScenario.url CloneScenario.repo_dir)
               (Some 300);
             Backup.EGit (Backup.full_clone CloneScenario.url CloneScenario.repo_dir)
               (Some 900) ] ++ rest.
Proof.
  apply (failed_shallow_clone_falls_back Scenario.demo_info CloneScenario.repo_dir
           "ghp_token" (CloneScenario.with_git CloneScenario.shallow_refused)
           51200 128 EmptyString "fatal: the remote end hung up unexpectedly");
    [reflexivity|reflexivity|reflexivity|discriminate].
Defined.

Lemma no_fallback_without_a_numeric_size_witness :
  let w := CloneScenario.with_git CloneScenario.shallow_refused in
  Backup.effects (snd (Backup.download_repository CloneScenario.unknown_size
                         CloneScenario.repo_dir "ghp_token" w))
  = [ Backup.EGit (Backup.shallow_clone CloneScenario.url CloneScenario.repo_dir)
        (Some 300) ].
Proof.
  cbv zeta.
  rewrite (no_fallback_without_a_numeric_size CloneScenario.unknown_size
             CloneScenario.repo_dir "ghp_token"
             (CloneScenario.with_git CloneScenario.shallow_refused)
             "unknown" 128 EmptyString "fatal: the remote end hung up unexpectedly");
    [reflexivity|reflexivity|reflexivity|reflexivity|discriminate].
Defined.

Lemma shallow_clone_timeout_is_final_witness :
  let w := CloneScenario.with_git CloneScenario.shallow_slow in
  fst (Backup.download_repository Scenario.demo_info CloneScenario.repo_dir
         "ghp_token" w)
  = Raise (Exn RuntimeError "Git clone timed out after 15 minutes for repository: demo").
Proof.
  cbv zeta.
  destruct (shallow_clone_timeout_is_final Scenario.demo_info CloneScenario.repo_dir
              "ghp_token" (CloneScenario.with_git CloneScenario.shallow_slow)
              eq_refl eq_refl) as [_ Hrun].
  rewrite Hrun. reflexivity.
Defined.

Lemma shallow_backup_is_accepted_witness :
  fst (Backup.download_repository Scenario.demo_info CloneScenario.repo_dir
         "ghp_token" (CloneScenario.with_git CloneScenario.history_out_of_reach))
  = Ok tt.
Proof.
  apply (shallow_backup_is_accepted Scenario.demo_info CloneScenario.repo_dir
           "ghp_token" (CloneScenario.with_git CloneScenario.history_out_of_reach)
           EmptyString EmptyString EmptyString EmptyString);
    [reflexivity|reflexivity|reflexivity|].
  intros argv. unfold CloneScenario.with_git, Scenario.world. simpl.
  unfold CloneScenario.history_out_of_reach.
  repeat case_bool_decide; simpl; eauto.
Defined.

(** ** The batch of backups *)

Section Batch.

Import Backup.

Variables (bucket token date_str : string).

Lemma backup_repositories_loop (repositories : list Event) (w : World) :
  backup_repositories repositories bucket token w
  = for_each repositories []
      (batch_turn bucket token (strftime_Ymd (civil (clock w (ticks w)))))
      (set_ticks (S (ticks w)) w).
Proof. reflexivity. Qed.

(** One turn of the loop on a repository that has a name: one outcome
    more, under that name. *)
Lemma batch_turn_named (results : list (gmap string JVal)) (repo : Event)
    (name : string) (w : World) :
  ev_name repo = Some name ->
  exists outcome w',
    batch_turn bucket token date_str results repo w = (Ok (results ++ [outcome]), w')
    /\ outcome !! "repository" = Some (JStr name).
Proof.
  intros Hname. unfold batch_turn. rewrite Hname. unfold try_except.
  destruct (truthy (default (JBool false) (ev_archived repo))).
  - simpl. unfold bind, ret. simpl. eauto.
  - unfold require at 1. unfold bind at 1, ret at 1.
    destruct (ev_clone_url repo) as [clone_url|].
    + unfold require at 1. unfold bind at 1, ret at 1. unfold bind at 1.
      match goal with |- context [backup_single_repository ?r ?b ?t ?d w] =>
        destruct (backup_single_repository r b t d w) as [[o|e] w1] eqn:Hrun end.
      * apply backup_single_repository_ok in Hrun as (stamp & size & -> & _).
        unfold ret. eauto.
      * unfold require, bind, ret. simpl. eauto.
    + unfold require, bind, ret, raise. simpl. eauto.
Qed.

Lemma batch_loop (repositories : list Event) :
  Forall (fun repo => is_Some (ev_name repo)) repositories ->
  forall (results : list (gmap string JVal)) (w : World),
  exists more w',
    for_each repositories results (batch_turn bucket token date_str) w
    = (Ok (results ++ more), w')
    /\ (fun outcome => outcome !! "repository") <$> more
       = (fun repo => JStr <$> ev_name repo) <$> repositories.
Proof.
  induction 1 as [|repo repositories [name Hname] _ IH]; intros results w.
  - exists [], w. by rewrite app_nil_r.
  - simpl. unfold bind at 1.
    destruct (batch_turn_named results repo name w Hname) as (outcome & w1 & -> & Ho).
    destruct (IH (results ++ [outcome]) w1) as (more & w2 & -> & Hmore).
    exists (outcome :: more), w2. split.
    + by rewrite <- app_assoc.
    + rewrite !fmap_cons. by rewrite Ho, Hmore, Hname.
Qed.

Lemma batch_loop_aborts (before after : list Event) (repo : Event) :
  Forall (fun repo => is_Some (ev_name repo)) before ->
  ev_name repo = None ->
  forall (results : list (gmap string JVal)) (w : World),
  fst (for_each (before ++ repo :: after) results (batch_turn bucket token date_str) w)
  = Raise (Exn KeyError "'name'").
Proof.
  intros Hnames Hnone.
  induction Hnames as [|x before [name Hname] _ IH]; intros results w.
  - simpl. unfold bind at 1. unfold batch_turn, try_except. rewrite Hnone.
    destruct (truthy (default (JBool false) (ev_archived repo))); reflexivity.
  - simpl. unfold bind at 1.
    destruct (batch_turn_named results x name w Hname) as (outcome & w1 & -> & _).
    apply IH.
Qed.

End Batch.

Section BatchFacts.

Import Backup.

(** X13: the batch answers for every repository.  When every
    repository of the list has a name, [backup_repositories] raises
    nothing and returns one outcome per repository, in the order of the
    list, each under the name of its repository: a backup that fails
    does not stop the ones after it. *)
Theorem batch_answers_for_every_repository (repositories : list Event)
    (bucket token : string) (w : World) :
  Forall (fun repo => is_Some (ev_name repo)) repositories ->
  exists results,
    fst (backup_repositories repositories bucket token w) = Ok results
    /\ (fun outcome => outcome !! "repository") <$> results
       = (fun repo => JStr <$> ev_name repo) <$> repositories.
Proof.
  intros Hnames. rewrite backup_repositories_loop.
  destruct (batch_loop bucket token (strftime_Ymd (civil (clock w (ticks w))))
              repositories Hnames [] (set_ticks (S (ticks w)) w))
    as (more & w' & Hrun & Hmore).
  rewrite Hrun. eauto.
Qed.

(** X14: a repository without a name aborts the batch.  The first
    repository of the list that has no [name] makes
    [backup_repositories] raise [KeyError('name')], from the handler
    that was to report its failure; the outcomes collected so far are
    lost. *)
Theorem repository_without_name_aborts_the_batch (before after : list Event)
    (repo : Event) (bucket token : string) (w : World) :
  Forall (fun repo => is_Some (ev_name repo)) before ->
  ev_name repo = None ->
  fst (backup_repositories (before ++ repo :: after) bucket token w)
  = Raise (Exn KeyError "'name'").
Proof.
  intros Hnames Hnone. rewrite backup_repositories_loop.
  by apply batch_loop_aborts.
Qed.

End BatchFacts.

Lemma batch_answers_for_every_repository_witness :
  exists results,
    fst (Backup.backup_repositories [Scenario.demo true; Scenario.demo false]
           "acme-backups" "ghp_token" Scenario.healthy) = Ok results
    /\ (fun outcome => outcome !! "repository") <$> results
       = [Some (JStr "demo"); Some (JStr "demo")].
Proof.
  apply (batch_answers_for_every_repository [Scenario.demo true; Scenario.demo false]
           "acme-backups" "ghp_token" Scenario.healthy).
  repeat constructor; by eexists.
Defined.

Lemma repository_without_name_aborts_the_batch_witness :
  fst (Backup.backup_repositories
         [ Scenario.demo false;
           {| Backup.ev_name := None;
              Backup.ev_clone_url := Some "https://github.com/acme/other.git";
              Backup.ev_archived := None; Backup.ev_size := None;
              Backup.ev_updated_at := None; Backup.ev_private := None |} ]
         "acme-backups" "ghp_token" Scenario.healthy)
  = Raise (Exn KeyError "'name'").
Proof.
  apply (repository_without_name_aborts_the_batch [Scenario.demo false] []);
    [repeat constructor; by eexists|reflexivity].
Defined.

(** ** The category of a reworded failure *)

Section Substrings.

Lemma startswith_nil_l (s : string) : Py.startswith EmptyString s = true.
Proof. by destruct s. Qed.

Lemma str_in_nil_l (s : string) : Py.str_in EmptyString s = true.
Proof. destruct s; reflexivity. Qed.

(** A beginning of [x +:+ b] lies within [x] or goes on into [b]. *)
Lemma startswith_straddle (b : string) :
  forall x p,
    Py.startswith p (x +:+ b) = true ->
    Py.startswith p x = true
    \/ exists p2, p = x +:+ p2 /\ p2 <> EmptyString /\ Py.startswith p2 b = true.
Proof.
  induction x as [|c x IH]; intros p H.
  - rewrite app_nil_l in H. destruct p as [|d p]; [by left|].
    right. exists (String d p). by rewrite app_nil_l.
  - destruct p as [|d p]; [by left|].
    rewrite app_cons in H. simpl in H. simpl.
    destruct (decide (d = c)) as [->|]; [|done].
    destruct (IH p H) as [Hl|(p2 & -> & Hne & Hp2)]; [by left|].
    right. exists p2. by rewrite app_cons.
Qed.

Lemma str_in_app_l (p a s : string) :
  Py.str_in p a = true -> Py.str_in p (a +:+ s) = true.
Proof.
  intros (u & v & ->)%str_in_spec. apply str_in_spec.
  exists u, (v +:+ s). by rewrite !string_app_assoc.
Qed.

Lemma str_in_app_r (p a s : string) :
  Py.str_in p s = true -> Py.str_in p (a +:+ s) = true.
Proof.
  intros (u & v & ->)%str_in_spec. apply str_in_spec.
  exists (a +:+ u), v. by rewrite !string_app_assoc.
Qed.

(** An occurrence of [p] in [a +:+ s] lies in [a] or in [s] when it
    cannot begin in [a] and go on. *)
Lemma str_in_after (p a s : string) :
  Overlap.meets p a = false ->
  Py.str_in p (a +:+ s) = Py.str_in p a || Py.str_in p s.
Proof.
  intros Hm. apply eq_true_iff_eq. rewrite orb_true_iff. split.
  - revert Hm. induction a as [|c a IH]; intros Hm H.
    + rewrite app_nil_l in H. by right.
    + change (Overlap.meets p (String c a))
        with ((Py.startswith (String c a) p
               && (String.length (String c a) <? String.length p)%nat)
              || Overlap.meets p a) in Hm.
      apply orb_false_iff in Hm as [Hhead Hm].
      rewrite app_cons in H. simpl in H. apply orb_true_iff in H as [H|H].
      * rewrite <- app_cons in H.
        apply startswith_straddle in H as [H|(p2 & -> & Hne & _)].
        -- left. by apply str_in_startswith.
        -- exfalso. rewrite startswith_app in Hhead.
           apply Nat.ltb_ge in Hhead. rewrite string_length_app in Hhead.
           destruct p2; [done|]. simpl in Hhead. lia.
      * destruct (IH Hm H) as [Ha|Hs]; [|by right].
        left. simpl. rewrite Ha. apply orb_true_r.
  - intros [H|H]; [by apply str_in_app_l|by apply str_in_app_r].
Qed.

Lemma touches_intro (b p2 : string) :
  p2 <> EmptyString -> Py.startswith p2 b = true ->
  forall x, x <> EmptyString -> Overlap.touches (x +:+ p2) b = true.
Proof.
  intros Hne Hp2. induction x as [|c x IH]; intros Hx; [done|].
  rewrite app_cons. simpl. destruct x as [|d x].
  - rewrite app_nil_l. rewrite bool_decide_eq_false_2 by done. by rewrite Hp2.
  - rewrite IH by done. apply orb_true_r.
Qed.

(** An occurrence of [p] in [x +:+ b] lies in [x] or in [b] when it
    cannot begin before [b] and end in it. *)
Lemma str_in_before (p b x : string) :
  Overlap.touches p b = false ->
  Py.str_in p (x +:+ b) = Py.str_in p x || Py.str_in p b.
Proof.
  intros Ht. apply eq_true_iff_eq. rewrite orb_true_iff. split.
  - induction x as [|c x IH]; intros H.
    + rewrite app_nil_l in H. by right.
    + rewrite app_cons in H. simpl in H. apply orb_true_iff in H as [H|H].
      * rewrite <- app_cons in H.
        apply startswith_straddle in H as [H|(p2 & -> & Hne & Hp2)].
        -- left. by apply str_in_startswith.
        -- exfalso. by rewrite (touches_intro b p2 Hne Hp2 (String c x)) in Ht.
      * destruct (IH H) as [Hx|Hb]; [|by right].
        left. simpl. rewrite Hx. apply orb_true_r.
  - intros [H|H]; [by apply str_in_app_l|by apply str_in_app_r].
Qed.

Lemma lower_app (a b : string) : Py.lower (a +:+ b) = Py.lower a +:+ Py.lower b.
Proof. induction a as [|c a IH]; [done|]. rewrite app_cons. simpl. by rewrite IH. Qed.

(** An occurrence of [p] in [a +:+ n +:+ b] lies in one of the three. *)
Lemma str_in_framed (p a n b : string) :
  Overlap.meets p a = false -> Overlap.touches p b = false ->
  Py.str_in p (a +:+ n +:+ b) = Py.str_in p a || (Py.str_in p n || Py.str_in p b).
Proof. intros Hm Ht. by rewrite str_in_after, str_in_before. Qed.

End Substrings.

Section Rewording.

Import Backup.

Lemma neutral_spec (s p : string) :
  neutral s = true -> In p patterns -> Py.str_in p (Py.lower s) = false.
Proof.
  unfold neutral. rewrite forallb_forall. intros H Hp.
  by apply negb_true_iff, H.
Qed.

(** One of the texts of [patterns], in a message made of a fixed
    beginning [a], a text [n] free of the patterns, and an end [b]. *)
Local Ltac locate Hn a n b p :=
  rewrite ?(str_in_framed p a n b) by (vm_compute; reflexivity);
  rewrite ?(neutral_spec _ p Hn) by (vm_compute; tauto).

Local Ltac locate_all Hn a n b :=
  locate Hn a n b "no space left"; locate Hn a n b "insufficient disk space";
  locate Hn a n b "authentication failed"; locate Hn a n b "permission denied";
  locate Hn a n b "repository not found"; locate Hn a n b "not found";
  locate Hn a n b "timeout"; locate Hn a n b "timed out";
  locate Hn a n b "network"; locate Hn a n b "connection"; locate Hn a n b "dns";
  locate Hn a n b "libpcre2"; locate Hn a n b "shared libraries";
  locate Hn a n b "no such file or directory"; locate Hn a n b "git";
  locate Hn a n b "memory"; locate Hn a n b "out of memory".

(** X15: the category of a failure after rewording.  For a repository
    whose name and size hold none of the texts the classifier looks
    for, the error that [backup_single_repository] raises in place of
    an error [e] is classified as follows: UNKNOWN when [e] speaks of
    a lack of disk space (the reworded message no longer does);
    AUTHENTICATION, REPOSITORY_ACCESS and TIMEOUT when [e] holds
    "authentication failed", "repository not found" and "timed out",
    tested in this order; and as [e] itself otherwise. *)
Theorem category_of_a_reworded_failure (repo : RepoInfo) (e : exn) :
  neutral (r_name repo) = true ->
  neutral (size_shown repo) = true ->
  Taxonomy.categorize_error (exn_str (backup_error repo e))
  = if disk_space_text (exn_str e) then "UNKNOWN"
    else if Py.str_in "authentication failed" (Py.lower (exn_str e))
    then "AUTHENTICATION"
    else if Py.str_in "repository not found" (Py.lower (exn_str e))
    then "REPOSITORY_ACCESS"
    else if Py.str_in "timed out" (Py.lower (exn_str e)) then "TIMEOUT"
    else Taxonomy.categorize_error (exn_str e).
Proof.
  intros Hname Hsize. unfold backup_error, disk_space_text.
  destruct (Py.str_in "no space left" (Py.lower (exn_str e))
            || Py.str_in "insufficient disk space" (Py.lower (exn_str e))).
  - cbn [exn_str]. unfold Taxonomy.categorize_error. cbv zeta.
    rewrite !lower_app.
    locate_all Hname (Py.lower "Ephemeral storage exhausted while backing up ")
      (Py.lower (r_name repo))
      (Py.lower ". Repository size: " +:+ Py.lower (size_shown repo)
         +:+ Py.lower " KB").
    locate_all Hsize (Py.lower ". Repository size: ")
      (Py.lower (size_shown repo)) (Py.lower " KB").
    reflexivity.
  - destruct (Py.str_in "authentication failed" (Py.lower (exn_str e))).
    { cbn [exn_str]. unfold Taxonomy.categorize_error. cbv zeta.
      rewrite !lower_app.
      locate_all Hname (Py.lower "GitHub authentication failed for ")
        (Py.lower (r_name repo)) (Py.lower ". Check token permissions.").
      reflexivity. }
    destruct (Py.str_in "repository not found" (Py.lower (exn_str e))).
    { cbn [exn_str]. unfold Taxonomy.categorize_error. cbv zeta.
      rewrite !lower_app.
      locate_all Hname (Py.lower "Repository ")
        (Py.lower (r_name repo))
        (Py.lower " not found. It may be private, deleted, or renamed.").
      change (Py.str_in "not found" (Py.lower "Repository ")
              || (false
                  || Py.str_in "not found"
                       (Py.lower " not found. It may be private, deleted, or renamed.")))
        with true.
      rewrite orb_true_r. reflexivity. }
    destruct (Py.str_in "timed out" (Py.lower (exn_str e))).
    { cbn [exn_str]. unfold Taxonomy.categorize_error. cbv zeta.
      rewrite !lower_app.
      locate_all Hname (Py.lower "Timeout while backing up ")
        (Py.lower (r_name repo)) (Py.lower ". Repository may be too large.").
      reflexivity. }
    cbn [exn_str]. unfold Taxonomy.categorize_error. cbv zeta.
    rewrite !lower_app.
    locate_all Hname (Py.lower "Failed to backup ")
      (Py.lower (r_name repo)) (Py.lower ": " +:+ Py.lower (exn_str e)).
    rewrite !(str_in_after _ (Py.lower ": ")) by (vm_compute; reflexivity).
    reflexivity.
Qed.

End Rewording.

Lemma category_of_a_reworded_failure_witness :
  Taxonomy.categorize_error
    (exn_str (Backup.backup_error Scenario.demo_info
                (Exn RuntimeError "No space left on device while cloning demo")))
  = "UNKNOWN".
Proof.
  rewrite (category_of_a_reworded_failure Scenario.demo_info
             (Exn RuntimeError "No space left on device while cloning demo"));
    reflexivity.
Defined.

(** ** Cold migration: what the outcome says *)

Section Outcome.

Import Archival.

Lemma failed_outcome_fields (backup_info : BackupInfo) (e : exn) :
  failed_outcome backup_info e !! "success" = Some (JBool false)
  /\ failed_outcome backup_info e !! "error" = Some (JStr (exn_str e)).
Proof. split; reflexivity. Qed.

(** X16: the outcome of a migration is truthful.
    [archive_single_backup] raises nothing.  When its outcome says
    [success: True], the backup is gone from under its key, its record
    is in the bucket and names an archive of the vault that holds what
    was under the key; when it says [success: False], it carries the
    text of an error, and what is under the key of the backup is what
    was there before. *)
Theorem migration_outcome_is_truthful (bucket glacier_vault : string)
    (backup_info : BackupInfo) (st : Store) :
  let r := archive_single_backup bucket glacier_vault backup_info st in
  let k := b_key backup_info in
  exists outcome,
    fst r = Ok outcome
    /\ ((outcome !! "success" = Some (JBool true)
         /\ s3 (snd r) !! k = None
         /\ exists body record,
              s3 st !! k = Some body
              /\ s3 (snd r) !! metadata_key_of k = Some (Metadata record)
              /\ original_key record = k
              /\ Some (original_size record) = b_size backup_info
              /\ outcome !! "archive_id" = Some (JStr (archive_id record))
              /\ vault (snd r) !! archive_id record = Some body)
        \/ (outcome !! "success" = Some (JBool false)
            /\ (exists e, outcome !! "error" = Some (JStr (exn_str e)))
            /\ s3 (snd r) !! k = s3 st !! k)).
Proof.
  cbv zeta.
  cbv [archive_single_backup try_except bind now size_of ret raise].
  unfold download_fileobj.
  destruct (download_err (called _ st) (b_key backup_info)) as [e|] eqn:Hd.
  { eexists. split; [reflexivity|]. right.
    destruct (failed_outcome_fields backup_info e). eauto. }
  change (s3 (called (Download (b_key backup_info)) st)) with (s3 st).
  destruct (s3 st !! b_key backup_info) as [body|] eqn:Hbody.
  2:{ eexists. split; [reflexivity|]. right.
      match goal with |- context [failed_outcome _ ?e] =>
        destruct (failed_outcome_fields backup_info e) end.
      simpl. eauto. }
  unfold upload_archive.
  match goal with |- context [upload_ans ?x ?d] =>
    destruct (upload_ans x d) as [id|e] eqn:Hu end.
  2:{ eexists. split; [reflexivity|]. right.
      destruct (failed_outcome_fields backup_info e). simpl. eauto. }
  destruct (b_size backup_info) as [size|] eqn:Hsize.
  2:{ eexists. split; [reflexivity|]. right.
      match goal with |- context [failed_outcome _ ?e] =>
        destruct (failed_outcome_fields backup_info e) end.
      simpl. eauto. }
  unfold put_object.
  match goal with |- context [put_err ?x ?d] =>
    destruct (put_err x d) as [e|] eqn:Hp end.
  { eexists. split; [reflexivity|]. right.
    destruct (failed_outcome_fields backup_info e). simpl. eauto. }
  unfold delete_object.
  match goal with |- context [delete_err ?x ?d] =>
    destruct (delete_err x d) as [e|] eqn:Hdel end.
  { eexists. split; [reflexivity|]. right.
    destruct (failed_outcome_fields backup_info e). simpl.
    split; [done|]. split; [eauto|].
    rewrite lookup_insert_ne; [done|apply metadata_key_differs]. }
  eexists. split; [reflexivity|]. left. simpl.
  split; [reflexivity|]. split; [apply lookup_delete_eq|].
  eexists body, _. split; [done|].
  split.
  { rewrite lookup_delete_ne; [apply lookup_insert_eq|].
    intros H. by apply (metadata_key_differs (b_key backup_info)). }
  repeat split. simpl. apply lookup_insert_eq.
Qed.

(** X17: a backup described without its size.  When [backup_info]
    has no [size], the migration cannot succeed; and when the download
    and the upload to the vault succeed, it has by then put the
    archive into the vault: it stops at the metadata with
    [KeyError('size')], having written no record and deleted nothing. *)
Theorem migration_without_size_leaves_an_archive (bucket glacier_vault : string)
    (backup_info : BackupInfo) (st : Store) (body : Body) (id : string) :
  b_size backup_info = None ->
  let k := b_key backup_info in
  s3 st !! k = Some body ->
  download_err st k = None ->
  upload_ans st ("Archived backup: " +:+ k) = Ok id ->
  let r := archive_single_backup bucket glacier_vault backup_info st in
  fst r = Ok (failed_outcome backup_info (Exn KeyError "'size'"))
  /\ vault (snd r) = <[id := body]> (vault st)
  /\ s3 (snd r) = s3 st
  /\ calls (snd r)
     = calls st ++ [ Download k;
                     UploadArchive glacier_vault ("Archived backup: " +:+ k) ].
Proof.
  intros Hsize k Hbody Hd Hu. cbv zeta.
  cbv [archive_single_backup try_except bind now size_of ret raise].
  unfold download_fileobj.
  change (download_err (called (Download (b_key backup_info)) st)) with (download_err st).
  change (s3 (called (Download (b_key backup_info)) st)) with (s3 st).
  fold k. rewrite Hd, Hbody.
  unfold upload_archive.
  match goal with |- context [upload_ans ?x ?d] =>
    change (upload_ans x d) with (upload_ans st ("Archived backup: " +:+ k)) end.
  rewrite Hu, Hsize. simpl. rewrite <- app_assoc. done.
Qed.

End Outcome.

Lemma migration_without_size_leaves_an_archive_witness :
  let sizeless :=
    {| Archival.b_key := "nightly/demo/2025-05-01-22-32.tar.gz";
       Archival.b_repository_name := Some "demo";
       Archival.b_backup_filename := Some "2025-05-01-22-32.tar.gz";
       Archival.b_size := None; Archival.b_age_days := Some (JInt 61) |} in
  Archival.vault
    (snd (Archival.archive_single_backup "acme-backups" "acme-vault" sizeless
            ArchivalScenario.store))
  = <["archive-0001" := Archival.Blob "tarball"]> ∅.
Proof.
  cbv zeta.
  destruct (migration_without_size_leaves_an_archive "acme-backups" "acme-vault"
              {| Archival.b_key := "nightly/demo/2025-05-01-22-32.tar.gz";
                 Archival.b_repository_name := Some "demo";
                 Archival.b_backup_filename := Some "2025-05-01-22-32.tar.gz";
                 Archival.b_size := None; Archival.b_age_days := Some (JInt 61) |}
              ArchivalScenario.store (Archival.Blob "tarball") "archive-0001"
              eq_refl eq_refl eq_refl eq_refl) as (_ & Hvault & _).
  exact Hvault.
Defined.

(** ** The name of a download *)

Section Filename.

Import Retrieval.

Lemma string_app_nil_r (s : string) : s +:+ EmptyString = s.
Proof. induction s as [|c s IH]; [done|]. rewrite app_cons. by rewrite IH. Qed.

(** [split('/')] of a text whose first slash comes after [x]. *)
Lemma split_first_piece (x rest : string) :
  Py.str_in "/" x = false ->
  forall cur,
    Py.split_from "/" O cur (x +:+ "/" +:+ rest)
    = (cur +:+ x) :: Py.split_from "/" O EmptyString rest.
Proof.
  induction x as [|c x IH]; intros Hx cur.
  - rewrite app_nil_l, string_app_nil_r. reflexivity.
  - simpl in Hx. apply orb_false_iff in Hx as [Hc Hx].
    rewrite app_cons.
    change (Py.split_from "/" 0 cur (String c (x +:+ "/" +:+ rest)))
      with (if Py.startswith "/" (String c (x +:+ "/" +:+ rest))
            then cur :: Py.split_from "/" 0 EmptyString (x +:+ "/" +:+ rest)
            else Py.split_from "/" 0 (cur +:+ String c EmptyString)
                   (x +:+ "/" +:+ rest)).
    assert (Py.startswith "/" (String c (x +:+ "/" +:+ rest)) = false) as ->.
    { simpl in *. by destruct (decide ("/"%char = c)). }
    rewrite IH by done. by rewrite string_app_assoc.
Qed.

(** X18: the file name of a direct download.  For a key the engine
    made, [nightly/<repo>/<date>-<time>.tar.gz] with a repository name
    free of slashes, the name [handle_s3_download] offers the file
    under is [<repo>.tar.gz], whatever the date and the time. *)
Theorem engine_key_is_offered_under_repository_name (repo_name date_str timestamp : string) :
  Py.str_in "/" repo_name = false ->
  download_filename (Backup.s3_key_of repo_name date_str timestamp)
  = repo_name +:+ ".tar.gz".
Proof.
  intros Hrepo. unfold download_filename, Backup.s3_key_of.
  assert (Py.str_in "/" ("nightly/" +:+ repo_name +:+ "/" +:+ date_str +:+ "-"
                           +:+ timestamp +:+ ".tar.gz") = true) as ->.
  { apply str_in_spec. by exists "nightly", (repo_name +:+ "/" +:+ date_str +:+ "-"
                                            +:+ timestamp +:+ ".tar.gz"). }
  unfold Py.split.
  change ("nightly/" +:+ repo_name +:+ "/" +:+ date_str +:+ "-" +:+ timestamp
            +:+ ".tar.gz")
    with ("nightly" +:+ "/" +:+ (repo_name +:+ "/" +:+ date_str +:+ "-" +:+ timestamp
                                   +:+ ".tar.gz")).
  rewrite (split_first_piece "nightly") by reflexivity.
  rewrite (split_first_piece repo_name) by done.
  reflexivity.
Qed.

End Filename.

Lemma engine_key_is_offered_under_repository_name_witness :
  Retrieval.download_filename "nightly/demo/2025-07-01-22-34.tar.gz" = "demo.tar.gz".
Proof.
  apply (engine_key_is_offered_under_repository_name "demo" "2025-07-01" "22-34").
  reflexivity.
Defined.

(** ** Retrieval: from the request to the poll *)

Section Started.

Import Retrieval.

Lemma try_except_ok {St A} (body : M St A) (handler : exn -> M St A) (s s' : St) (a : A) :
  try_except body handler s = (Ok a, s') ->
  body s = (Ok a, s')
  \/ exists e s1, body s = (Raise e, s1) /\ handler e s1 = (Ok a, s').
Proof.
  unfold try_except. destruct (body s) as [[x|e] s1]; [by left|].
  intros H. right. eauto.
Qed.

Lemma mark_failed_raises {A} (id : string) (e : exn) (s s' : Svc) (a : A) :
  mark_failed id e s <> (Ok a, s').
Proof.
  unfold mark_failed, bind, raise.
  destruct (update_download_status id "failed" None (Some (exn_str e)) s) as [[[]|x] s1];
    discriminate.
Qed.

(** A poll of a row that carries no job identifier. *)
Lemma poll_as_stored (download_id : string) (item : gmap string Val) (s : Svc) :
  download_id <> EmptyString ->
  download_get_err s = None ->
  download_table s !! download_id = Some item ->
  match item !! "details" with
  | Some (VDict d) => d !! "glacier_job_id" = None
  | Some (VScalar _) => False
  | None => True
  end ->
  get_download_status download_id s = (Ok (ok_response item), s).
Proof.
  intros Hid Hget Hitem Hdetails.
  unfold get_download_status, try_except, bind, get_download_item, ret.
  rewrite bool_decide_eq_false_2 by done.
  rewrite Hget, Hitem.
  destruct (is_str (item !! "download_type") "glacier_retrieval"
            && is_str (item !! "status") "in_progress"); [|done].
  unfold details_get.
  destruct (item !! "details") as [[x|d]|]; [done| |done].
  rewrite Hdetails. done.
Qed.

(** X19: a row without a job identifier is answered as stored.  For
    a row of the download table whose details carry no
    [glacier_job_id], [get_download_status] answers 200 with the row
    as it is stored and changes nothing: it does not ask S3 about the
    object, whatever the type and the status of the operation. *)
Theorem poll_without_job_id_reads_only (download_id : string)
    (item : gmap string Val) (s : Svc) :
  download_id <> EmptyString ->
  download_get_err s = None ->
  download_table s !! download_id = Some item ->
  match item !! "details" with
  | Some (VDict d) => d !! "glacier_job_id" = None
  | Some (VScalar _) => False
  | None => True
  end ->
  get_download_status download_id s = (Ok (ok_response item), s).
Proof. apply poll_as_stored. Qed.

(** The row an update leaves under [id]. *)
Lemma update_download_status_ok (id status : string)
    (details : option (gmap string Scalar)) (error : option string) (s s' : Svc) :
  update_download_status id status details error s = (Ok tt, s') ->
  download_put_err s = None ->
  download_table s'
  = <[id := updated_item status (clock s (ticks s)) details error
              (default {[ "download_id" := VScalar (SStr id) ]}
                 (download_table s !! id))]> (download_table s)
  /\ services s' = services s.
Proof.
  unfold update_download_status, bind, now. simpl. intros H Hput.
  rewrite Hput in H. by injection H as <-.
Qed.

(** An update with details and without an error: what the row holds
    afterwards. *)
Lemma updated_item_details (status : string) (t : Z) (d : gmap string Scalar)
    (item : gmap string Val) :
  d <> ∅ ->
  let item' := updated_item status t (Some d) None item in
  item' !! "status" = Some (VScalar (SStr status))
  /\ item' !! "details" = Some (VDict d)
  /\ item' !! "download_type" = item !! "download_type".
Proof.
  intros Hd. cbv zeta. unfold updated_item.
  rewrite bool_decide_eq_false_2 by done.
  split; [|split].
  - rewrite lookup_insert_ne by done. rewrite lookup_insert_ne by done.
    apply lookup_insert_eq.
  - apply lookup_insert_eq.
  - by rewrite !lookup_insert_ne by done.
Qed.

(** What a download handler that returns has written: the row of
    the operation, updated with a status and with details that carry
    no job identifier. *)
Lemma handle_s3_download_ok (id key : string) (s s' : Svc)
    (result : gmap string Scalar) :
  handle_s3_download id key s = (Ok result, s') ->
  download_put_err s = None ->
  exists status t d,
    result !! "status" = Some (SStr status)
    /\ d <> ∅ /\ d !! "glacier_job_id" = None
    /\ download_table s'
       = <[id := updated_item status t (Some d) None
                   (default {[ "download_id" := VScalar (SStr id) ]}
                      (download_table s !! id))]> (download_table s).
Proof.
  intros Hrun Hput. unfold handle_s3_download in Hrun.
  apply try_except_ok in Hrun as [Hrun|(e & s1 & _ & Hrun)];
    [|by apply mark_failed_raises in Hrun].
  unfold handle_s3_download_body in Hrun.
  apply bind_ok in Hrun as (bucket & s1 & Henv & Hrun).
  unfold environ_get in Henv.
  destruct (environ s !! "S3_BUCKET_NAME"); [|discriminate]. injection Henv as _ <-.
  apply bind_ok in Hrun as (url & s2 & Hurl & Hrun).
  unfold s3_generate_presigned_url in Hurl. injection Hurl as _ <-.
  apply bind_ok in Hrun as (t & s3 & Hnow & Hrun).
  injection Hnow as <- <-.
  apply bind_ok in Hrun as ([] & s4 & Hupd & Hrun).
  injection Hrun as <- <-.
  apply update_download_status_ok in Hupd as [Htable _]; [|exact Hput].
  eexists "completed", _, _. split; [reflexivity|].
  split; [|split; [|exact Htable]].
  - intros H. apply (f_equal (fun m => m !! "download_url")) in H.
    rewrite lookup_insert_eq in H. discriminate.
  - reflexivity.
Qed.

Lemma handle_glacier_download_ok (id key repository_name : string) (s s' : Svc)
    (result : gmap string Scalar) :
  handle_glacier_download id key repository_name s = (Ok result, s') ->
  download_put_err s = None ->
  exists status t d,
    result !! "status" = Some (SStr status)
    /\ d <> ∅ /\ d !! "glacier_job_id" = None
    /\ download_table s'
       = <[id := updated_item status t (Some d) None
                   (default {[ "download_id" := VScalar (SStr id) ]}
                      (download_table s !! id))]> (download_table s).
Proof.
  intros Hrun Hput. unfold handle_glacier_download in Hrun.
  apply try_except_ok in Hrun as [Hrun|(e & s1 & _ & Hrun)];
    [|by apply mark_failed_raises in Hrun].
  unfold handle_glacier_download_body in Hrun.
  apply bind_ok in Hrun as (bucket & s1 & Henv & Hrun).
  unfold environ_get in Henv.
  destruct (environ s !! "S3_BUCKET_NAME"); [|discriminate]. injection Henv as _ <-.
  unfold try_except_only in Hrun.
  apply try_except_ok in Hrun as [Hrun|(e & s1 & _ & Hrun)].
  2:{ destruct (is_client_error e); [|discriminate].
      destruct (is_not_found e); discriminate. }
  apply bind_ok in Hrun as (response & s2 & Hhead & Hrun).
  unfold s3_head_object in Hhead. injection Hhead as _ <-.
  match type of Hrun with (if ?b then _ else _) _ = _ => destruct b end.
  - apply bind_ok in Hrun as ([] & s3 & Hupd & Hrun). injection Hrun as <- <-.
    apply update_download_status_ok in Hupd as [Htable _]; [|exact Hput].
    eexists "in_progress", _, _. split; [reflexivity|].
    split; [|split; [|exact Htable]].
    + intros H. apply (f_equal (fun m => m !! "restore_status")) in H.
      rewrite lookup_insert_eq in H. discriminate.
    + reflexivity.
  - match type of Hrun with (if ?b then _ else _) _ = _ => destruct b end.
    + apply handle_s3_download_ok in Hrun; [|exact Hput]. exact Hrun.
    + rewrite glacier_frame_has_no_request_body in Hrun.
      apply bind_ok in Hrun as (tier & s3 & Htier & Hrun). injection Htier as <- <-.
      apply bind_ok in Hrun as ([] & s4 & Hrestore & Hrun).
      unfold s3_restore_object in Hrestore.
      match type of Hrestore with match ?x with _ => _ end = _ =>
        destruct x; [discriminate|] end.
      injection Hrestore as <-.
      apply bind_ok in Hrun as ([] & s5 & Hupd & Hrun).
      apply update_download_status_ok in Hupd as [Htable _]; [|exact Hput].
      apply bind_ok in Hrun as ([] & s6 & Hlog & Hrun). injection Hrun as <- <-.
      assert (download_table s6 = download_table s5) as ->.
      { unfold log_restore_event, bind, now in Hlog. simpl in Hlog.
        destruct (events_put_err s5) as [x|];
          [destruct (is_client_error x); [|discriminate]|];
          by injection Hlog as <-. }
      eexists "in_progress", _, _. split; [reflexivity|].
      split; [|split; [|exact Htable]].
      * intros H. apply (f_equal (fun m => m !! "s3_key")) in H.
        rewrite lookup_insert_eq in H. discriminate.
      * reflexivity.
Qed.

Lemma create_download_operation_ok
    (repository_name backup_version user_id download_type source_location : string)
    (s s' : Svc) (id : string) :
  create_download_operation repository_name backup_version user_id download_type
    source_location s = (Ok id, s') ->
  id <> EmptyString ->
  download_put_err s = None
  /\ download_put_err s' = None
  /\ exists item,
       download_table s' = <[id := item]> (download_table s)
       /\ item !! "download_type" = Some (VScalar (SStr download_type)).
Proof.
  unfold create_download_operation, bind, gets, now. simpl. intros H Hid.
  destruct (download_put_err s) as [e|] eqn:Hput.
  - destruct (is_client_error e); [|discriminate]. by injection H as <-.
  - injection H as <- <-. simpl. split; [done|]. split; [done|].
    eexists. split; [reflexivity|]. reflexivity.
Qed.

(** The four answers of [initiate_download]. *)
Lemma initiate_download_cases (request_body : gmap string string)
    (s s' : Svc) (response : Response) :
  initiate_download request_body s = (Ok response, s') ->
  ((statusCode response = 400 \/ statusCode response = 404) /\ s' = s)
  \/ statusCode response = 500
  \/ (statusCode response = 200
      /\ exists download_id item d,
           download_id <> EmptyString
           /\ body response !! "download_id" = str download_id
           /\ download_table s' !! download_id = Some item
           /\ item !! "status" = body response !! "status"
           /\ item !! "details" = Some (VDict d)
           /\ d !! "glacier_job_id" = None).
Proof.
  intros Hrun. unfold initiate_download in Hrun.
  apply try_except_ok in Hrun as [Hrun|(e & s1 & _ & Hrun)];
    [|injection Hrun as <- <-; auto].
  match type of Hrun with (if ?b then _ else _) _ = _ => destruct b end;
    [injection Hrun as <- <-; auto|].
  apply bind_ok in Hrun as (found & s1 & Hfound & Hrun).
  assert (s1 = s) as ->.
  { unfold get_backup_item in Hfound.
    destruct (history_get_err s); [discriminate|]. by injection Hfound as _ <-. }
  destruct found as [backup_item|]; [|injection Hrun as <- <-; auto].
  apply bind_ok in Hrun as (id & s2 & Hcreate & Hrun).
  case_bool_decide as Hid; [injection Hrun as <- <-; auto|].
  apply create_download_operation_ok in Hcreate
    as (Hput & Hput2 & item0 & Htable2 & Htype); [|exact Hid].
  apply bind_ok in Hrun as (result & s3 & Hhandler & Hrun).
  injection Hrun as <- <-.
  assert (exists status t d,
            result !! "status" = Some (SStr status)
            /\ d <> ∅ /\ d !! "glacier_job_id" = None
            /\ download_table s3
               = <[id := updated_item status t (Some d) None
                           (default {[ "download_id" := VScalar (SStr id) ]}
                              (download_table s2 !! id))]> (download_table s2))
    as (status & t & d & Hstatus & Hd & Hjob & Htable3).
  { match type of Hhandler with (if ?b then _ else _) _ = _ => destruct b end.
    - by apply handle_s3_download_ok in Hhandler.
    - by apply handle_glacier_download_ok in Hhandler. }
  rewrite Htable2, lookup_insert_eq in Htable3.
  change (default _ (Some item0)) with item0 in Htable3.
  destruct (updated_item_details status t d item0 Hd) as (Hst & Hdet & _).
  right. right. split; [reflexivity|].
  eexists id, _, d. split; [done|]. split; [reflexivity|].
  split; [by rewrite Htable3, lookup_insert_eq|].
  split; [|by split].
  rewrite Hst. simpl. rewrite lookup_insert_ne by done.
  rewrite lookup_insert_ne by done. rewrite lookup_insert_eq.
  by rewrite Hstatus.
Qed.

(** X20: a download that was started is polled as it was stored.
    When every write to the download table succeeds and
    [initiate_download] answers 200, the operation it names is a row
    of the download table with the status of the answer, and a poll of
    that operation returns this row and changes nothing: the
    operations this API starts carry no job identifier, so that
    [get_download_status] does not look at the object again, and a
    retrieval answered [in_progress] is [in_progress] at every poll. *)
Theorem started_download_is_polled_as_stored (request_body : gmap string string)
    (s s' : Svc) (response : Response) :
  download_put_err s = None ->
  initiate_download request_body s = (Ok response, s') ->
  statusCode response = 200 ->
  download_get_err s' = None ->
  exists download_id item,
    body response !! "download_id" = str download_id
    /\ download_table s' !! download_id = Some item
    /\ item !! "status" = body response !! "status"
    /\ get_download_status download_id s' = (Ok (ok_response item), s').
Proof.
  intros _ Hrun Hcode Hget.
  apply initiate_download_cases in Hrun
    as [[[H|H] _]|[H|(_ & id & item & d & Hid & Hbody & Hitem & Hstatus & Hdet & Hjob)]];
    [congruence..|].
  exists id, item. repeat (split; [done|]).
  apply poll_as_stored; [done..|]. by rewrite Hdet.
Qed.

(** X21: [initiate_download] always answers.  It raises nothing; its
    status code is 200, 400, 404 or 500; an answer 400 or 404 leaves
    the state of the service as it was (no row, no call to S3); and an
    answer 200 names an operation that is a row of the download
    table. *)
Theorem initiate_download_always_answers (request_body : gmap string string)
    (s : Svc) :
  let r := initiate_download request_body s in
  exists response,
    fst r = Ok response
    /\ (statusCode response = 200 \/ statusCode response = 400
        \/ statusCode response = 404 \/ statusCode response = 500)
    /\ (statusCode response = 400 \/ statusCode response = 404 -> snd r = s)
    /\ (statusCode response = 200 ->
        exists download_id,
          body response !! "download_id" = str download_id
          /\ is_Some (download_table (snd r) !! download_id)).
Proof.
  cbv zeta.
  destruct (initiate_download request_body s) as [[response|e] s'] eqn:Hrun.
  - exists response. split; [done|]. simpl.
    apply initiate_download_cases in Hrun
      as [[H ->]|[H|(H & id & item & d & Hid & Hbody & Hitem & _)]].
    + split; [tauto|]. split; [done|]. intros H'. destruct H; congruence.
    + split; [tauto|]. split; intros H'; [destruct H'|]; congruence.
    + split; [tauto|]. split; [intros H'; destruct H'; congruence|].
      intros _. exists id. split; [done|]. by eexists.
  - exfalso. unfold initiate_download, try_except in Hrun.
    match type of Hrun with match ?b with _ => _ end = _ =>
      destruct b as [[x|x] s1]; discriminate end.
Qed.

End Started.

(** ** Retrieval: the rows of the download table *)

Section Rows.

Import Retrieval.

(** X22: a backup in the hot tier is served at once.  For a request
    that names a backup whose history row has storage class [s3] (or
    none), with the table writable and the link signed,
    [initiate_download] answers 200 with status [completed] and the
    signed link; it makes one call to S3, the signature of a link for
    the key that is valid for 86400 seconds and offers the file under
    the name [download_filename] gives; and the row of the operation
    is stored as [completed] with the link and its expiry, 24 hours
    after the clock was read. *)
Theorem hot_backup_is_served_at_once (request_body : gmap string string) (s : Svc)
    (repository_name backup_version bucket url : string) (backup_item : BackupItem) :
  request_body !! "repository_name" = Some repository_name ->
  repository_name <> EmptyString ->
  request_body !! "backup_version" = Some backup_version ->
  backup_version <> EmptyString ->
  history_get_err s = None ->
  history_table s !! (repository_name, backup_version) = Some backup_item ->
  default "s3" (storage_class backup_item) = "s3" ->
  download_put_err s = None ->
  uuid s (ticks s) <> EmptyString ->
  environ s !! "S3_BUCKET_NAME" = Some bucket ->
  let key := default EmptyString (s3_key backup_item) in
  presign s key (disposition (download_filename key)) (List.length (s3_calls s))
  = Ok url ->
  let r := initiate_download request_body s in
  let download_id := uuid s (ticks s) in
  response_code (fst r) = Some 200
  /\ response_field (fst r) "download_id" = str download_id
  /\ response_field (fst r) "status" = str "completed"
  /\ detail (response_field (fst r) "details") "download_url" = Some (SStr url)
  /\ s3_calls (snd r)
     = s3_calls s ++ [Presign key (disposition (download_filename key)) 86400]
  /\ stored_field (snd r) download_id "status" = str "completed"
  /\ detail (stored_field (snd r) download_id "details") "download_url"
     = Some (SStr url)
  /\ detail (stored_field (snd r) download_id "details") "expires_at"
     = Some (STime (clock s (S (S (ticks s))) + 24 * 3600)).
Proof.
  intros Hrepo Hrepo' Hversion Hversion' Hhist Hitem Hclass Hput Hid Henv key Hurl.
  cbv zeta.
  destruct (initiate_download request_body s) as [r s'] eqn:Hrun.
  unfold initiate_download, try_except in Hrun.
  rewrite Hrepo, Hversion in Hrun. cbn [from_option id] in Hrun.
  rewrite !bool_decide_eq_false_2 in Hrun by done. cbn [orb] in Hrun.
  unfold bind at 1 in Hrun. unfold get_backup_item in Hrun.
  rewrite Hhist, Hitem in Hrun.
  rewrite Hclass in Hrun. rewrite !bool_decide_eq_true_2 in Hrun by done.
  unfold bind at 1 in Hrun.
  unfold create_download_operation, bind, gets, now, handle_s3_download,
    handle_s3_download_body, try_except, bind, environ_get,
    s3_generate_presigned_url, update_download_status, bind, now, ret in Hrun.
  simpl in Hrun. rewrite Hput in Hrun.
  rewrite bool_decide_eq_false_2 in Hrun by done. simpl in Hrun.
  rewrite Henv in Hrun. simpl in Hrun. fold key in Hrun. rewrite Hurl in Hrun.
  simpl in Hrun. rewrite Hput in Hrun. simpl in Hrun.
  injection Hrun as <- <-.
  unfold stored_field. simpl. rewrite !lookup_insert_eq. simpl.
  repeat split.
Qed.

(** X23: what an update of an operation touches.  With the table
    writable, [update_download_status] sets the status and the time of
    the update of the row; it replaces the details only when it is
    given details that are not empty, and the error only when it is
    given an error that is not empty; every other attribute of the row
    and every other row are as they were.  When the operation has no
    row, the update makes one. *)
Theorem update_touches_its_own_fields (download_id status : string)
    (details : option (gmap string Scalar)) (error : option string) (s : Svc) :
  download_put_err s = None ->
  let r := update_download_status download_id status details error s in
  let row := default {[ "download_id" := VScalar (SStr download_id) ]}
               (download_table s !! download_id) in
  fst r = Ok tt
  /\ stored_field (snd r) download_id "status" = str status
  /\ stored_field (snd r) download_id "updated_at"
     = Some (VScalar (STime (clock s (ticks s))))
  /\ (forall k, k <> "status" -> k <> "updated_at" -> k <> "details" -> k <> "error" ->
      stored_field (snd r) download_id k = row !! k)
  /\ (details = None \/ details = Some ∅ ->
      stored_field (snd r) download_id "details" = row !! "details")
  /\ (error = None \/ error = Some EmptyString ->
      stored_field (snd r) download_id "error" = row !! "error")
  /\ (forall other, other <> download_id ->
      download_table (snd r) !! other = download_table s !! other).
Proof.
  intros Hput. cbv zeta.
  unfold update_download_status, bind, now. simpl. rewrite Hput. simpl.
  unfold stored_field. simpl. rewrite lookup_insert_eq. simpl.
  set (row := default {[ "download_id" := VScalar (SStr download_id) ]}
                (download_table s !! download_id)).
  assert (forall k, k <> "details" -> k <> "error" ->
            updated_item status (clock s (ticks s)) details error row !! k
            = (<["updated_at" := VScalar (STime (clock s (ticks s)))]>
                 (<["status" := VScalar (SStr status)]> row)) !! k) as Hother.
  { intros k Hd He. unfold updated_item.
    destruct error as [[|c e]|]; rewrite ?(lookup_insert_ne _ "error") by done;
      (destruct details as [d|]; [case_bool_decide|]);
      rewrite ?(lookup_insert_ne _ "details") by done; reflexivity. }
  split; [done|]. split.
  { rewrite Hother by done. rewrite lookup_insert_ne by done. apply lookup_insert_eq. }
  split.
  { rewrite Hother by done. apply lookup_insert_eq. }
  split.
  { intros k H1 H2 H3 H4. rewrite Hother by done.
    by rewrite !lookup_insert_ne by done. }
  split.
  { intros Hd. unfold updated_item.
    assert (match details with
            | Some d => if bool_decide (d = ∅)
                        then <["updated_at" := VScalar (STime (clock s (ticks s)))]>
                               (<["status" := VScalar (SStr status)]> row)
                        else <["details" := VDict d]>
                               (<["updated_at" := VScalar (STime (clock s (ticks s)))]>
                                  (<["status" := VScalar (SStr status)]> row))
            | None => <["updated_at" := VScalar (STime (clock s (ticks s)))]>
                        (<["status" := VScalar (SStr status)]> row)
            end
            = <["updated_at" := VScalar (STime (clock s (ticks s)))]>
                (<["status" := VScalar (SStr status)]> row)) as ->.
    { destruct Hd as [-> | ->]; [done|]. by rewrite bool_decide_eq_true_2. }
    destruct error as [[|c e]|]; rewrite ?(lookup_insert_ne _ "error") by done;
      by rewrite !lookup_insert_ne by done. }
  split.
  { intros He. unfold updated_item.
    assert (forall m : gmap string Val,
              match error with
              | Some (String c e) => <["error" := VScalar (SStr (String c e))]> m
              | _ => m
              end = m) as ->.
    { intros m. by destruct He as [-> | ->]. }
    destruct details as [d|]; [case_bool_decide|];
      rewrite ?(lookup_insert_ne _ "details") by done;
      by rewrite !lookup_insert_ne by done. }
  intros other Hne. by rewrite lookup_insert_ne.
Qed.

(** X24: a poll that finds the object restored.  For a retrieval in
    progress whose details carry a job identifier and the key of the
    object, when S3 reports the restore as finished
    ([ongoing-request="false"]) and signs the link,
    [get_download_status] answers 200 with status [completed] and the
    link, and the row is stored as [completed] with details that hold
    the link and [restore_completed]; the details of the answer are
    still those read before the update. *)
Theorem restored_object_completes_the_poll (download_id key bucket url restore : string)
    (item : gmap string Val) (d : gmap string Scalar) (job : Scalar) (s : Svc) :
  download_id <> EmptyString ->
  download_get_err s = None ->
  download_put_err s = None ->
  download_table s !! download_id = Some item ->
  item !! "download_type" = str "glacier_retrieval" ->
  item !! "status" = str "in_progress" ->
  item !! "details" = Some (VDict d) ->
  d !! "glacier_job_id" = Some job -> scalar_truthy job = true ->
  d !! "s3_key" = Some (SStr key) -> key <> EmptyString ->
  environ s !! "S3_BUCKET_NAME" = Some bucket ->
  head_object s key = Ok (Some restore) ->
  Py.str_in ongoing_false restore = true ->
  presign s key (disposition (Py.last_of (Py.split "/" key)))
    (S (List.length (s3_calls s))) = Ok url ->
  let r := get_download_status download_id s in
  response_code (fst r) = Some 200
  /\ response_field (fst r) "status" = str "completed"
  /\ response_field (fst r) "download_url" = str url
  /\ response_field (fst r) "details" = Some (VDict d)
  /\ stored_field (snd r) download_id "status" = str "completed"
  /\ detail (stored_field (snd r) download_id "details") "download_url"
     = Some (SStr url)
  /\ detail (stored_field (snd r) download_id "details") "restore_completed"
     = Some (SBool true)
  /\ detail (stored_field (snd r) download_id "details") "glacier_job_id" = None.
Proof.
  intros Hid Hget Hput Hitem Htype Hstatus Hdetails Hjob Htruthy Hkey Hkey' Henv
    Hhead Hrestored Hurl.
  cbv zeta.
  destruct (get_download_status download_id s) as [r s'] eqn:Hrun.
  unfold get_download_status, try_except in Hrun.
  rewrite bool_decide_eq_false_2 in Hrun by done.
  unfold bind at 1 in Hrun. unfold get_download_item at 1 in Hrun.
  rewrite Hget, Hitem in Hrun.
  unfold is_str in Hrun. rewrite Htype, Hstatus in Hrun.
  rewrite !bool_decide_eq_true_2 in Hrun by done. cbn [andb] in Hrun.
  unfold bind at 1 in Hrun. unfold bind at 1 in Hrun.
  unfold details_get at 1 in Hrun. rewrite Hdetails, Hjob in Hrun.
  unfold ret at 1 in Hrun. rewrite Htruthy in Hrun.
  unfold bind at 1 in Hrun.
  unfold check_glacier_job_status, check_glacier_job_status_body, try_except in Hrun.
  unfold bind at 1 in Hrun. unfold get_download_item at 1 in Hrun.
  rewrite Hget, Hitem in Hrun.
  unfold bind at 1 in Hrun. unfold details_get at 1 in Hrun.
  rewrite Hdetails, Hkey in Hrun. unfold ret at 1 in Hrun.
  assert (scalar_truthy (SStr key) = true) as Hk.
  { simpl. by rewrite bool_decide_eq_false_2. }
  rewrite Hk in Hrun. cbv beta iota zeta in Hrun. rewrite ?Hk in Hrun.
  cbn [negb] in Hrun.
  unfold bind at 1 in Hrun. unfold environ_get at 1 in Hrun. rewrite Henv in Hrun.
  unfold bind at 1 in Hrun. unfold as_key, ret at 1 in Hrun.
  unfold try_except_only, try_except in Hrun.
  unfold bind at 1 in Hrun. unfold s3_head_object at 1 in Hrun.
  rewrite Hhead in Hrun. rewrite Hrestored in Hrun.
  unfold bind, s3_generate_presigned_url, now, update_download_status, bind, now,
    ret, update_with in Hrun.
  simpl in Hrun.
  replace (List.length (s3_calls s ++ [HeadObject key]))
    with (S (List.length (s3_calls s))) in Hrun
    by (rewrite length_app; simpl; lia).
  rewrite Hurl in Hrun. simpl in Hrun. rewrite Hput in Hrun. simpl in Hrun.
  injection Hrun as <- <-.
  unfold stored_field, response_field, response_code. simpl.
  rewrite !lookup_insert_eq. simpl.
  split; [done|].
  assert (forall k v,
            (VScalar <$> ({[ "status" := SStr "completed";
                             "download_url" := SStr url;
                             "expires_in_hours" := SInt 24 ]} : gmap string Scalar))
              !! k = Some v ->
            ((VScalar <$> ({[ "status" := SStr "completed";
                              "download_url" := SStr url;
                              "expires_in_hours" := SInt 24 ]} : gmap string Scalar))
               ∪ item) !! k = Some v) as Hleft.
  { intros k v Hv. apply lookup_union_Some_raw. by left. }
  split; [by apply Hleft|]. split; [by apply Hleft|].
  split.
  { apply lookup_union_Some_raw. right. split; [reflexivity|exact Hdetails]. }
  match goal with |- context [bool_decide (?m = ∅)] =>
    rewrite (bool_decide_eq_false_2 (m = ∅)) end.
  2:{ intros H. apply (f_equal (fun m => m !! "download_url")) in H.
      discriminate H. }
  rewrite lookup_insert_eq.
  rewrite lookup_insert_ne by done. rewrite lookup_insert_ne by done.
  rewrite lookup_insert_eq.
  repeat split.
Qed.

End Rows.

Lemma poll_without_job_id_reads_only_witness :
  Retrieval.get_download_status "op-9" PollScenario.polling_restored
  = (Ok (Retrieval.ok_response PollScenario.restoring_item),
     PollScenario.polling_restored).
Proof.
  apply (poll_without_job_id_reads_only "op-9" PollScenario.restoring_item
           PollScenario.polling_restored);
    [discriminate|reflexivity|reflexivity|reflexivity].
Defined.

Lemma started_download_is_polled_as_stored_witness :
  let started :=
    snd (Retrieval.initiate_download RetrievalScenario.bulk_request
           RetrievalScenario.cold) in
  exists download_id item,
    Retrieval.download_table started !! download_id = Some item
    /\ Retrieval.get_download_status download_id started
       = (Ok (Retrieval.ok_response item), started).
Proof.
  cbv zeta.
  assert (Retrieval.response_code
            (fst (Retrieval.initiate_download RetrievalScenario.bulk_request
                    RetrievalScenario.cold)) = Some 200) as Hcode
    by (vm_compute; reflexivity).
  assert (Retrieval.download_get_err
            (snd (Retrieval.initiate_download RetrievalScenario.bulk_request
                    RetrievalScenario.cold)) = None) as Hget
    by (vm_compute; reflexivity).
  destruct (Retrieval.initiate_download RetrievalScenario.bulk_request
              RetrievalScenario.cold) as [[response|e] started] eqn:Hrun;
    [|discriminate Hcode].
  injection Hcode as Hcode.
  destruct (started_download_is_polled_as_stored RetrievalScenario.bulk_request
              RetrievalScenario.cold started response eq_refl Hrun Hcode Hget)
    as (download_id & item & _ & Hitem & _ & Hpoll).
  exists download_id, item. split; [exact Hitem|exact Hpoll].
Defined.

Lemma hot_backup_is_served_at_once_witness :
  Retrieval.response_field
    (fst (Retrieval.initiate_download PollScenario.hot_request PollScenario.hot))
    "status" = Retrieval.str "completed".
Proof.
  destruct (hot_backup_is_served_at_once PollScenario.hot_request PollScenario.hot
              "demo" "nightly/2025-07-01-22-34" "acme-backups"
              "https://acme-backups.s3.amazonaws.com/nightly/demo/2025-07-01-22-34.tar.gz?X-Amz-Signature=0"
              {| Retrieval.storage_class := Some "s3";
                 Retrieval.s3_key := Some "nightly/demo/2025-07-01-22-34.tar.gz";
                 Retrieval.archive_id := None |})
    as (_ & _ & Hstatus & _);
    [reflexivity|discriminate|reflexivity|discriminate|reflexivity|reflexivity
    |reflexivity|reflexivity|discriminate|reflexivity|reflexivity|].
  exact Hstatus.
Defined.

Lemma update_touches_its_own_fields_witness :
  Retrieval.stored_field
    (snd (Retrieval.update_download_status "op-3" "failed" None None
            RetrievalScenario.polling_completed)) "op-3" "status"
  = Retrieval.str "failed".
Proof.
  destruct (update_touches_its_own_fields "op-3" "failed" None None
              RetrievalScenario.polling_completed eq_refl) as (_ & Hstatus & _).
  exact Hstatus.
Defined.

Lemma restored_object_completes_the_poll_witness :
  Retrieval.response_field
    (fst (Retrieval.get_download_status "op-7" PollScenario.polling_restored_job))
    "status" = Retrieval.str "completed".
Proof.
  destruct (restored_object_completes_the_poll "op-7" RetrievalScenario.key
              "acme-backups"
              "https://acme-backups.s3.amazonaws.com/nightly/demo/2025-05-01-22-32.tar.gz?X-Amz-Signature=1"
              (Retrieval.ongoing_false +:+ ", expiry-date=" +:+ Py.quote
                 +:+ "Fri, 11 Jul 2025 00:00:00 GMT" +:+ Py.quote)
              RetrievalScenario.in_progress_item
              {[ "s3_key" := Retrieval.SStr RetrievalScenario.key;
                 "glacier_job_id" := Retrieval.SStr "job-1";
                 "restore_tier" := Retrieval.SStr "Standard";
                 "estimated_completion" := Retrieval.SStr "3-5 hours" ]}
              (Retrieval.SStr "job-1") PollScenario.polling_restored_job)
    as (_ & Hstatus & _);
    [discriminate|reflexivity|reflexivity|reflexivity|reflexivity|reflexivity
    |reflexivity|reflexivity|reflexivity|reflexivity|discriminate|reflexivity
    |reflexivity|reflexivity|reflexivity|].
  exact Hstatus.
Defined.

(** ** The archival handler: dates, listing, actions *)

Section KeyDates.

Import Backup Archiver.

Lemma digit_facts (k : Z) :
  0 <= k <= 9 ->
  Py.is_digit (digit k) = true
  /\ Z.of_N (N_of_ascii (digit k) - 48) = k
  /\ digit k <> "-"%char /\ digit k <> "/"%char /\ digit k <> "."%char
  /\ digit k <> " "%char.
Proof.
  intros Hk.
  assert (k = 0 \/ k = 1 \/ k = 2 \/ k = 3 \/ k = 4 \/ k = 5 \/ k = 6 \/ k = 7
          \/ k = 8 \/ k = 9) as Hc by lia.
  repeat destruct Hc as [->|Hc]; try subst k; vm_compute; repeat split; discriminate.
Qed.

Lemma tens_digit (n : Z) : 0 <= n / 10 mod 10 <= 9.
Proof. pose proof (Z.mod_pos_bound (n / 10) 10). lia. Qed.

Lemma units_digit (n : Z) : 0 <= n mod 10 <= 9.
Proof. pose proof (Z.mod_pos_bound n 10). lia. Qed.

(** [c in s] for a character. *)
Lemma char_in_cons (c a : ascii) (s : string) :
  Py.str_in (String c EmptyString) (String a s)
  = bool_decide (c = a) || Py.str_in (String c EmptyString) s.
Proof.
  change (Py.str_in (String c EmptyString) (String a s))
    with (Py.startswith (String c EmptyString) (String a s)
          || Py.str_in (String c EmptyString) s).
  f_equal; simpl; destruct (decide (c = a));
    by rewrite ?bool_decide_eq_true_2, ?bool_decide_eq_false_2.
Qed.

Lemma char_in_app (c : ascii) (a b : string) :
  Py.str_in (String c EmptyString) (a +:+ b)
  = Py.str_in (String c EmptyString) a || Py.str_in (String c EmptyString) b.
Proof.
  induction a as [|x a IH].
  - rewrite app_nil_l. destruct b; reflexivity.
  - rewrite app_cons, !char_in_cons, IH. by rewrite orb_assoc.
Qed.

Lemma char_in_pad2 (c : ascii) (n : Z) :
  (forall k, 0 <= k <= 9 -> digit k <> c) ->
  Py.str_in (String c EmptyString) (pad2 n) = false.
Proof.
  intros Hc. unfold pad2. rewrite !char_in_cons.
  rewrite !bool_decide_eq_false_2; [reflexivity|..];
    intros E; symmetry in E; revert E; apply Hc; [apply units_digit|apply tens_digit].
Qed.

Lemma char_in_pad4 (c : ascii) (n : Z) :
  (forall k, 0 <= k <= 9 -> digit k <> c) ->
  Py.str_in (String c EmptyString) (pad4 n) = false.
Proof. intros Hc. unfold pad4. by rewrite char_in_app, !char_in_pad2. Qed.

Lemma no_dash (k : Z) : 0 <= k <= 9 -> digit k <> "-"%char.
Proof. intros Hk. apply (digit_facts k Hk). Qed.

Lemma no_slash (k : Z) : 0 <= k <= 9 -> digit k <> "/"%char.
Proof. intros Hk. apply (digit_facts k Hk). Qed.

Lemma no_dot (k : Z) : 0 <= k <= 9 -> digit k <> "."%char.
Proof. intros Hk. apply (digit_facts k Hk). Qed.

(** [split] on a character: the piece before its first occurrence,
    and the last piece. *)
Lemma split_piece (sep : ascii) (x rest : string) :
  Py.str_in (String sep EmptyString) x = false ->
  forall cur,
    Py.split_from (String sep EmptyString) O cur (x +:+ String sep rest)
    = (cur +:+ x) :: Py.split_from (String sep EmptyString) O EmptyString rest.
Proof.
  induction x as [|c x IH]; intros Hx cur.
  - rewrite app_nil_l, string_app_nil_r. simpl.
    destruct (decide (sep = sep)) as [_|E]; [|done]. by destruct rest.
  - rewrite char_in_cons in Hx. apply orb_false_iff in Hx as [Hc Hx].
    apply bool_decide_eq_false in Hc.
    rewrite app_cons.
    change (Py.split_from (String sep EmptyString) 0 cur
              (String c (x +:+ String sep rest)))
      with (if Py.startswith (String sep EmptyString) (String c (x +:+ String sep rest))
            then cur :: Py.split_from (String sep EmptyString) 0 EmptyString
                          (x +:+ String sep rest)
            else Py.split_from (String sep EmptyString) 0 (cur +:+ String c EmptyString)
                   (x +:+ String sep rest)).
    assert (Py.startswith (String sep EmptyString) (String c (x +:+ String sep rest))
            = false) as ->.
    { simpl. by destruct (decide (sep = c)). }
    rewrite IH by done. by rewrite string_app_assoc.
Qed.

Lemma split_last (sep : ascii) (x : string) :
  Py.str_in (String sep EmptyString) x = false ->
  forall cur, Py.split_from (String sep EmptyString) O cur x = [cur +:+ x].
Proof.
  induction x as [|c x IH]; intros Hx cur.
  - by rewrite string_app_nil_r.
  - rewrite char_in_cons in Hx. apply orb_false_iff in Hx as [Hc Hx].
    apply bool_decide_eq_false in Hc.
    change (Py.split_from (String sep EmptyString) 0 cur (String c x))
      with (if Py.startswith (String sep EmptyString) (String c x)
            then cur :: Py.split_from (String sep EmptyString) 0 EmptyString x
            else Py.split_from (String sep EmptyString) 0 (cur +:+ String c EmptyString) x).
    assert (Py.startswith (String sep EmptyString) (String c x) = false) as ->.
    { simpl. by destruct (decide (sep = c)). }
    rewrite IH by done. by rewrite string_app_assoc.
Qed.

(** [replace] takes the extension off a name that has no other dot. *)
Lemma replace_extension (x : string) :
  Py.str_in "." x = false ->
  Py.replace ".tar.gz" EmptyString (x +:+ ".tar.gz") = x.
Proof.
  unfold Py.replace. induction x as [|c x IH]; intros Hx; [reflexivity|].
  rewrite char_in_cons in Hx. apply orb_false_iff in Hx as [Hc Hx].
  apply bool_decide_eq_false in Hc.
  rewrite app_cons.
  change (Py.replace_from ".tar.gz" EmptyString 0 (String c (x +:+ ".tar.gz")))
    with (if Py.startswith ".tar.gz" (String c (x +:+ ".tar.gz"))
          then EmptyString +:+ Py.replace_from ".tar.gz" EmptyString 6 (x +:+ ".tar.gz")
          else String c (Py.replace_from ".tar.gz" EmptyString 0 (x +:+ ".tar.gz"))).
  assert (Py.startswith ".tar.gz" (String c (x +:+ ".tar.gz")) = false) as ->.
  { simpl. by destruct (decide ("."%char = c)). }
  by rewrite IH.
Qed.

Lemma rev_app_app (a b : string) :
  forall acc, String.rev_app (a +:+ b) acc = String.rev_app b (String.rev_app a acc).
Proof.
  induction a as [|c a IH]; intros acc; [by rewrite app_nil_l|].
  rewrite app_cons. simpl. apply IH.
Qed.

Lemma rev_app_acc (s : string) :
  forall acc, String.rev_app s acc = String.rev s +:+ acc.
Proof.
  unfold String.rev. induction s as [|c s IH]; intros acc; [by rewrite app_nil_l|].
  simpl. rewrite (IH (String c EmptyString)), IH.
  by rewrite string_app_assoc, app_cons, app_nil_l.
Qed.

Lemma rev_app (a b : string) : String.rev (a +:+ b) = String.rev b +:+ String.rev a.
Proof. unfold String.rev at 1. by rewrite rev_app_app, rev_app_acc. Qed.

Lemma endswith_app (x suffix : string) : endswith suffix (x +:+ suffix) = true.
Proof. unfold endswith. rewrite rev_app. apply startswith_app. Qed.

Lemma substring_whole (s : string) : String.substring 0 (String.length s) s = s.
Proof. induction s as [|c s IH]; [reflexivity|]. simpl. by rewrite IH. Qed.

(** The fields [strptime] reads are the numbers [strftime] wrote. *)
Lemma digits_pad2 (n : Z) : 0 <= n <= 99 -> Calendar.digits (pad2 n) = Some n.
Proof.
  intros Hn. unfold pad2, Calendar.digits, Calendar.digits_from.
  destruct (digit_facts _ (tens_digit n)) as (-> & -> & _).
  destruct (digit_facts _ (units_digit n)) as (-> & -> & _).
  f_equal. Z.to_euclidean_division_equations. lia.
Qed.

Lemma field_pad2 (lo hi n : Z) :
  0 <= n <= 99 -> lo <= n <= hi -> Calendar.field lo hi (pad2 n) = Some n.
Proof.
  intros Hn Hr. unfold Calendar.field.
  change (String.length (pad2 n) <=? 2)%nat with true. cbv iota.
  rewrite digits_pad2 by done.
  destruct (Z.leb_spec lo n); [|lia]. destruct (Z.leb_spec n hi); [|lia]. reflexivity.
Qed.

Lemma field_d_pad2 (n : Z) : 1 <= n <= 31 -> Calendar.field_d (pad2 n) = Some n.
Proof.
  intros Hn. rewrite <- (field_pad2 1 31 n) by lia.
  unfold pad2, Calendar.field_d.
  destruct (digit_facts _ (tens_digit n)) as (_ & _ & _ & _ & _ & Hsp).
  destruct (digit (n / 10 mod 10)) as [[] [] [] [] [] [] [] []]; try reflexivity.
  by destruct Hsp.
Qed.

Lemma field_Y_pad4 (y : Z) : 0 <= y <= 9999 -> Calendar.field_Y (pad4 y) = Some y.
Proof.
  intros Hy. unfold Calendar.field_Y.
  change (String.length (pad4 y) =? 4)%nat with true. cbv iota.
  unfold pad4, pad2, Calendar.digits. rewrite !app_cons, app_nil_l.
  unfold Calendar.digits_from.
  destruct (digit_facts _ (tens_digit (y / 100))) as (-> & -> & _).
  destruct (digit_facts _ (units_digit (y / 100))) as (-> & -> & _).
  destruct (digit_facts _ (tens_digit (y mod 100))) as (-> & -> & _).
  destruct (digit_facts _ (units_digit (y mod 100))) as (-> & -> & _).
  f_equal. Z.to_euclidean_division_equations. lia.
Qed.

Lemma date_text (d t : datetime) :
  strftime_Ymd d +:+ "-" +:+ strftime_HM t
  = pad4 (year d) +:+ String "-" (pad2 (month d) +:+ String "-" (pad2 (day d)
      +:+ String "-" (pad2 (hour t) +:+ String "-" (pad2 (minute t))))).
Proof. unfold strftime_Ymd, strftime_HM. by rewrite !string_app_assoc. Qed.

Lemma date_text_plain (c : ascii) (d t : datetime) :
  (forall k, 0 <= k <= 9 -> digit k <> c) -> c <> "-"%char ->
  Py.str_in (String c EmptyString) (strftime_Ymd d +:+ "-" +:+ strftime_HM t) = false.
Proof.
  intros Hc Hd. rewrite date_text.
  assert (bool_decide (c = "-"%char) = false) as Hb by (by apply bool_decide_eq_false_2).
  rewrite char_in_app, char_in_pad4, char_in_cons, Hb by done.
  rewrite char_in_app, char_in_pad2, char_in_cons, Hb by done.
  rewrite char_in_app, char_in_pad2, char_in_cons, Hb by done.
  rewrite char_in_app, char_in_pad2, char_in_cons, Hb by done.
  by rewrite char_in_pad2.
Qed.

(** What the lister reads off the file name of a key of the engine. *)
Lemma backup_date_of_engine_name (d t : datetime) (last_modified : Z) :
  valid d -> valid t ->
  Calendar.valid_date (year d) (month d) (day d) = true ->
  backup_date_of (strftime_Ymd d +:+ "-" +:+ strftime_HM t +:+ ".tar.gz") last_modified
  = Calendar.moment (year d) (month d) (day d) (hour t) (minute t) 0 0.
Proof.
  intros (Hy & Hm & Hd & _) (_ & _ & _ & HH & HM & _) Hvalid.
  unfold backup_date_of.
  replace (strftime_Ymd d +:+ "-" +:+ strftime_HM t +:+ ".tar.gz")
    with ((strftime_Ymd d +:+ "-" +:+ strftime_HM t) +:+ ".tar.gz")
    by (by rewrite !string_app_assoc).
  rewrite replace_extension by (apply date_text_plain; [apply no_dot|done]).
  change (16 <=? String.length (strftime_Ymd d +:+ "-" +:+ strftime_HM t))%nat with true.
  cbv iota zeta.
  change 16%nat with (String.length (strftime_Ymd d +:+ "-" +:+ strftime_HM t)).
  rewrite substring_whole, date_text.
  unfold Calendar.strptime_YmdHM, Py.split.
  rewrite split_piece by (apply char_in_pad4, no_dash).
  rewrite !split_piece by (apply char_in_pad2, no_dash).
  rewrite split_last by (apply char_in_pad2, no_dash).
  rewrite !app_nil_l.
  rewrite field_Y_pad4 by lia. rewrite !field_pad2 by lia.
  rewrite field_d_pad2 by lia. simpl. by rewrite Hvalid.
Qed.

(** X25: the lister reads back the time the engine wrote into a key.
    For a key the engine made for a repository whose name has no
    slash, from a date and a time of day that exist, the loop of
    [list_backups_to_archive] takes the repository name from the key
    and, as the date of the backup, the day of the engine's first
    reading of the clock at the hour and minute of its second one,
    with no regard to [LastModified]; the backup is added to the list
    exactly when that moment is before the cutoff, with its age in
    whole days at the next reading of the clock. *)
Theorem lister_reads_the_time_off_the_key_of_the_engine
    (repo_name : string) (r : Run) (size last_modified cutoff_date : Z)
    (found : list Candidate) (w : World) :
  valid (handler_time r) -> valid (upload_time r) ->
  Calendar.valid_date (year (handler_time r)) (month (handler_time r))
    (day (handler_time r)) = true ->
  Py.str_in "/" repo_name = false ->
  let taken := Calendar.moment (year (handler_time r)) (month (handler_time r))
                 (day (handler_time r)) (hour (upload_time r))
                 (minute (upload_time r)) 0 0 in
  consider cutoff_date found
    {| Key := key_of_run repo_name r; Size := size; LastModified := last_modified |} w
  = if taken <? cutoff_date
    then (Ok (found ++
                [ {| c_key := key_of_run repo_name r;
                     c_repository_name := repo_name;
                     c_backup_filename :=
                       strftime_Ymd (handler_time r) +:+ "-"
                         +:+ strftime_HM (upload_time r) +:+ ".tar.gz";
                     c_size := size;
                     c_date := taken;
                     c_last_modified := last_modified;
                     c_age_days := (clock w (ticks w) - taken) / Calendar.day_us |} ]),
          set_ticks (S (S (ticks w))) w)
    else (Ok found, w).
Proof.
  intros Hd Ht Hvalid Hrepo taken.
  unfold consider. cbn [Key Size LastModified].
  assert (endswith ".tar.gz" (key_of_run repo_name r) = true) as ->.
  { unfold key_of_run, s3_key_of.
    replace ("nightly/" +:+ repo_name +:+ "/" +:+ strftime_Ymd (handler_time r) +:+ "-"
               +:+ strftime_HM (upload_time r) +:+ ".tar.gz")
      with (("nightly/" +:+ repo_name +:+ "/" +:+ strftime_Ymd (handler_time r) +:+ "-"
               +:+ strftime_HM (upload_time r)) +:+ ".tar.gz")
      by (by rewrite !string_app_assoc).
    apply endswith_app. }
  assert (Py.split "/" (key_of_run repo_name r)
          = ["nightly"; repo_name;
             strftime_Ymd (handler_time r) +:+ "-" +:+ strftime_HM (upload_time r)
               +:+ ".tar.gz"]) as ->.
  { unfold key_of_run, s3_key_of, Py.split.
    change ("nightly/" +:+ repo_name +:+ "/" +:+ strftime_Ymd (handler_time r) +:+ "-"
              +:+ strftime_HM (upload_time r) +:+ ".tar.gz")
      with ("nightly" +:+ String "/" (repo_name +:+ String "/"
              (strftime_Ymd (handler_time r) +:+ "-"
                 +:+ strftime_HM (upload_time r) +:+ ".tar.gz"))).
    rewrite split_piece by reflexivity.
    rewrite split_piece by exact Hrepo.
    rewrite split_last.
    - by rewrite !app_nil_l.
    - replace (strftime_Ymd (handler_time r) +:+ "-" +:+ strftime_HM (upload_time r)
                 +:+ ".tar.gz")
        with ((strftime_Ymd (handler_time r) +:+ "-" +:+ strftime_HM (upload_time r))
                +:+ ".tar.gz") by (by rewrite !string_app_assoc).
      rewrite char_in_app, date_text_plain; [reflexivity|apply no_slash|done]. }
  rewrite backup_date_of_engine_name by done. fold taken.
  destruct (taken <? cutoff_date); reflexivity.
Qed.

End KeyDates.

Lemma lister_reads_the_time_off_the_key_of_the_engine_witness :
  Archiver.consider (Calendar.moment 2025 7 2 2 0 0 0) []
    {| Archiver.Key := Backup.key_of_run "demo" Scenario.first_run;
       Archiver.Size := 52428800;
       Archiver.LastModified := Calendar.moment 2025 7 1 20 32 41 0 |}
    ListScenario.world
  = (Ok [ {| Archiver.c_key := "nightly/demo/2025-07-01-22-32.tar.gz";
             Archiver.c_repository_name := "demo";
             Archiver.c_backup_filename := "2025-07-01-22-32.tar.gz";
             Archiver.c_size := 52428800;
             Archiver.c_date := Calendar.moment 2025 7 1 22 32 0 0;
             Archiver.c_last_modified := Calendar.moment 2025 7 1 20 32 41 0;
             Archiver.c_age_days := 30 |} ],
     Archiver.set_ticks 2 ListScenario.world).
Proof.
  apply (lister_reads_the_time_off_the_key_of_the_engine "demo" Scenario.first_run
           52428800 (Calendar.moment 2025 7 1 20 32 41 0)
           (Calendar.moment 2025 7 2 2 0 0 0) [] ListScenario.world).
  - vm_compute. repeat split; discriminate.
  - vm_compute. repeat split; discriminate.
  - reflexivity.
  - reflexivity.
Defined.

Section Listing.

Import Archiver.

Lemma outside_refl (w : World) : outside w w.
Proof. by repeat split. Qed.

Lemma outside_trans (w1 w2 w3 : World) : outside w1 w2 -> outside w2 w3 -> outside w1 w3.
Proof.
  intros (? & ? & ? & ?) (? & ? & ? & ?). repeat split; congruence.
Qed.

Lemma consider_adds (cutoff_date : Z) (found : list Candidate) (obj : Obj) (w : World) :
  exists extra w',
    consider cutoff_date found obj w = (Ok (found ++ extra), w')
    /\ obj_of <$> extra = List.filter (due cutoff_date) [obj]
    /\ outside w w'.
Proof.
  unfold consider, due. cbn [List.filter].
  destruct (endswith ".tar.gz" (Key obj)); cbn [andb].
  - destruct (Py.split "/" (Key obj)) as [|p0 [|p1 [|p2 rest]]];
      try (exists [], w; rewrite app_nil_r; by repeat split).
    destruct (backup_date_of p2 (LastModified obj) <? cutoff_date).
    + eexists [_], _. split; [reflexivity|]. split; [|by repeat split].
      cbn. by destruct obj.
    + exists [], w. rewrite app_nil_r. by repeat split.
  - exists [], w. rewrite app_nil_r. by repeat split.
Qed.

Lemma page_adds (cutoff_date : Z) (page : list Obj) :
  forall (found : list Candidate) (w : World),
    exists extra w',
      for_each page found (consider cutoff_date) w = (Ok (found ++ extra), w')
      /\ obj_of <$> extra = List.filter (due cutoff_date) page
      /\ outside w w'.
Proof.
  induction page as [|obj page IH]; intros found w.
  - exists [], w. rewrite app_nil_r. by repeat split.
  - destruct (consider_adds cutoff_date found obj w) as (e1 & w1 & H1 & Hf1 & Ho1).
    destruct (IH (found ++ e1) w1) as (e2 & w2 & H2 & Hf2 & Ho2).
    exists (e1 ++ e2), w2. split; [|split].
    + cbn [for_each]. unfold bind at 1. rewrite H1, H2. by rewrite app_assoc.
    + rewrite fmap_app, Hf1, Hf2.
      change (obj :: page) with ([obj] ++ page). by rewrite List.filter_app.
    + by eapply outside_trans.
Qed.

Lemma pages_add (cutoff_date : Z) (l : list (result (list Obj))) :
  forall (found : list Candidate) (w : World),
    exists extra w',
      over_pages cutoff_date l found w = (Ok (found ++ extra), w')
      /\ obj_of <$> extra = List.filter (due cutoff_date) (arrived l)
      /\ outside w w'.
Proof.
  induction l as [|[page|e] l IH]; intros found w.
  - exists [], w. rewrite app_nil_r. by repeat split.
  - destruct (page_adds cutoff_date page found w) as (e1 & w1 & H1 & Hf1 & Ho1).
    destruct (IH (found ++ e1) w1) as (e2 & w2 & H2 & Hf2 & Ho2).
    exists (e1 ++ e2), w2. split; [|split].
    + cbn [over_pages]. unfold bind at 1. rewrite H1, H2. by rewrite app_assoc.
    + cbn [arrived]. by rewrite fmap_app, Hf1, Hf2, List.filter_app.
    + by eapply outside_trans.
  - exists [], w. rewrite app_nil_r. by repeat split.
Qed.

Lemma days_before_now_cases (n : Z) (w : World) :
  (exists c, days_before_now n w = (Ok c, set_ticks (S (ticks w)) w)
             /\ c = clock w (ticks w) - n * Calendar.day_us
             /\ Z.abs n <= 999999999 /\ 0 <= c <= Calendar.max_moment)
  \/ (exists e, days_before_now n w = (Raise e, set_ticks (S (ticks w)) w)).
Proof.
  unfold days_before_now, bind, now.
  destruct (Z.ltb_spec 999999999 (Z.abs n)); [right; by eexists|].
  destruct (Z.ltb_spec (clock w (ticks w) - n * Calendar.day_us) 0);
    [right; by eexists|].
  destruct (Z.ltb_spec Calendar.max_moment (clock w (ticks w) - n * Calendar.day_us));
    [right; by eexists|].
  left. eexists. split; [reflexivity|]. split; [reflexivity|]. lia.
Qed.

(** X26: what the listing holds.  With a retention whose cutoff is a
    date [datetime] can hold, [list_backups_to_archive] raises nothing
    and returns, in the order of the listing, the objects that came in
    the pages before the first failed request and pass the three tests
    of the loop: the key ends in [.tar.gz], it has three parts or
    more, and the date of the backup is before the cutoff.  A failed
    request ends the listing and is not reported. *)
Theorem listing_holds_what_arrived_and_is_due (bucket : string) (retention_days : Z)
    (w : World) :
  Z.abs retention_days <= 999999999 ->
  let cutoff_date := clock w (ticks w) - retention_days * Calendar.day_us in
  0 <= cutoff_date <= Calendar.max_moment ->
  exists backups,
    fst (list_backups_to_archive bucket retention_days w) = Ok backups
    /\ obj_of <$> backups = List.filter (due cutoff_date) (arrived (pages w)).
Proof.
  intros Hn cutoff_date Hc.
  unfold list_backups_to_archive, bind at 1.
  destruct (days_before_now_cases retention_days w) as [(c & -> & -> & _)|(e & He)].
  - unfold bind, gets.
    destruct (pages_add (clock w (ticks w) - retention_days * Calendar.day_us)
                (pages (set_ticks (S (ticks w)) w)) [] (set_ticks (S (ticks w)) w))
      as (extra & w' & -> & Hf & _).
    exists extra. split; [reflexivity|]. exact Hf.
  - exfalso. revert He. unfold days_before_now, bind, now.
    destruct (Z.ltb_spec 999999999 (Z.abs retention_days)); [lia|].
    fold cutoff_date.
    destruct (Z.ltb_spec cutoff_date 0); [lia|].
    destruct (Z.ltb_spec Calendar.max_moment cutoff_date); [lia|]. discriminate.
Qed.

Lemma list_backups_to_archive_outside (bucket : string) (n : Z) (w : World) :
  (exists r, fst (list_backups_to_archive bucket n w) = r)
  /\ outside w (snd (list_backups_to_archive bucket n w)).
Proof.
  split; [by eexists|].
  unfold list_backups_to_archive, bind at 1.
  destruct (days_before_now_cases n w) as [(c & -> & _)|(e & ->)].
  - unfold bind, gets.
    destruct (pages_add c (pages (set_ticks (S (ticks w)) w)) []
                (set_ticks (S (ticks w)) w)) as (extra & w' & -> & _ & Ho).
    exact Ho.
  - by repeat split.
Qed.

Local Ltac conclude :=
  match goal with
  | H : _ = (?r, ?w) |- context [fst (?r, ?w)] =>
      cbv beta iota delta [ret raise] in H; injection H as <- <-
  end.

(** X27: the actions of the archival handler.  [lambda_handler]
    raises nothing; it answers with a list of backups only when the
    action is ['list'], the default; and unless the action is
    ['archive'] and comes with a backup, it downloads, uploads, writes
    and deletes nothing: the bucket, the vault and the record of the
    calls made to them are what they were. *)
Theorem only_the_archive_action_touches_the_stores (event : Event) (w : World) :
  let r := lambda_handler event w in
  exists reply,
    fst r = Ok reply
    /\ ((exists backups, reply = Backups backups)
        -> default (JStr "list") (ev_action event) = JStr "list")
    /\ ((forall backup_info,
           ~ (ev_action event = Some (JStr "archive")
              /\ ev_backup event = BackupGiven backup_info))
        -> store (snd r) = store w).
Proof.
  cbv zeta.
  destruct (lambda_handler event w) as [r w'] eqn:Hrun.
  unfold lambda_handler, try_except in Hrun.
  unfold bind at 1 in Hrun. unfold environ_get at 1 in Hrun.
  destruct (environ w !! "S3_BUCKET_NAME") as [s3_bucket|];
    [|conclude; eexists; split; [reflexivity|]; split;
      [by intros [? ?]|done]].
  unfold bind at 1 in Hrun. unfold environ_get at 1 in Hrun.
  destruct (environ w !! "GLACIER_VAULT_NAME") as [glacier_vault|];
    [|conclude; eexists; split; [reflexivity|]; split;
      [by intros [? ?]|done]].
  unfold bind at 1 in Hrun. unfold gets at 1 in Hrun.
  unfold bind at 1 in Hrun.
  destruct (py_int (default (JStr (default "30" (environ w !! "RETENTION_DAYS")))
                      (ev_retention_days_override event)) w)
    as [[retention_days|e] w1] eqn:Hint.
  2:{ conclude. eexists. split; [reflexivity|]. split; [by intros [? ?]|].
      intros _. unfold py_int in Hint.
      repeat case_match; unfold ret, raise in Hint; by simplify_eq. }
  assert (w1 = w) as ->.
  { unfold py_int in Hint. repeat case_match; unfold ret, raise in Hint; by simplify_eq. }
  destruct (list_backups_to_archive_outside s3_bucket retention_days w)
    as (_ & (_ & _ & _ & Hlist)).
  destruct (ev_action event) as [action|] eqn:Haction.
  - change (default (JStr "list") (Some action)) with action in Hrun |- *.
    destruct (decide (action = JStr "list")) as [->|Hl].
    + rewrite (bool_decide_eq_true_2 _ eq_refl) in Hrun.
      unfold bind in Hrun.
      destruct (list_backups_to_archive s3_bucket retention_days w) as [[l|e] w2];
        conclude; (eexists; split; [reflexivity|]; split; [done|]);
        intros _; exact Hlist.
    + rewrite (bool_decide_eq_false_2 _ Hl) in Hrun.
      destruct (decide (action = JStr "archive")) as [->|Ha].
      * rewrite (bool_decide_eq_true_2 _ eq_refl) in Hrun.
        destruct (ev_backup event) as [| |backup_info] eqn:Hb.
        -- conclude. eexists. split; [reflexivity|]. split; [by intros [? ?]|done].
        -- conclude. eexists. split; [reflexivity|]. split; [by intros [? ?]|done].
        -- unfold bind, on_store in Hrun.
           destruct (Archival.archive_single_backup s3_bucket glacier_vault backup_info
                       (store w)) as [[o|e] st];
             conclude; (eexists; split; [reflexivity|]);
             (split; [by intros [? ?]|]); intros Hno; by destruct (Hno backup_info).
      * rewrite (bool_decide_eq_false_2 _ Ha) in Hrun.
        conclude. eexists. split; [reflexivity|]. split; [by intros [? ?]|done].
  - change (default (JStr "list") None) with (JStr "list") in Hrun |- *.
    rewrite (bool_decide_eq_true_2 _ eq_refl) in Hrun.
    unfold bind in Hrun.
    destruct (list_backups_to_archive s3_bucket retention_days w) as [[l|e] w2];
      conclude; (eexists; split; [reflexivity|]; split; [done|]);
      intros _; exact Hlist.
Qed.

End Listing.

Lemma listing_holds_what_arrived_and_is_due_witness :
  exists backups,
    fst (Archiver.list_backups_to_archive "backups" 30 ListScenario.world) = Ok backups
    /\ Archiver.obj_of <$> backups
       = [ {| Archiver.Key := "nightly/demo/2025-05-01-22-32.tar.gz";
              Archiver.Size := 52428800;
              Archiver.LastModified := Calendar.moment 2025 5 1 20 32 41 0 |};
           {| Archiver.Key := "nightly/demo/notes.tar.gz";
              Archiver.Size := 2048;
              Archiver.LastModified := Calendar.moment 2025 4 2 9 0 0 0 |} ].
Proof.
  apply (listing_holds_what_arrived_and_is_due "backups" 30 ListScenario.world).
  - vm_compute. discriminate.
  - vm_compute. split; discriminate.
Defined.

Section Sweep.

Import Archiver.

Variable k : string.

Lemma spared_refl (w : World) : spared k w w.
Proof. split; [done|]. exists []. rewrite app_nil_r. split; [done|]. apply not_elem_of_nil. Qed.

Lemma spared_trans (w1 w2 w3 : World) : spared k w1 w2 -> spared k w2 w3 -> spared k w1 w3.
Proof.
  intros (H1 & l1 & Hc1 & Hn1) (H2 & l2 & Hc2 & Hn2). split; [congruence|].
  exists (l1 ++ l2). split.
  - by rewrite Hc2, Hc1, app_assoc.
  - rewrite elem_of_app. tauto.
Qed.

Lemma days_before_now_spares (n : Z) (w : World) :
  spared k w (snd (days_before_now n w)).
Proof.
  destruct (days_before_now_cases n w) as [(c & -> & _)|(e & ->)];
    exact (spared_refl w).
Qed.

Lemma delete_spares (key : string) (w : World) :
  key <> k -> spared k w (snd (on_store (Archival.delete_object key) w)).
Proof.
  intros Hk. unfold on_store, Archival.delete_object. cbv zeta.
  destruct (Archival.delete_err _ key); unfold spared; cbn.
  - split; [done|]. exists [Archival.DeleteObject key]. split; [done|].
    rewrite list_elem_of_singleton. congruence.
  - split; [by rewrite lookup_delete_ne|]. exists [Archival.DeleteObject key].
    split; [done|]. rewrite list_elem_of_singleton. congruence.
Qed.

Hypothesis no_date :
  forall p0 p1 rest, Py.split "/" k = p0 :: p1 :: rest -> Calendar.strptime_Ymd p1 = None.

Lemma sweep_spares (cutoff_date : Z) (deleted : list string) (obj : Obj) (w : World) :
  spared k w (snd (sweep cutoff_date deleted obj w)).
Proof.
  unfold sweep.
  destruct (Py.split "/" (Key obj)) as [|p0 [|p1 rest]] eqn:Hsplit;
    try apply spared_refl.
  destruct (Calendar.strptime_Ymd p1) as [d|] eqn:Hd; [|apply spared_refl].
  destruct (d <? cutoff_date); [|apply spared_refl].
  assert (Key obj <> k) as Hk.
  { intros E. rewrite E in Hsplit. apply no_date in Hsplit. congruence. }
  pose proof (delete_spares (Key obj) w Hk) as Hs.
  unfold try_except_only, try_except, bind.
  destruct (on_store (Archival.delete_object (Key obj)) w) as [[[]|e] w1]; cbn in Hs |- *.
  - exact Hs.
  - by destruct (is_value_error e).
Qed.

Lemma page_spares (cutoff_date : Z) (page : list Obj) :
  forall (deleted : list string) (w : World),
    spared k w (snd (for_each page deleted (sweep cutoff_date) w)).
Proof.
  induction page as [|obj page IH]; intros deleted w; [apply spared_refl|].
  cbn [for_each]. unfold bind.
  pose proof (sweep_spares cutoff_date deleted obj w) as H1.
  destruct (sweep cutoff_date deleted obj w) as [[d1|e] w1]; cbn in H1 |- *; [|done].
  eapply spared_trans; [exact H1|apply IH].
Qed.

Lemma pages_spare (cutoff_date : Z) (l : list (result (list Obj))) :
  forall (deleted : list string) (w : World),
    spared k w (snd (sweep_pages cutoff_date l deleted w)).
Proof.
  induction l as [|[page|e] l IH]; intros deleted w; try apply spared_refl.
  cbn [sweep_pages]. unfold bind.
  pose proof (page_spares cutoff_date page deleted w) as H1.
  destruct (for_each page deleted (sweep cutoff_date) w) as [[d1|e] w1];
    cbn in H1 |- *; [|done].
  eapply spared_trans; [exact H1|apply IH].
Qed.

Lemma cleanup_spares (bucket : string) (n : Z) (w : World) :
  spared k w (snd (cleanup_old_backups bucket n w)).
Proof.
  unfold cleanup_old_backups, bind at 1.
  pose proof (days_before_now_spares n w) as H0.
  destruct (days_before_now n w) as [[c|e] w0]; cbn in H0 |- *; [|done].
  eapply spared_trans; [exact H0|].
  unfold try_except, bind, gets.
  pose proof (pages_spare c (pages w0) [] w0) as H1.
  destruct (sweep_pages c (pages w0) [] w0) as [[d|e] w1]; exact H1.
Qed.

End Sweep.

Section Spared.

Import Backup Archiver.

(** X28: [cleanup_old_backups] and the keys of the engine.  The
    function reads the second part of a key as the date of the backup,
    where the engine puts the name of the repository.  So unless the
    name of a repository reads as a date, and it has no slash, no
    backup of it is deleted, whatever the retention and whatever the
    listing holds: no call deletes its key and what is under the key
    is what was there. *)
Theorem cleanup_spares_the_backups_of_the_engine (bucket repo_name : string)
    (retention_days : Z) (r : Run) (w : World) :
  Py.str_in "/" repo_name = false ->
  Calendar.strptime_Ymd repo_name = None ->
  let key := key_of_run repo_name r in
  let w' := snd (cleanup_old_backups bucket retention_days w) in
  Archival.s3 (store w') !! key = Archival.s3 (store w) !! key
  /\ exists l, Archival.calls (store w') = Archival.calls (store w) ++ l
               /\ Archival.DeleteObject key ∉ l.
Proof.
  intros Hrepo Hdate key w'. apply cleanup_spares.
  intros p0 p1 rest. unfold key, key_of_run, s3_key_of, Py.split.
  change ("nightly/" +:+ repo_name +:+ "/" +:+ strftime_Ymd (handler_time r) +:+ "-"
            +:+ strftime_HM (upload_time r) +:+ ".tar.gz")
    with ("nightly" +:+ String "/" (repo_name +:+ String "/"
            (strftime_Ymd (handler_time r) +:+ "-"
               +:+ strftime_HM (upload_time r) +:+ ".tar.gz"))).
  rewrite split_piece by reflexivity.
  rewrite split_piece by exact Hrepo.
  rewrite !app_nil_l. intros [= _ <- _]. exact Hdate.
Qed.

End Spared.

Lemma cleanup_spares_the_backups_of_the_engine_witness :
  let key := "nightly/demo/2025-05-01-22-32.tar.gz" in
  let w' := snd (Archiver.cleanup_old_backups "backups" 30 ListScenario.two_layouts) in
  Archival.s3 (Archiver.store w') !! key
  = Archival.s3 (Archiver.store ListScenario.two_layouts) !! key
  /\ exists l, Archival.calls (Archiver.store w')
               = Archival.calls (Archiver.store ListScenario.two_layouts) ++ l
               /\ Archival.DeleteObject key ∉ l.
Proof.
  apply (cleanup_spares_the_backups_of_the_engine "backups" "demo" 30
           {| Backup.handler_time := Backup.DateTime 2025 5 1 22 32 5;
              Backup.upload_time := Backup.DateTime 2025 5 1 22 32 20 |}
           ListScenario.two_layouts); reflexivity.
Defined.

Section Ages.

Import Archiver.

Variable cutoff_date : Z.
Variable clock0 : nat -> Z.
Variable first : nat.

Lemma consider_ages (found : list Candidate) (obj : Obj) (w : World) :
  clock w = clock0 -> (first <= ticks w)%nat ->
  Forall (aged cutoff_date clock0 first) found ->
  exists found' w',
    consider cutoff_date found obj w = (Ok found', w')
    /\ clock w' = clock0 /\ (first <= ticks w')%nat
    /\ Forall (aged cutoff_date clock0 first) found'.
Proof.
  intros Hc Ht Hf. unfold consider.
  destruct (endswith ".tar.gz" (Key obj)); [|by exists found, w].
  destruct (Py.split "/" (Key obj)) as [|p0 [|p1 [|p2 rest]]];
    try by exists found, w.
  destruct (Z.ltb_spec (backup_date_of p2 (LastModified obj)) cutoff_date) as [Hlt|_];
    [|by exists found, w].
  eexists _, _. split; [reflexivity|]. cbn. split; [exact Hc|]. split; [lia|].
  apply Forall_app. split; [exact Hf|]. apply Forall_singleton.
  split; [exact Hlt|]. exists (ticks w). split; [exact Ht|]. cbn. by rewrite Hc.
Qed.

Lemma page_ages (page : list Obj) :
  forall (found : list Candidate) (w : World),
    clock w = clock0 -> (first <= ticks w)%nat ->
  Forall (aged cutoff_date clock0 first) found ->
    exists found' w',
      for_each page found (consider cutoff_date) w = (Ok found', w')
      /\ clock w' = clock0 /\ (first <= ticks w')%nat
    /\ Forall (aged cutoff_date clock0 first) found'.
Proof.
  induction page as [|obj page IH]; intros found w Hc Ht Hf; [by exists found, w|].
  destruct (consider_ages found obj w Hc Ht Hf) as (f1 & w1 & H1 & Hc1 & Ht1 & Hf1).
  destruct (IH f1 w1 Hc1 Ht1 Hf1) as (f2 & w2 & H2 & Hc2 & Ht2 & Hf2).
  exists f2, w2. split; [|done]. cbn [for_each]. unfold bind at 1. by rewrite H1.
Qed.

Lemma pages_age (l : list (result (list Obj))) :
  forall (found : list Candidate) (w : World),
    clock w = clock0 -> (first <= ticks w)%nat ->
  Forall (aged cutoff_date clock0 first) found ->
    exists found' w',
      over_pages cutoff_date l found w = (Ok found', w')
      /\ Forall (aged cutoff_date clock0 first) found'.
Proof.
  induction l as [|[page|e] l IH]; intros found w Hc Ht Hf; try by exists found, w.
  destruct (page_ages page found w Hc Ht Hf) as (f1 & w1 & H1 & Hc1 & Ht1 & Hf1).
  destruct (IH f1 w1 Hc1 Ht1 Hf1) as (f2 & w2 & H2 & Hf2).
  exists f2, w2. split; [|done]. cbn [over_pages]. unfold bind at 1. by rewrite H1.
Qed.

End Ages.

Section Listed.

Import Archiver.

(** X29: what is listed is past its retention.  With a clock that
    does not run backwards, every backup [list_backups_to_archive]
    returns has a date before the cutoff, the first reading of the
    clock less the retention, and the age in days the list gives for
    it is at least the retention. *)
Theorem listed_backup_is_past_its_retention (bucket : string) (retention_days : Z)
    (w : World) (backups : list Candidate) :
  (forall i j, (i <= j)%nat -> clock w i <= clock w j) ->
  fst (list_backups_to_archive bucket retention_days w) = Ok backups ->
  forall c, c ∈ backups ->
    retention_days <= c_age_days c
    /\ c_date c < clock w (ticks w) - retention_days * Calendar.day_us.
Proof.
  intros Hmono Hrun c Hin.
  unfold list_backups_to_archive, bind at 1 in Hrun.
  destruct (days_before_now_cases retention_days w) as [(d & Hd & -> & _)|(e & He)].
  2:{ by rewrite He in Hrun. }
  rewrite Hd in Hrun. unfold bind, gets in Hrun.
  destruct (pages_age (clock w (ticks w) - retention_days * Calendar.day_us) (clock w)
              (ticks w) (pages (set_ticks (S (ticks w)) w)) []
              (set_ticks (S (ticks w)) w) eq_refl)
    as (found & w' & Hover & Hall).
  { cbn. lia. }
  { constructor. }
  rewrite Hover in Hrun. cbn in Hrun. injection Hrun as ->.
  rewrite Forall_forall in Hall. destruct (Hall c Hin) as (Hlt & i & Hi & Hage).
  split; [|exact Hlt].
  rewrite Hage. apply Z.div_le_lower_bound; [done|].
  pose proof (Hmono _ _ Hi). unfold Calendar.day_us in *. lia.
Qed.

End Listed.

Lemma listed_backup_is_past_its_retention_witness :
  let c := {| Archiver.c_key := "nightly/demo/2025-05-01-22-32.tar.gz";
              Archiver.c_repository_name := "demo";
              Archiver.c_backup_filename := "2025-05-01-22-32.tar.gz";
              Archiver.c_size := 52428800;
              Archiver.c_date := Calendar.moment 2025 5 1 22 32 0 0;
              Archiver.c_last_modified := Calendar.moment 2025 5 1 20 32 41 0;
              Archiver.c_age_days := 91 |} in
  30 <= Archiver.c_age_days c
  /\ Archiver.c_date c
     < Archiver.clock ListScenario.world (Archiver.ticks ListScenario.world)
       - 30 * Calendar.day_us.
Proof.
  cbv zeta.
  apply (listed_backup_is_past_its_retention "backups" 30 ListScenario.world
           (match fst (Archiver.list_backups_to_archive "backups" 30
                         ListScenario.world) with
            | Ok backups => backups
            | Raise _ => []
            end)).
  - intros i j Hij. unfold ListScenario.world, Archiver.clock, Calendar.moment. lia.
  - vm_compute. reflexivity.
  - vm_compute. apply list_elem_of_here.
Defined.
